(** * The multi-policy A3C-GCN solver of conal-vne

    A shallow embedding of [src/virne/solver/learning/a3c_gcn/solver.py]:
    the class [A3CGcnMultiPoliciesSolver] (task routing, buffer splitting,
    the per-task fine-tuning loop, checkpoint save and load) and the
    function [obs_as_tensor].

    Python objects with identity (rollout buffers) live in a store of
    cells and are named by their location; exceptions are values threaded
    through a state-and-exception monad; dictionaries whose iteration order
    is observable are insertion-ordered association lists, the others are
    finite maps. *)

From stdpp Require Import base list gmap strings sorting pretty.

Open Scope Z_scope.

(** ** Python exceptions and fallible computations *)

(** The exception classes that the modelled code can raise or let through.
    [Exception] is the base class that [obs_as_tensor] raises directly. *)
Inductive ExnClass :=
  | Exception
  | KeyError
  | IndexError
  | TypeError
  | RuntimeError
  | ValueError
  | FileNotFoundError
  | UnpicklingError.

Record Exn := mkExn { exn_class : ExnClass; exn_msg : string }.

(** [LookupError] is the common base class of [KeyError] and [IndexError]. *)
Definition is_LookupError (e : Exn) : bool :=
  match exn_class e with
  | KeyError | IndexError => true
  | _ => false
  end.

Inductive Res (A : Type) :=
  | Ok (a : A)
  | Raise (e : Exn).
Arguments Ok {A} a.
Arguments Raise {A} e.

Global Instance res_ret : MRet Res := λ A a, Ok a.

Global Instance res_bind : MBind Res := λ A B k m,
  match m with
  | Ok a => k a
  | Raise e => Raise e
  end.

(** [[f(x) for x in l]] for a fallible [f]: the first failure wins. *)
Fixpoint for_each {A B} (f : A → Res B) (l : list A) : Res (list B) :=
  match l with
  | [] => Ok []
  | x :: r => y ← f x; ys ← for_each f r; Ok (y :: ys)
  end.

(** ** Insertion-ordered dictionaries keyed by task id

    A Python [dict] iterates in insertion order; assigning to a key that is
    already present keeps its position. *)
Section odict.
Context {V : Type}.

Fixpoint dict_get (k : Z) (d : list (Z * V)) : option V :=
  match d with
  | [] => None
  | (k', v) :: r => if decide (k' = k) then Some v else dict_get k r
  end.

Definition dict_mem (k : Z) (d : list (Z * V)) : bool :=
  bool_decide (is_Some (dict_get k d)).

Fixpoint dict_set (k : Z) (v : V) (d : list (Z * V)) : list (Z * V) :=
  match d with
  | [] => [(k, v)]
  | (k', v') :: r =>
      if decide (k' = k) then (k, v) :: r else (k', v') :: dict_set k v r
  end.

Definition dict_keys (d : list (Z * V)) : list Z := d.*1.

(** [d[k]], raising [KeyError] when [k] is absent. *)
Definition dict_item (k : Z) (d : list (Z * V)) : Res V :=
  match dict_get k d with
  | Some v => Ok v
  | None => Raise (mkExn KeyError (pretty k))
  end.
End odict.

(** ** Values, observations and rollout buffers *)

(** The types of the numeric libraries (numpy, torch, torch_geometric) and
    of the trainable objects, all opaque to the solver. *)
Class LibTypes := {
  ndarray : Type;     (* numpy arrays and floating-point scalars *)
  Tensor : Type;      (* torch tensors *)
  Device : Type;
  Data : Type;        (* torch_geometric.data.Data *)
  Batch : Type;       (* torch_geometric.data.Batch *)
  Policy : Type;      (* the ActorCritic module, with its parameters *)
  Optimizer : Type;   (* a torch.optim.Adam instance, with its state *)
  StateDict : Type;   (* what policy.state_dict() returns *)
  OptState : Type;    (* what optimizer.state_dict() returns *)
  Solution : Type;    (* what the inherited solve returns *)
  PyFloat : Type;     (* a Python float, such as a learning rate *)
  Network : Type;     (* a virtual or physical network object *)
}.

Section data.
Context `{LibTypes}.

(** What an observation field or a buffer entry can hold. *)
Inductive Val :=
  | VInt (n : Z)
  | VArr (a : ndarray).

(** An observation is a [dict] from field names to values. *)
Definition Observation := gmap string Val.

(** Modelled from the spec: [RolloutBuffer] of
    [virne.solver.learning.rl_base.buffer], an ordered log of per-step
    experience: observations plus parallel sequences of actions,
    log-probabilities, rewards and returns, and the action masks. Only
    the fields that the solver reads or writes are kept. *)
Record RolloutBuffer := mkBuffer {
  observations : list Observation;
  actions : list Val;
  logprobs : list Val;
  rewards : list Val;
  returns : list Val;
  action_masks : list Val;
}.

(** Modelled from the spec: [RolloutBuffer()] is created empty. *)
Definition RolloutBuffer_new : RolloutBuffer :=
  mkBuffer [] [] [] [] [] [].

(** Modelled from the spec: [buffer.clear()] empties every sequence. *)
Definition RolloutBuffer_clear (b : RolloutBuffer) : RolloutBuffer :=
  RolloutBuffer_new.

Definition size (b : RolloutBuffer) : nat := length (observations b).

(** The data-model invariant: all parallel sequences are index-aligned. *)
Definition aligned (b : RolloutBuffer) : Prop :=
  length (actions b) = length (observations b) ∧
  length (logprobs b) = length (observations b) ∧
  length (rewards b) = length (observations b) ∧
  length (returns b) = length (observations b).

(** ** [_stats_task_dist] and [_split_buffer] *)

(** [obs['v_net_size']] as a task id. *)
Definition v_net_size_of (obs : Observation) : Res Z :=
  match obs !! "v_net_size"%string with
  | Some (VInt n) => Ok n
  | Some (VArr _) =>
      Raise (mkExn TypeError "unhashable type: 'numpy.ndarray'")
  | None => Raise (mkExn KeyError "'v_net_size'")
  end.

(** [np.array([obs['v_net_size'] for obs in buffer.observations])] *)
Definition v_net_size_list (b : RolloutBuffer) : Res (list Z) :=
  for_each v_net_size_of (observations b).

Definition labelled (b : RolloutBuffer) : Prop :=
  Forall (λ obs : Observation,
    ∃ n, obs !! "v_net_size"%string = Some (VInt n)) (observations b).

(** [Counter(l)]: counts the elements of [l] in a dictionary, so its keys
    are the distinct elements in order of first occurrence. *)
Definition Counter (l : list Z) : list (Z * nat) :=
  foldl (λ d x, dict_set x (S (default 0%nat (dict_get x d))) d) [] l.

Definition _stats_task_dist (b : RolloutBuffer) : Res (list (Z * nat)) :=
  l ← v_net_size_list b; Ok (Counter l).

(** [set(l)]: the distinct elements (Python leaves the order open; every
    use below sorts the result). *)
Definition py_set (l : list Z) : list Z := remove_dups l.

(** [sorted(l)] on integers. *)
Definition sorted (l : list Z) : list Z := merge_sort Z.le l.

(** [np.where(labels == k)[0]]: the positions holding [k], ascending. *)
Definition np_where_eq (labels : list Z) (k : Z) : list nat :=
  filter (λ i, labels !! i = Some k) (seq 0 (length labels)).

(** [l[i]] on a list or an array: [IndexError] out of range. *)
Definition index {A} (l : list A) (i : nat) : Res A :=
  match l !! i with
  | Some x => Ok x
  | None => Raise (mkExn IndexError "index out of range")
  end.

(** [[l[i] for i in idx]] and [np.array(l)[idx].tolist()]: the entries of
    [l] at the positions [idx], in the order of [idx]. *)
Definition take_indices {A} (l : list A) (idx : list nat) : Res (list A) :=
  for_each (index l) idx.

(** One iteration of the loop of [_split_buffer]. *)
Definition split_task (b : RolloutBuffer) (labels : list Z) (task_id : Z)
    (task_buffers : list (Z * RolloutBuffer)) : Res (list (Z * RolloutBuffer)) :=
  let task_indices := np_where_eq labels task_id in
  let task_buffer := RolloutBuffer_new in
  obs ← take_indices (observations b) task_indices;
  acts ← take_indices (actions b) task_indices;
  lps ← take_indices (logprobs b) task_indices;
  rews ← take_indices (rewards b) task_indices;
  rets ← take_indices (returns b) task_indices;
  let task_buffer :=
    mkBuffer obs acts lps rews rets (action_masks task_buffer) in
  Ok (dict_set task_id task_buffer task_buffers).

Fixpoint split_loop (b : RolloutBuffer) (labels : list Z) (tasks_list : list Z)
    (task_buffers : list (Z * RolloutBuffer)) : Res (list (Z * RolloutBuffer)) :=
  match tasks_list with
  | [] => Ok task_buffers
  | task_id :: rest =>
      task_buffers ← split_task b labels task_id task_buffers;
      split_loop b labels rest task_buffers
  end.

Definition _split_buffer (b : RolloutBuffer) : Res (list (Z * RolloutBuffer)) :=
  labels ← v_net_size_list b;
  let tasks_list := sorted (py_set labels) in
  task_buffers ← split_loop b labels tasks_list [];
  for_each (λ k, tb ← dict_item k task_buffers; Ok (k, tb))
           (sorted (dict_keys task_buffers)).

(** [tb] holds, in each of its five sequences, exactly the entries of [b]
    at the positions [idx], in the order of [idx]. *)
Definition selects (b : RolloutBuffer) (idx : list nat) (tb : RolloutBuffer) : Prop :=
  Some <$> observations tb = (λ i, observations b !! i) <$> idx ∧
  Some <$> actions tb = (λ i, actions b !! i) <$> idx ∧
  Some <$> logprobs tb = (λ i, logprobs b !! i) <$> idx ∧
  Some <$> rewards tb = (λ i, rewards b !! i) <$> idx ∧
  Some <$> returns tb = (λ i, returns b !! i) <$> idx.
End data.

(** ** References to the trainable objects

    [self.policy = self.task_policies[task_id]] makes two names for one
    object; a reference says which object a name stands for. *)
Inductive PolicyRef :=
  | BasePolicy                    (* the policy built by make_policy *)
  | MetaPolicy                    (* self.meta_policy *)
  | TaskPolicy (task_id : Z).     (* self.task_policies[task_id] *)

Inductive OptimizerRef :=
  | BaseOptimizer
  | MetaOptimizer
  | TaskOptimizer (task_id : Z).

Section objects.
Context `{LibTypes}.

(** An instance is the pairing of a virtual network request with the
    substrate network. *)
Record Instance := mkInstance { v_net : Network; p_net : Network }.

(** Any Python object that can reach [obs_as_tensor]. *)
#[warnings="-register-all"]
Inductive PyObj :=
  | ODict (d : Observation)
  | OList (l : list PyObj)
  | OTuple (l : list PyObj)
  | ONone
  | OStr (s : string)
  | OVal (v : Val).

(** An entry of the dictionary that [obs_as_tensor] returns. *)
Inductive TensorObs :=
  | TGraph (b : Batch)
  | TTensor (t : Tensor).

(** A deserialized checkpoint, typed loosely enough to have keys missing:
    [None] is an absent key. *)
Record CkEntry := mkCkEntry {
  ck_policy : option StateDict;
  ck_optimizer : option OptState;
}.

Record Checkpoint := mkCheckpoint {
  ck_meta_policy : option CkEntry;
  ck_task_policies : option (list (Z * CkEntry));
}.

Inductive File :=
  | Corrupt
  | Archive (c : Checkpoint).

(** One call of an inherited method: the generic update with the active
    policy, optimizer and buffer contents it was given and the exception it
    raised, if any; the generic solve with the policy of the searcher. *)
Inductive Event :=
  | EvUpdate (p : PolicyRef) (o : OptimizerRef) (b : RolloutBuffer)
             (raised : option Exn)
  | EvSolve (p : PolicyRef) (i : Instance).

(** The call of the generic update for task [kt.1] on the sub-buffer
    [kt.2]. *)
Definition task_update (raised : option Exn) (kt : Z * RolloutBuffer) : Event :=
  EvUpdate (TaskPolicy kt.1) (TaskOptimizer kt.1) kt.2 raised.

(** What [InstanceAgent.__init__] and [PPOSolver.__init__] leave behind. *)
Record Inherited := mkInherited {
  i_policy : Policy;
  i_optimizer : Optimizer;
  i_lr : PyFloat;
  i_model_dir : string;
  i_verbose : Z;
  i_disk : gmap string File;
}.
End objects.

(** The operations of the numeric libraries and of the collaborators of the
    solver that live outside [solver.py]: [get_pyg_data] of [..utils] and the
    inherited [update] and [solve] of [PPOSolver]. An in-place operation
    returns the object as it leaves it, with the exception it raised if any. *)
Class LibOps `{LibTypes} := {
  num_nodes : Network → Z;
  np_array : list Val → ndarray;
  FloatTensor : ndarray → Tensor;
  LongTensor : ndarray → Tensor;
  tensor_to : Tensor → Device → Tensor;
  Batch_from_data_list : list Data → Batch;
  batch_to : Batch → Device → Batch;
  get_pyg_data : Val → Val → Data;
  state_dict : Policy → StateDict;
  load_state_dict : Policy → StateDict → Policy * option Exn;
  opt_state_dict : Optimizer → OptState;
  opt_load_state_dict : Optimizer → OptState → Optimizer * option Exn;
  Adam : Policy → PyFloat → Optimizer;
  (* Modelled from the spec: the generic policy-gradient update consumes
     the active buffer, policy and optimizer, mutates them in place, and
     may fail. *)
  generic_update : Policy → Optimizer → RolloutBuffer →
                   (Policy * Optimizer * RolloutBuffer) * option Exn;
  (* Modelled from the spec: the inherited solve runs one inference
     episode with the policy of the searcher. *)
  generic_solve : Policy → Instance → Res Solution;
}.

(** ** The solver and its world *)
Section state.
Context `{LibTypes}.

(** The attributes of an [A3CGcnMultiPoliciesSolver], the store of
    rollout buffers, the file system, and the record of inherited calls. *)
Record Solver := mkSolver {
  policy : PolicyRef;  (* self.policy *)
  optimizer : OptimizerRef;  (* self.optimizer *)
  buffer : nat;  (* self.buffer: where the active buffer lives *)
  searcher_policy : PolicyRef;  (* self.searcher.policy *)
  base_policy : Policy;
  base_optimizer : Optimizer;
  lr : PyFloat;
  model_dir : string;
  verbose : Z;
  meta_policy : Policy;
  meta_optimizer : Optimizer;
  task_policies : list (Z * Policy);
  task_optimizers : list (Z * Optimizer);
  target_steps : Z;
  infer_with_single_task_policy_id : Z;
  heap : list RolloutBuffer;  (* the rollout buffers, by location *)
  disk : gmap string File;  (* the file system *)
  calls : list Event;  (* the inherited calls made so far *)
}.

Definition set_policy (v : PolicyRef) (s : Solver) : Solver :=
  {| policy := v; optimizer := optimizer s; buffer := buffer s;
     searcher_policy := searcher_policy s; base_policy := base_policy s;
     base_optimizer := base_optimizer s; lr := lr s;
     model_dir := model_dir s; verbose := verbose s;
     meta_policy := meta_policy s; meta_optimizer := meta_optimizer s;
     task_policies := task_policies s;
     task_optimizers := task_optimizers s;
     target_steps := target_steps s;
     infer_with_single_task_policy_id := infer_with_single_task_policy_id s;
     heap := heap s; disk := disk s; calls := calls s |}.

Definition set_optimizer (v : OptimizerRef) (s : Solver) : Solver :=
  {| policy := policy s; optimizer := v; buffer := buffer s;
     searcher_policy := searcher_policy s; base_policy := base_policy s;
     base_optimizer := base_optimizer s; lr := lr s;
     model_dir := model_dir s; verbose := verbose s;
     meta_policy := meta_policy s; meta_optimizer := meta_optimizer s;
     task_policies := task_policies s;
     task_optimizers := task_optimizers s;
     target_steps := target_steps s;
     infer_with_single_task_policy_id := infer_with_single_task_policy_id s;
     heap := heap s; disk := disk s; calls := calls s |}.

Definition set_buffer (v : nat) (s : Solver) : Solver :=
  {| policy := policy s; optimizer := optimizer s; buffer := v;
     searcher_policy := searcher_policy s; base_policy := base_policy s;
     base_optimizer := base_optimizer s; lr := lr s;
     model_dir := model_dir s; verbose := verbose s;
     meta_policy := meta_policy s; meta_optimizer := meta_optimizer s;
     task_policies := task_policies s;
     task_optimizers := task_optimizers s;
     target_steps := target_steps s;
     infer_with_single_task_policy_id := infer_with_single_task_policy_id s;
     heap := heap s; disk := disk s; calls := calls s |}.

Definition set_searcher_policy (v : PolicyRef) (s : Solver) : Solver :=
  {| policy := policy s; optimizer := optimizer s; buffer := buffer s;
     searcher_policy := v; base_policy := base_policy s;
     base_optimizer := base_optimizer s; lr := lr s;
     model_dir := model_dir s; verbose := verbose s;
     meta_policy := meta_policy s; meta_optimizer := meta_optimizer s;
     task_policies := task_policies s;
     task_optimizers := task_optimizers s;
     target_steps := target_steps s;
     infer_with_single_task_policy_id := infer_with_single_task_policy_id s;
     heap := heap s; disk := disk s; calls := calls s |}.

Definition set_base_policy (v : Policy) (s : Solver) : Solver :=
  {| policy := policy s; optimizer := optimizer s; buffer := buffer s;
     searcher_policy := searcher_policy s; base_policy := v;
     base_optimizer := base_optimizer s; lr := lr s;
     model_dir := model_dir s; verbose := verbose s;
     meta_policy := meta_policy s; meta_optimizer := meta_optimizer s;
     task_policies := task_policies s;
     task_optimizers := task_optimizers s;
     target_steps := target_steps s;
     infer_with_single_task_policy_id := infer_with_single_task_policy_id s;
     heap := heap s; disk := disk s; calls := calls s |}.

Definition set_base_optimizer (v : Optimizer) (s : Solver) : Solver :=
  {| policy := policy s; optimizer := optimizer s; buffer := buffer s;
     searcher_policy := searcher_policy s; base_policy := base_policy s;
     base_optimizer := v; lr := lr s; model_dir := model_dir s;
     verbose := verbose s; meta_policy := meta_policy s;
     meta_optimizer := meta_optimizer s;
     task_policies := task_policies s;
     task_optimizers := task_optimizers s;
     target_steps := target_steps s;
     infer_with_single_task_policy_id := infer_with_single_task_policy_id s;
     heap := heap s; disk := disk s; calls := calls s |}.

Definition set_meta_policy (v : Policy) (s : Solver) : Solver :=
  {| policy := policy s; optimizer := optimizer s; buffer := buffer s;
     searcher_policy := searcher_policy s; base_policy := base_policy s;
     base_optimizer := base_optimizer s; lr := lr s;
     model_dir := model_dir s; verbose := verbose s; meta_policy := v;
     meta_optimizer := meta_optimizer s;
     task_policies := task_policies s;
     task_optimizers := task_optimizers s;
     target_steps := target_steps s;
     infer_with_single_task_policy_id := infer_with_single_task_policy_id s;
     heap := heap s; disk := disk s; calls := calls s |}.

Definition set_meta_optimizer (v : Optimizer) (s : Solver) : Solver :=
  {| policy := policy s; optimizer := optimizer s; buffer := buffer s;
     searcher_policy := searcher_policy s; base_policy := base_policy s;
     base_optimizer := base_optimizer s; lr := lr s;
     model_dir := model_dir s; verbose := verbose s;
     meta_policy := meta_policy s; meta_optimizer := v;
     task_policies := task_policies s;
     task_optimizers := task_optimizers s;
     target_steps := target_steps s;
     infer_with_single_task_policy_id := infer_with_single_task_policy_id s;
     heap := heap s; disk := disk s; calls := calls s |}.

Definition set_task_policies (v : list (Z * Policy)) (s : Solver) : Solver :=
  {| policy := policy s; optimizer := optimizer s; buffer := buffer s;
     searcher_policy := searcher_policy s; base_policy := base_policy s;
     base_optimizer := base_optimizer s; lr := lr s;
     model_dir := model_dir s; verbose := verbose s;
     meta_policy := meta_policy s; meta_optimizer := meta_optimizer s;
     task_policies := v; task_optimizers := task_optimizers s;
     target_steps := target_steps s;
     infer_with_single_task_policy_id := infer_with_single_task_policy_id s;
     heap := heap s; disk := disk s; calls := calls s |}.

Definition set_task_optimizers (v : list (Z * Optimizer)) (s : Solver) : Solver :=
  {| policy := policy s; optimizer := optimizer s; buffer := buffer s;
     searcher_policy := searcher_policy s; base_policy := base_policy s;
     base_optimizer := base_optimizer s; lr := lr s;
     model_dir := model_dir s; verbose := verbose s;
     meta_policy := meta_policy s; meta_optimizer := meta_optimizer s;
     task_policies := task_policies s; task_optimizers := v;
     target_steps := target_steps s;
     infer_with_single_task_policy_id := infer_with_single_task_policy_id s;
     heap := heap s; disk := disk s; calls := calls s |}.

Definition set_heap (v : list RolloutBuffer) (s : Solver) : Solver :=
  {| policy := policy s; optimizer := optimizer s; buffer := buffer s;
     searcher_policy := searcher_policy s; base_policy := base_policy s;
     base_optimizer := base_optimizer s; lr := lr s;
     model_dir := model_dir s; verbose := verbose s;
     meta_policy := meta_policy s; meta_optimizer := meta_optimizer s;
     task_policies := task_policies s;
     task_optimizers := task_optimizers s;
     target_steps := target_steps s;
     infer_with_single_task_policy_id := infer_with_single_task_policy_id s;
     heap := v; disk := disk s; calls := calls s |}.

Definition set_disk (v : gmap string File) (s : Solver) : Solver :=
  {| policy := policy s; optimizer := optimizer s; buffer := buffer s;
     searcher_policy := searcher_policy s; base_policy := base_policy s;
     base_optimizer := base_optimizer s; lr := lr s;
     model_dir := model_dir s; verbose := verbose s;
     meta_policy := meta_policy s; meta_optimizer := meta_optimizer s;
     task_policies := task_policies s;
     task_optimizers := task_optimizers s;
     target_steps := target_steps s;
     infer_with_single_task_policy_id := infer_with_single_task_policy_id s;
     heap := heap s; disk := v; calls := calls s |}.

Definition set_calls (v : list Event) (s : Solver) : Solver :=
  {| policy := policy s; optimizer := optimizer s; buffer := buffer s;
     searcher_policy := searcher_policy s; base_policy := base_policy s;
     base_optimizer := base_optimizer s; lr := lr s;
     model_dir := model_dir s; verbose := verbose s;
     meta_policy := meta_policy s; meta_optimizer := meta_optimizer s;
     task_policies := task_policies s;
     task_optimizers := task_optimizers s;
     target_steps := target_steps s;
     infer_with_single_task_policy_id := infer_with_single_task_policy_id s;
     heap := heap s; disk := disk s; calls := v |}.
End state.

(** ** Methods: state and exceptions

    A method takes the world and returns its outcome together with the
    world as the call leaves it; what was mutated before an exception was
    raised stays mutated. *)
Section methods.
Context `{LibOps}.

Definition M (A : Type) : Type := Solver → Res A * Solver.

Global Instance M_ret : MRet M := λ A a s, (Ok a, s).

Global Instance M_bind : MBind M := λ A B k m s,
  match m s with
  | (Ok a, s') => k a s'
  | (Raise e, s') => (Raise e, s')
  end.

Definition raise {A} (e : Exn) : M A := λ s, (Raise e, s).

Definition lift {A} (r : Res A) : M A := λ s, (r, s).

Definition gets {A} (f : Solver → A) : M A := λ s, (Ok (f s), s).

Definition modify (f : Solver → Solver) : M unit := λ s, (Ok tt, f s).

(** [try: body except Exception as e: handler(e)] *)
Definition try_except {A} (body : M A) (handler : Exn → M A) : M A := λ s,
  match body s with
  | (Ok a, s') => (Ok a, s')
  | (Raise e, s') => handler e s'
  end.

(** Raise what an in-place library operation reported, if anything. *)
Definition reraise (r : option Exn) : M unit :=
  match r with
  | Some e => raise e
  | None => mret tt
  end.

Fixpoint for_ {A} (l : list A) (body : A → M unit) : M unit :=
  match l with
  | [] => mret tt
  | x :: r => _ ← body x; for_ r body
  end.

(** A computation that leaves the component [f] of the world as it was,
    whether it returns or raises. *)
Definition preserves {A X} (f : Solver → X) (m : M A) : Prop :=
  ∀ s, f (m s).2 = f s.
End methods.

(** ** The class [A3CGcnMultiPoliciesSolver] *)
Section solver.
Context `{LibOps}.

(** The object that a reference stands for. *)
Definition deref_policy (r : PolicyRef) : M Policy :=
  match r with
  | BasePolicy => gets base_policy
  | MetaPolicy => gets meta_policy
  | TaskPolicy k => tp ← gets task_policies; lift (dict_item k tp)
  end.

Definition deref_optimizer (r : OptimizerRef) : M Optimizer :=
  match r with
  | BaseOptimizer => gets base_optimizer
  | MetaOptimizer => gets meta_optimizer
  | TaskOptimizer k => tp ← gets task_optimizers; lift (dict_item k tp)
  end.

(** In-place mutation of the object behind a reference. *)
Definition store_policy (r : PolicyRef) (p : Policy) : M unit :=
  match r with
  | BasePolicy => modify (set_base_policy p)
  | MetaPolicy => modify (set_meta_policy p)
  | TaskPolicy k =>
      modify (λ s, set_task_policies (dict_set k p (task_policies s)) s)
  end.

Definition store_optimizer (r : OptimizerRef) (o : Optimizer) : M unit :=
  match r with
  | BaseOptimizer => modify (set_base_optimizer o)
  | MetaOptimizer => modify (set_meta_optimizer o)
  | TaskOptimizer k =>
      modify (λ s, set_task_optimizers (dict_set k o (task_optimizers s)) s)
  end.

(** Rollout buffers are objects: reading, mutating and creating one. *)
Definition read_buffer (l : nat) : M RolloutBuffer :=
  h ← gets heap;
  match h !! l with
  | Some b => mret b
  | None => raise (mkExn RuntimeError "dangling buffer")
  end.

Definition write_buffer (l : nat) (b : RolloutBuffer) : M unit :=
  modify (λ s, set_heap (<[l := b]> (heap s)) s).

Definition new_buffer (b : RolloutBuffer) : M nat :=
  h ← gets heap;
  _ ← modify (set_heap (h ++ [b]));
  mret (length h).

Definition record (e : Event) : M unit :=
  modify (λ s, set_calls (calls s ++ [e]) s).

(** [super().update()]: the generic update runs on the active policy,
    optimizer and buffer and mutates the three of them in place. *)
Definition super_update : M unit :=
  pr ← gets policy;
  or ← gets optimizer;
  l ← gets buffer;
  p ← deref_policy pr;
  o ← deref_optimizer or;
  b ← read_buffer l;
  let '(p', o', b', r) := generic_update p o b in
  _ ← record (EvUpdate pr or b r);
  _ ← store_policy pr p';
  _ ← store_optimizer or o';
  _ ← write_buffer l b';
  reraise r.

(** [super().solve(instance)]: inference with [self.searcher.policy]. *)
Definition super_solve (instance : Instance) : M Solution :=
  pr ← gets searcher_policy;
  p ← deref_policy pr;
  _ ← record (EvSolve pr instance);
  lift (generic_solve p instance).

(** [__init__], after the two inherited initializers have run: they leave
    the policy and optimizer built by [make_policy] active, an empty
    rollout buffer, and a searcher that uses the active policy. *)
Definition __init__ (base : Inherited) (kwargs : gmap string Z) : Solver :=
  let meta_policy := i_policy base in            (* copy.deepcopy *)
  {| policy := BasePolicy; optimizer := BaseOptimizer;
     buffer := 0%nat; searcher_policy := BasePolicy;
     base_policy := i_policy base; base_optimizer := i_optimizer base;
     lr := i_lr base; model_dir := i_model_dir base;
     verbose := i_verbose base;
     meta_policy := meta_policy;
     meta_optimizer := Adam meta_policy (i_lr base);
     task_policies := []; task_optimizers := [];
     target_steps := 1024;
     infer_with_single_task_policy_id :=
       default 0 (kwargs !! "infer_with_single_task_policy_id"%string);
     heap := [RolloutBuffer_new]; disk := i_disk base; calls := [] |}.

Definition solve (instance : Instance) : M Solution :=
  let v_net_size := num_nodes (v_net instance) in
  single ← gets infer_with_single_task_policy_id;
  if decide (single ≠ 0) then
    tp ← gets task_policies;
    _ ← lift (dict_item single tp);
    _ ← modify (set_searcher_policy (TaskPolicy single));
    super_solve instance
  else
    tp ← gets task_policies;
    _ ← (if negb (dict_mem v_net_size tp) then
           modify (set_searcher_policy MetaPolicy)
         else
           _ ← lift (dict_item v_net_size tp);
           modify (set_searcher_policy (TaskPolicy v_net_size)));
    super_solve instance.

(** [os.path.join(a, b)] on POSIX paths. *)
Definition os_path_join (a b : string) : string :=
  if String.prefix "/" b then b
  else if bool_decide (a = "") then b
  else if bool_decide (String.substring (String.length a - 1) 1 a = "/")
       then a +:+ b
       else a +:+ "/" +:+ b.

(** [torch.save] and [torch.load] on the modelled file system. *)
Definition torch_save (c : Checkpoint) (path : string) : M unit :=
  modify (λ s, set_disk (<[path := Archive c]> (disk s)) s).

Definition torch_load (path : string) : M Checkpoint :=
  d ← gets disk;
  match d !! path with
  | Some (Archive c) => mret c
  | Some Corrupt => raise (mkExn UnpicklingError "invalid load key")
  | None => raise (mkExn FileNotFoundError path)
  end.

(** [d[key]] on a checkpoint dictionary. *)
Definition ck_item {A} (key : string) (o : option A) : Res A :=
  match o with
  | Some a => Ok a
  | None => Raise (mkExn KeyError key)
  end.

Definition save_model (checkpoint_fname : string) : M unit :=
  dir ← gets model_dir;
  let checkpoint_fname := os_path_join dir checkpoint_fname in
  tp ← gets task_policies;
  to ← gets task_optimizers;
  model_list ← lift (for_each (λ task_id,
                  p ← dict_item task_id tp;
                  o ← dict_item task_id to;
                  Ok (task_id, p, o)) (dict_keys tp));
  mp ← gets meta_policy;
  mo ← gets meta_optimizer;
  let meta := mkCkEntry (Some (state_dict mp)) (Some (opt_state_dict mo)) in
  let tasks :=
    foldl (λ d '(task_id, p, o),
             dict_set task_id
               (mkCkEntry (Some (state_dict p)) (Some (opt_state_dict o))) d)
          [] model_list in
  torch_save (mkCheckpoint (Some meta) (Some tasks)) checkpoint_fname.

(** [_init_task_policy_and_task_optimizer]; [load_model] and
    [_fine_tuning_update] write the same two assignments out. *)
Definition _init_task_policy_and_task_optimizer (task_id : Z) : M unit :=
  mp ← gets meta_policy;                           (* copy.deepcopy *)
  _ ← store_policy (TaskPolicy task_id) mp;
  p ← deref_policy (TaskPolicy task_id);
  rate ← gets lr;
  store_optimizer (TaskOptimizer task_id) (Adam p rate).

(** [if task_id not in self.task_policies:] create the pair. *)
Definition ensure_task_policy (task_id : Z) : M unit :=
  tp ← gets task_policies;
  if dict_mem task_id tp then mret tt
  else _init_task_policy_and_task_optimizer task_id.

(** [self.<policy>.load_state_dict(sd)] behind a reference. *)
Definition policy_load_state_dict (r : PolicyRef) (sd : Res StateDict) : M unit :=
  p ← deref_policy r;
  sd ← lift sd;
  let '(p', e) := load_state_dict p sd in
  _ ← store_policy r p';
  reraise e.

Definition optimizer_load_state_dict (r : OptimizerRef) (sd : Res OptState) : M unit :=
  o ← deref_optimizer r;
  sd ← lift sd;
  let '(o', e) := opt_load_state_dict o sd in
  _ ← store_optimizer r o';
  reraise e.

(** One iteration of the loop of [load_model] over the task ids of the
    archive. *)
Definition load_task (tasks : list (Z * CkEntry)) (task_id : Z) : M unit :=
  _ ← ensure_task_policy task_id;
  _ ← policy_load_state_dict (TaskPolicy task_id)
        (e ← dict_item task_id tasks; ck_item "policy" (ck_policy e));
  optimizer_load_state_dict (TaskOptimizer task_id)
    (e ← dict_item task_id tasks; ck_item "optimizer" (ck_optimizer e)).

(** The body of the [try] block of [load_model]. *)
Definition load_model_body (checkpoint_path : string) : M unit :=
  checkpoint ← torch_load checkpoint_path;
  _ ← policy_load_state_dict MetaPolicy
        (e ← ck_item "meta_policy" (ck_meta_policy checkpoint);
         ck_item "policy" (ck_policy e));
  _ ← optimizer_load_state_dict MetaOptimizer
        (e ← ck_item "meta_policy" (ck_meta_policy checkpoint);
         ck_item "optimizer" (ck_optimizer e));
  tasks ← lift (ck_item "task_policies" (ck_task_policies checkpoint));
  for_ (dict_keys tasks) (load_task tasks).

Definition load_model (checkpoint_path : string) : M unit :=
  try_except (load_model_body checkpoint_path) (λ e, mret tt).

(** [self._split_buffer(self.buffer)]: the sub-buffers are new objects. *)
Definition split_buffer_at (l : nat) : M (list (Z * nat)) :=
  b ← read_buffer l;
  task_buffers ← lift (_split_buffer b);
  foldr (λ '(k, tb) rest,
           loc ← new_buffer tb; locs ← rest; mret ((k, loc) :: locs))
        (mret []) task_buffers.

(** One iteration of the inner loop of [_fine_tuning_update]. *)
Definition fine_tune_task (task_buffers : list (Z * nat)) (task_id : Z) : M unit :=
  tp ← gets task_policies;
  _ ← lift (dict_item task_id tp);
  _ ← modify (set_policy (TaskPolicy task_id));
  to ← gets task_optimizers;
  _ ← lift (dict_item task_id to);
  _ ← modify (set_optimizer (TaskOptimizer task_id));
  loc ← lift (dict_item task_id task_buffers);
  _ ← modify (set_buffer loc);
  super_update.

Definition _fine_tuning_update : M unit :=
  meta_buffer ← gets buffer;
  b ← read_buffer meta_buffer;
  task_dist ← lift (_stats_task_dist b);
  _ ← for_ (dict_keys task_dist) ensure_task_policy;
  task_buffers ← split_buffer_at meta_buffer;
  _ ← for_ (dict_keys task_buffers) (fine_tune_task task_buffers);
  b ← read_buffer meta_buffer;
  write_buffer meta_buffer (RolloutBuffer_clear b).

Definition update : M unit := _fine_tuning_update.
End solver.

(** ** [obs_as_tensor]

    The source defines the function twice with the same body; the second
    definition is the one in force. *)
Section obs_as_tensor.
Context `{LibOps}.

(** [type(obs)] as an f-string prints it. *)
Definition type_name (o : PyObj) : string :=
  match o with
  | ODict _ => "dict"
  | OList _ => "list"
  | OTuple _ => "tuple"
  | ONone => "NoneType"
  | OStr _ => "str"
  | OVal (VInt _) => "int"
  | OVal (VArr _) => "numpy.ndarray"
  end.

Definition type_repr (o : PyObj) : string :=
  "<class '" +:+ type_name o +:+ "'>".

(** [obs[key]] on a dictionary. *)
Definition obs_item (obs : Observation) (key : string) : Res Val :=
  match obs !! key with
  | Some v => Ok v
  | None => Raise (mkExn KeyError ("'" +:+ key +:+ "'"))
  end.

(** [observation[key]] on an element of a list, which may be anything. *)
Definition subscript (o : PyObj) (key : string) : Res Val :=
  match o with
  | ODict d => obs_item d key
  | OVal (VArr _) =>
      Raise (mkExn IndexError "only integers and slices are valid indices")
  | OList _ | OTuple _ | OStr _ =>
      Raise (mkExn TypeError "indices must be integers or slices, not str")
  | ONone | OVal (VInt _) =>
      Raise (mkExn TypeError "object is not subscriptable")
  end.

(** The five lists that the batch branch accumulates. *)
Record BatchLists := mkBatchLists {
  p_net_data_list : list Data;
  v_net_x_list : list Val;
  v_net_size_list_ : list Val;
  curr_v_node_id_list : list Val;
  action_mask_list : list Val;
}.

Fixpoint batch_loop (obs : list PyObj) (acc : BatchLists) : Res BatchLists :=
  match obs with
  | [] => Ok acc
  | observation :: rest =>
      p_net_x ← subscript observation "p_net_x";
      p_net_edge_index ← subscript observation "p_net_edge_index";
      let p_net_data := get_pyg_data p_net_x p_net_edge_index in
      let l1 := p_net_data_list acc ++ [p_net_data] in
      v_net_x ← subscript observation "v_net_x";
      let l2 := v_net_x_list acc ++ [v_net_x] in
      v_net_size ← subscript observation "v_net_size";
      let l3 := v_net_size_list_ acc ++ [v_net_size] in
      curr_v_node_id ← subscript observation "curr_v_node_id";
      let l4 := curr_v_node_id_list acc ++ [curr_v_node_id] in
      action_mask ← subscript observation "action_mask";
      let l5 := action_mask_list acc ++ [action_mask] in
      batch_loop rest (mkBatchLists l1 l2 l3 l4 l5)
  end.

Definition obs_as_tensor (obs : PyObj) (device : Device)
    : Res (list (string * TensorObs)) :=
  match obs with
  | ODict obs =>
      p_net_x ← obs_item obs "p_net_x";
      p_net_edge_index ← obs_item obs "p_net_edge_index";
      let tensor_obs_p_net := get_pyg_data p_net_x p_net_edge_index in
      let tensor_obs_p_net :=
        batch_to (Batch_from_data_list [tensor_obs_p_net]) device in
      v_net_x ← obs_item obs "v_net_x";
      let tensor_obs_v_net_x :=
        tensor_to (FloatTensor (np_array [v_net_x])) device in
      curr_v_node_id ← obs_item obs "curr_v_node_id";
      let tensor_obs_curr_v_node_id :=
        tensor_to (LongTensor (np_array [curr_v_node_id])) device in
      action_mask ← obs_item obs "action_mask";
      let tensor_obs_action_mask :=
        tensor_to (FloatTensor (np_array [action_mask])) device in
      v_net_size ← obs_item obs "v_net_size";
      let tensor_obs_v_net_size :=
        tensor_to (FloatTensor (np_array [v_net_size])) device in
      Ok [("p_net", TGraph tensor_obs_p_net);
          ("v_net_x", TTensor tensor_obs_v_net_x);
          ("curr_v_node_id", TTensor tensor_obs_curr_v_node_id);
          ("action_mask", TTensor tensor_obs_action_mask);
          ("v_net_size", TTensor tensor_obs_v_net_size)]
  | OList obs =>
      acc ← batch_loop obs (mkBatchLists [] [] [] [] []);
      let tensor_obs_p_net :=
        batch_to (Batch_from_data_list (p_net_data_list acc)) device in
      let tensor_obs_v_net_x :=
        tensor_to (FloatTensor (np_array (v_net_x_list acc))) device in
      let tensor_obs_v_net_size :=
        tensor_to (FloatTensor (np_array (v_net_size_list_ acc))) device in
      let tensor_obs_curr_v_node_id :=
        tensor_to (LongTensor (np_array (curr_v_node_id_list acc))) device in
      let tensor_obs_action_mask :=
        tensor_to (FloatTensor (np_array (action_mask_list acc))) device in
      Ok [("p_net", TGraph tensor_obs_p_net);
          ("v_net_x", TTensor tensor_obs_v_net_x);
          ("v_net_size", TTensor tensor_obs_v_net_size);
          ("curr_v_node_id", TTensor tensor_obs_curr_v_node_id);
          ("action_mask", TTensor tensor_obs_action_mask)]
  | _ =>
      Raise (mkExn Exception
               ("Unrecognized type of observation " +:+ type_repr obs))
  end.

(** A single observation with every field that the batcher reads. *)
Definition well_formed (obs : Observation) : Prop :=
  Forall (λ key : string, is_Some (obs !! key))
    ["p_net_x"; "p_net_edge_index"; "v_net_x"; "curr_v_node_id";
     "action_mask"; "v_net_size"]%string.
End obs_as_tensor.

(** ** What the checkpoint claims rely on

    The contract of [load_state_dict] in torch: a state dictionary with the
    keys and shapes of the receiving object (its architecture) is accepted,
    and the object then reports it back; [Adam] builds an optimizer for the
    parameters of the policy it is given. *)
Class TorchLaws `{LibOps} := {
  Arch : Type;
  policy_arch : Policy → Arch;
  optimizer_arch : Optimizer → Arch;
  state_dict_arch : StateDict → Arch;
  opt_state_arch : OptState → Arch;
  state_dict_arch_spec : ∀ p, state_dict_arch (state_dict p) = policy_arch p;
  opt_state_arch_spec :
    ∀ o, opt_state_arch (opt_state_dict o) = optimizer_arch o;
  Adam_arch : ∀ p rate, optimizer_arch (Adam p rate) = policy_arch p;
  load_state_dict_fits : ∀ p sd,
    state_dict_arch sd = policy_arch p →
    ∃ p', load_state_dict p sd = (p', None) ∧ state_dict p' = sd;
  opt_load_state_dict_fits : ∀ o sd,
    opt_state_arch sd = optimizer_arch o →
    ∃ o', opt_load_state_dict o sd = (o', None) ∧ opt_state_dict o' = sd;
}.

Section solver_invariants.
Context `{TorchLaws}.

(** Every policy and optimizer of the solver has the architecture [a]:
    they all descend from deep copies of one policy. *)
Definition uniform (a : Arch) (s : Solver) : Prop :=
  policy_arch (meta_policy s) = a ∧
  optimizer_arch (meta_optimizer s) = a ∧
  Forall (λ kp, policy_arch kp.2 = a) (task_policies s) ∧
  Forall (λ ko, optimizer_arch ko.2 = a) (task_optimizers s).

(** Every task policy has its optimizer: the two are created together. *)
Definition paired (s : Solver) : Prop :=
  ∀ k, k ∈ (task_policies s).*1 → k ∈ (task_optimizers s).*1.
End solver_invariants.

(** ** A small concrete instance

    Arrays, tensors and parameter vectors are lists of integers; a state
    dictionary fits a policy when it has as many parameters. The sample
    objects below exercise the theorems on concrete inputs. *)
Section sample.

Definition sample_types : LibTypes :=
  {| ndarray := list Z; Tensor := list Z; Device := bool;
     Data := list Z * list Z; Batch := list (list Z * list Z);
     Policy := list Z; Optimizer := nat * Z;
     StateDict := list Z; OptState := nat * Z;
     Solution := Z; PyFloat := Z; Network := Z |}.

Local Existing Instance sample_types.

Definition sample_flat (v : Val) : list Z :=
  match v with
  | VInt n => [n]
  | VArr a => a
  end.

Definition sample_load (p sd : list Z) : list Z * option Exn :=
  if decide (length sd = length p) then (sd, None)
  else (p, Some (mkExn RuntimeError "size mismatch")).

Definition sample_opt_load (o sd : nat * Z) : (nat * Z) * option Exn :=
  if decide (sd.1 = o.1) then (sd, None)
  else (o, Some (mkExn ValueError "parameter group mismatch")).

(** A generic update that fails on a buffer whose first action is 0 and
    otherwise moves every parameter, steps the optimizer and empties the
    buffer. *)
Definition sample_update (p : list Z) (o : nat * Z) (b : RolloutBuffer)
    : (list Z * (nat * Z) * RolloutBuffer) * option Exn :=
  match actions b with
  | VInt 0 :: _ => ((p, o, b), Some (mkExn RuntimeError "loss is nan"))
  | _ => (((λ x, x + 1) <$> p, (o.1, o.2 + 1), RolloutBuffer_clear b), None)
  end.

Definition sample_ops : @LibOps sample_types :=
  @Build_LibOps sample_types
    (* num_nodes *) (λ n : Z, n)
    (* np_array *) (λ l, l ≫= sample_flat)
    (* FloatTensor *) (λ a : list Z, a)
    (* LongTensor *) (λ a : list Z, a)
    (* tensor_to *) (λ (t : list Z) (d : bool), t)
    (* Batch_from_data_list *) (λ l : list (list Z * list Z), l)
    (* batch_to *) (λ (b : list (list Z * list Z)) (d : bool), b)
    (* get_pyg_data *) (λ x e, (sample_flat x, sample_flat e))
    (* state_dict *) (λ p : list Z, p)
    (* load_state_dict *) sample_load
    (* opt_state_dict *) (λ o : nat * Z, o)
    (* opt_load_state_dict *) sample_opt_load
    (* Adam *) (λ (p : list Z) (rate : Z), (length p, 0))
    (* generic_update *) sample_update
    (* generic_solve *) (λ (p : list Z) (i : Instance), Ok (foldr Z.add 0 p)).

Local Existing Instance sample_ops.

Definition sample_obs (n : Z) : Observation :=
  list_to_map
    [("p_net_x", VArr [1; 2]); ("p_net_edge_index", VArr [0; 1]);
     ("v_net_x", VArr [7]); ("curr_v_node_id", VInt 0);
     ("action_mask", VArr [1; 0]); ("v_net_size", VInt n)]%string.

(** The buffer of the scenario: task labels 3, 3, 5, 5, 5, 3. *)
Definition sample_buffer : RolloutBuffer :=
  {| observations := sample_obs <$> [3; 3; 5; 5; 5; 3];
     actions := VInt <$> [10; 11; 12; 13; 14; 15];
     logprobs := VInt <$> [20; 21; 22; 23; 24; 25];
     rewards := VInt <$> [30; 31; 32; 33; 34; 35];
     returns := VInt <$> [40; 41; 42; 43; 44; 45];
     action_masks := VArr <$> [[1]; [1]; [0]; [1]; [0]; [1]] |}.

(** The same buffer with a first action that makes the sample generic
    update fail on the sub-buffer of task 3. *)
Definition sample_buffer_nan : RolloutBuffer :=
  {| observations := observations sample_buffer;
     actions := VInt <$> [0; 11; 12; 13; 14; 15];
     logprobs := logprobs sample_buffer;
     rewards := rewards sample_buffer;
     returns := returns sample_buffer;
     action_masks := action_masks sample_buffer |}.

Definition sample_inherited : Inherited :=
  mkInherited [1; 2; 3] (3%nat, 0) 1 "save" 0 ∅.

Definition sample_instance : Instance := mkInstance 4 10.

Definition sample_instance_5 : Instance := mkInstance 5 10.

(** A new solver whose buffer holds the experience of the scenario. *)
Definition sample_solver : Solver :=
  set_heap [sample_buffer] (__init__ sample_inherited ∅).

Definition sample_solver_nan : Solver :=
  set_heap [sample_buffer_nan] (__init__ sample_inherited ∅).

(** A new solver configured to infer with the task policy 5, and one that
    moreover holds a task policy 5. *)
Definition sample_solver_single : Solver :=
  __init__ sample_inherited {["infer_with_single_task_policy_id"%string := 5]}.

Definition sample_solver_single_ready : Solver :=
  (_init_task_policy_and_task_optimizer 5 sample_solver_single).2.

Definition sample_laws : @TorchLaws sample_types sample_ops.
Proof.
  refine (@Build_TorchLaws sample_types sample_ops nat
            (λ p : list Z, length p) (λ o : nat * Z, o.1)
            (λ sd : list Z, length sd) (λ sd : nat * Z, sd.1) _ _ _ _ _).
  - done.
  - done.
  - done.
  - intros p sd Hfit. exists sd. cbn in *. unfold sample_load.
    by rewrite decide_True.
  - intros o sd Hfit. exists sd. cbn in *. unfold sample_opt_load.
    by rewrite decide_True.
Defined.

(** The solver after one update cycle: task policies 3 and 5 exist. *)
Definition sample_solver_trained : Solver :=
  Eval vm_compute in (update sample_solver).2.

(** The trained solver after saving a checkpoint, and a new solver that
    sees the same file system. *)
Definition sample_solver_saved : Solver :=
  Eval vm_compute in (save_model "ck.pt" sample_solver_trained).2.

Definition sample_solver_fresh : Solver :=
  set_disk (disk sample_solver_saved) sample_solver.

(** A new solver next to an archive whose meta-policy entry has the
    parameters but lacks the ['optimizer'] key. *)
Definition sample_solver_bad_archive : Solver :=
  set_disk
    {["bad.pt"%string :=
        Archive (mkCheckpoint (Some (mkCkEntry (Some [9; 9; 9]) None)) None)]}
    sample_solver.

End sample.

(** ** Further definitions *)

Section more_data.
Context `{LibTypes}.

(** What [_split_buffer] needs of the four sequences it indexes with
    positions of observations: each is at least as long as the
    observations. *)
Definition long_enough (b : RolloutBuffer) : Prop :=
  (size b ≤ length (actions b))%nat ∧
  (size b ≤ length (logprobs b))%nat ∧
  (size b ≤ length (rewards b))%nat ∧
  (size b ≤ length (returns b))%nat.
End more_data.

(** ** Learning from one instance *)
Section learning.
Context `{LibOps}.

(** [learn_with_instance]. The inherited method of the same name, which
    rolls out an episode with the active policy and lives outside
    [solver.py], is taken as [super_learn]. *)
Definition learn_with_instance {R} (super_learn : Instance → M R)
    (instance : Instance) : M R :=
  let v_net_size := num_nodes (v_net instance) in
  let task_id := v_net_size in
  tp ← gets task_policies;
  _ ← (if negb (dict_mem task_id tp)
       then _init_task_policy_and_task_optimizer task_id
       else mret tt);
  tp ← gets task_policies;
  _ ← lift (dict_item v_net_size tp);
  _ ← modify (set_policy (TaskPolicy v_net_size));
  to ← gets task_optimizers;
  _ ← lift (dict_item v_net_size to);
  _ ← modify (set_optimizer (TaskOptimizer v_net_size));
  super_learn instance.

(** A computation that, started where [I] holds, ends where [I] holds,
    whether it returns or raises. *)
Definition keeps {A} (I : Solver → Prop) (m : M A) : Prop :=
  ∀ s, I s → I (m s).2.
End learning.

(** ** Further sample objects *)
Section sample_more.
Local Existing Instance sample_types.
Local Existing Instance sample_ops.

(** Two steps, the second of which lost its task label. *)
Definition sample_buffer_unlabelled : RolloutBuffer :=
  {| observations := [sample_obs 3; delete "v_net_size"%string (sample_obs 3)];
     actions := VInt <$> [10; 11];
     logprobs := VInt <$> [20; 21];
     rewards := VInt <$> [30; 31];
     returns := VInt <$> [40; 41];
     action_masks := [] |}.

(** The buffer of the scenario with one reward missing. *)
Definition sample_buffer_short : RolloutBuffer :=
  {| observations := observations sample_buffer;
     actions := actions sample_buffer;
     logprobs := logprobs sample_buffer;
     rewards := VInt <$> [30; 31; 32; 33; 34];
     returns := returns sample_buffer;
     action_masks := action_masks sample_buffer |}.

(** Three steps of task 5. *)
Definition sample_buffer_task5 : RolloutBuffer :=
  {| observations := sample_obs <$> [5; 5; 5];
     actions := VInt <$> [12; 13; 14];
     logprobs := VInt <$> [22; 23; 24];
     rewards := VInt <$> [32; 33; 34];
     returns := VInt <$> [42; 43; 44];
     action_masks := VArr <$> [[0]; [1]; [0]] |}.

(** A solver that holds a policy for task 5 without its optimizer. *)
Definition sample_solver_unpaired : Solver :=
  set_task_policies [(5, [4; 4; 4])] sample_solver.

(** New solvers whose buffer holds the experience with a lost label, and
    the experience with a reward missing. *)
Definition sample_solver_unlabelled : Solver :=
  set_heap [sample_buffer_unlabelled] (__init__ sample_inherited ∅).

Definition sample_solver_short : Solver :=
  set_heap [sample_buffer_short] (__init__ sample_inherited ∅).

(** A new solver, before any experience. *)
Definition sample_solver_new : Solver := __init__ sample_inherited ∅.

End sample_more.

(** * Properties *)

(** ** Fallible comprehensions and dictionaries *)
Section basics.
Context {A B : Type}.

Lemma res_bind_Ok (a : A) (k : A → Res B) : (Ok a ≫= k) = k a.
Proof. done. Qed.

Lemma res_bind_Raise (e : Exn) (k : A → Res B) : (Raise e ≫= k) = Raise e.
Proof. done. Qed.

Lemma for_each_cons (f : A → Res B) (x : A) (l : list A) :
  for_each f (x :: l) = y ← f x; ys ← for_each f l; Ok (y :: ys).
Proof. done. Qed.

Lemma for_each_ext (f g : A → Res B) (l : list A) :
  (∀ x, x ∈ l → f x = g x) → for_each f l = for_each g l.
Proof.
  induction l as [|x l IH]; intros Hfg; simpl; [done|].
  rewrite (Hfg x) by left. rewrite IH; [done|].
  intros y Hy. apply Hfg. by right.
Qed.

Lemma for_each_Ok (f : A → Res B) (g : A → B) (l : list A) :
  (∀ x, x ∈ l → f x = Ok (g x)) → for_each f l = Ok (g <$> l).
Proof.
  induction l as [|x l IH]; intros Hfg; simpl; [done|].
  rewrite (Hfg x) by left. simpl. rewrite IH; [done|].
  intros y Hy. apply Hfg. by right.
Qed.

End basics.

Section dict_facts.
Context {B : Type}.

Lemma dict_get_None (k : Z) (d : list (Z * B)) :
  dict_get k d = None ↔ k ∉ d.*1.
Proof.
  induction d as [|[k' v] d IH]; simpl.
  - split; [intros _; apply not_elem_of_nil | done].
  - rewrite not_elem_of_cons. case_decide as Hk.
    + split; [done | intros [Hne _]; by destruct Hne].
    + rewrite IH. split; [intros Hn; split; [by intros -> | done] | by intros [_ ?]].
Qed.

Lemma dict_mem_true (k : Z) (d : list (Z * B)) :
  dict_mem k d = true ↔ k ∈ d.*1.
Proof.
  unfold dict_mem. rewrite bool_decide_eq_true.
  destruct (dict_get k d) eqn:E.
  - split; [intros _ | by eauto].
    destruct (decide (k ∈ d.*1)) as [|Hn]; [done|].
    apply dict_get_None in Hn. congruence.
  - split; [by intros [? ?] | intros Hin]. by apply dict_get_None in E.
Qed.

Lemma dict_mem_false (k : Z) (d : list (Z * B)) :
  dict_mem k d = false ↔ k ∉ d.*1.
Proof.
  rewrite <- dict_mem_true. destruct (dict_mem k d); naive_solver.
Qed.

Lemma dict_set_fresh (k : Z) (v : B) (d : list (Z * B)) :
  k ∉ d.*1 → dict_set k v d = d ++ [(k, v)].
Proof.
  induction d as [|[k' v'] d IH]; simpl; [done|].
  rewrite not_elem_of_cons. intros [Hne Hnin].
  case_decide; [congruence|]. by rewrite IH.
Qed.

Lemma dict_get_set_eq (k : Z) (v : B) (d : list (Z * B)) :
  dict_get k (dict_set k v d) = Some v.
Proof.
  induction d as [|[k' v'] d IH]; simpl.
  - by rewrite decide_True.
  - case_decide; simpl; [by rewrite decide_True | by rewrite decide_False].
Qed.

Lemma dict_get_set_ne (k k' : Z) (v : B) (d : list (Z * B)) :
  k ≠ k' → dict_get k' (dict_set k v d) = dict_get k' d.
Proof.
  intros Hne. induction d as [|[k0 v0] d IH]; simpl.
  - by rewrite decide_False.
  - case_decide; simpl.
    + subst. by rewrite !decide_False.
    + case_decide; [done | apply IH].
Qed.

Lemma dict_keys_set (k : Z) (v : B) (d : list (Z * B)) :
  (dict_set k v d).*1 = if dict_mem k d then d.*1 else d.*1 ++ [k].
Proof.
  destruct (dict_mem k d) eqn:E.
  - apply dict_mem_true in E. induction d as [|[k0 v0] d IH]; simpl.
    + by apply elem_of_nil in E.
    + simpl in E. case_decide as Hk; simpl; [by subst|]. f_equal. apply IH.
      apply elem_of_cons in E as [E|E]; [by destruct Hk | done].
  - apply dict_mem_false in E. by rewrite dict_set_fresh, fmap_app.
Qed.

Lemma dict_item_cons_eq (k : Z) (v : B) (d : list (Z * B)) :
  dict_item k ((k, v) :: d) = Ok v.
Proof. unfold dict_item. simpl. by rewrite decide_True. Qed.

Lemma dict_item_cons_ne (k k' : Z) (v : B) (d : list (Z * B)) :
  k' ≠ k → dict_item k ((k', v) :: d) = dict_item k d.
Proof. intros Hne. unfold dict_item. simpl. by rewrite decide_False. Qed.

Lemma dict_item_Ok (k : Z) (d : list (Z * B)) :
  k ∈ d.*1 → ∃ v, dict_item k d = Ok v ∧ dict_get k d = Some v.
Proof.
  intros Hin. unfold dict_item. destruct (dict_get k d) as [v|] eqn:E; [by eauto|].
  by apply dict_get_None in E.
Qed.

Lemma dict_items_keys (d : list (Z * B)) :
  NoDup d.*1 →
  for_each (λ k, v ← dict_item k d; Ok (k, v)) d.*1 = Ok d.
Proof.
  induction d as [|[k v] d IH]; [done|].
  rewrite fmap_cons, NoDup_cons. cbn [fst]. intros [Hk Hnd].
  change (for_each ?f (?x :: ?l)) with (y ← f x; ys ← for_each f l; Ok (y :: ys)).
  cbn beta. rewrite dict_item_cons_eq.
  rewrite (for_each_ext _ (λ k, v ← dict_item k d; Ok (k, v))).
  - by rewrite IH.
  - intros k' Hk'. rewrite dict_item_cons_ne; [done | by intros ->].
Qed.
End dict_facts.

(** ** Sorting, selecting and partitioning *)
Section list_facts.
Context {A : Type}.

Lemma StronglySorted_filter (R : relation A) (P : A → Prop)
    `{∀ x, Decision (P x)} (l : list A) :
  StronglySorted R l → StronglySorted R (filter P l).
Proof.
  induction 1 as [|x l Hl IH Hx]; [constructor|].
  rewrite filter_cons. case_decide; [|done].
  constructor; [done|]. rewrite Forall_forall in Hx |- *.
  intros y Hy. apply Hx. by apply list_elem_of_filter in Hy as [_ ?].
Qed.

(** Classes that exclude one another and cover [l] split it up. *)
Lemma concat_filter_classes (P : Z → A → Prop) `{∀ k x, Decision (P k x)}
    (ks : list Z) (l : list A) :
  NoDup ks →
  (∀ x k1 k2, P k1 x → P k2 x → k1 = k2) →
  (∀ x, x ∈ l → ∃ k, k ∈ ks ∧ P k x) →
  concat ((λ k, filter (P k) l) <$> ks) ≡ₚ l.
Proof.
  intros Hnd Hfun. revert l. induction Hnd as [|k ks Hk Hnd IH]; intros l Hcov.
  - destruct l as [|x l]; [done|].
    destruct (Hcov x) as (k & Hin & _); [by left|]. by apply elem_of_nil in Hin.
  - rewrite fmap_cons. cbn [concat].
    transitivity (filter (P k) l ++ filter (λ x, ¬ P k x) l);
      [|apply filter_app_complement].
    apply Permutation_app_head.
    rewrite <- (IH (filter (λ x, ¬ P k x) l)).
    + apply reflexive_eq. f_equal. apply list_fmap_ext.
      intros i k' Hk'. rewrite list_filter_filter.
      apply list_filter_iff. intros x. split; [|by intros [? _]].
      intros HP. split; [done|]. intros HPk.
      assert (k' = k) as -> by eauto.
      apply Hk. by eapply list_elem_of_lookup_2.
    + intros x [Hx Hxl]%list_elem_of_filter.
      destruct (Hcov x Hxl) as (k' & Hin & HP).
      exists k'. split; [|done].
      apply elem_of_cons in Hin as [->|?]; [by destruct Hx | done].
Qed.

Lemma length_concat_fmap {B} (f : B → list A) (l : list B) :
  length (concat (f <$> l)) = sum_list ((λ x, length (f x)) <$> l).
Proof.
  induction l as [|x l IH]; [done|].
  rewrite !fmap_cons. cbn [concat sum_list sum_list_with].
  by rewrite length_app, IH.
Qed.
End list_facts.

Section order_facts.

Lemma StronglySorted_seq (j n : nat) : StronglySorted Nat.lt (seq j n).
Proof.
  revert j. induction n as [|n IH]; intros j; simpl; constructor; [done|].
  apply Forall_seq. intros i Hi. unfold Nat.lt. lia.
Qed.

Lemma Sorted_le_NoDup_lt (l : list Z) :
  Sorted Z.le l → NoDup l → StronglySorted Z.lt l.
Proof.
  intros Hs%Sorted_StronglySorted; [|apply _].
  induction Hs as [|x l Hl IH Hx]; intros Hnd; [constructor|].
  apply NoDup_cons in Hnd as [Hnin Hnd]. constructor; [by apply IH|].
  rewrite Forall_forall in Hx |- *. intros y Hy.
  specialize (Hx y Hy). assert (x ≠ y) by (by intros ->). lia.
Qed.

Lemma StronglySorted_lt_NoDup (l : list Z) : StronglySorted Z.lt l → NoDup l.
Proof.
  induction 1 as [|x l Hl IH Hx]; [constructor|].
  apply NoDup_cons. split; [|done].
  intros Hin. rewrite Forall_forall in Hx. specialize (Hx x Hin). lia.
Qed.

Lemma StronglySorted_lt_le (l : list Z) :
  StronglySorted Z.lt l → StronglySorted Z.le l.
Proof.
  induction 1 as [|x l Hl IH Hx]; constructor; [done|].
  eapply Forall_impl; [done|]. intros; simpl in *; lia.
Qed.

Lemma sorted_id (l : list Z) : StronglySorted Z.lt l → sorted l = l.
Proof.
  intros Hl. unfold sorted. apply (Sorted_unique Z.le).
  - apply Sorted_merge_sort. apply _.
  - by apply StronglySorted_Sorted, StronglySorted_lt_le.
  - apply merge_sort_Permutation.
Qed.

Lemma sorted_py_set (l : list Z) :
  StronglySorted Z.lt (sorted (py_set l)) ∧ ∀ k, k ∈ sorted (py_set l) ↔ k ∈ l.
Proof.
  unfold sorted, py_set. split.
  - apply Sorted_le_NoDup_lt; [apply Sorted_merge_sort, _|].
    rewrite merge_sort_Permutation. apply NoDup_remove_dups.
  - intros k. by rewrite merge_sort_Permutation, elem_of_remove_dups.
Qed.
End order_facts.

(** ** The buffer partitioner *)
Section split_facts.
Context `{LibTypes}.

Lemma index_Some {A} (l : list A) (i : nat) (x : A) :
  l !! i = Some x → index l i = Ok x.
Proof. intros Hx. unfold index. by rewrite Hx. Qed.

Lemma v_net_size_of_Ok (obs : Observation) (n : Z) :
  obs !! "v_net_size"%string = Some (VInt n) → v_net_size_of obs = Ok n.
Proof. intros Hn. unfold v_net_size_of. by rewrite Hn. Qed.

Lemma take_indices_Ok {A} (l : list A) (idx : list nat) :
  Forall (λ i, (i < length l)%nat) idx →
  ∃ ys, take_indices l idx = Ok ys ∧ Some <$> ys = (λ i, l !! i) <$> idx.
Proof.
  unfold take_indices. induction 1 as [|i idx Hi _ (ys & Hys & Hsel)].
  - by exists [].
  - destruct (lookup_lt_is_Some_2 l i Hi) as [x Hx].
    exists (x :: ys). split.
    + by rewrite for_each_cons, (index_Some _ _ _ Hx), res_bind_Ok, Hys.
    + by rewrite !fmap_cons, Hx, Hsel.
Qed.

Lemma v_net_size_list_Ok (b : RolloutBuffer) :
  labelled b →
  ∃ labels, v_net_size_list b = Ok labels ∧
    Forall2 (λ (obs : Observation) n, obs !! "v_net_size"%string = Some (VInt n))
            (observations b) labels.
Proof.
  unfold labelled, v_net_size_list.
  induction 1 as [|obs l (n & Hn) _ (labels & Hl & Hall)].
  - exists []. by split; [|constructor].
  - exists (n :: labels). split; [|by constructor].
    by rewrite for_each_cons, (v_net_size_of_Ok _ _ Hn), res_bind_Ok, Hl.
Qed.

Lemma elem_of_np_where_eq (labels : list Z) (k : Z) (i : nat) :
  i ∈ np_where_eq labels k ↔ labels !! i = Some k.
Proof.
  unfold np_where_eq. rewrite list_elem_of_filter, elem_of_seq.
  split; [by intros [? _]|]. intros Hi. split; [done|].
  apply lookup_lt_Some in Hi. lia.
Qed.

Lemma np_where_eq_sorted (labels : list Z) (k : Z) :
  StronglySorted Nat.lt (np_where_eq labels k).
Proof. apply StronglySorted_filter, StronglySorted_seq. Qed.

Lemma np_where_eq_partition (labels ks : list Z) :
  NoDup ks → (∀ k, k ∈ labels → k ∈ ks) →
  concat (np_where_eq labels <$> ks) ≡ₚ seq 0 (length labels).
Proof.
  intros Hnd Hcov.
  apply (concat_filter_classes (λ k i, labels !! i = Some k)); [done|..].
  - intros i k1 k2 H1 H2. congruence.
  - intros i [_ Hi]%elem_of_seq.
    destruct (lookup_lt_is_Some_2 labels i) as [k Hk]; [lia|].
    exists k. split; [|done]. apply Hcov. by eapply list_elem_of_lookup_2.
Qed.

Lemma selects_size (b tb : RolloutBuffer) (idx : list nat) :
  selects b idx tb → size tb = length idx.
Proof.
  intros (Hobs & _). unfold size.
  by rewrite <- (length_fmap Some), Hobs, length_fmap.
Qed.

Lemma split_task_Ok (b : RolloutBuffer) (labels : list Z) (k : Z)
    (acc : list (Z * RolloutBuffer)) :
  aligned b → length labels = length (observations b) → k ∉ acc.*1 →
  ∃ tb, split_task b labels k acc = Ok (acc ++ [(k, tb)]) ∧
        selects b (np_where_eq labels k) tb ∧ action_masks tb = [].
Proof.
  intros (Ha & Hl & Hr & Ht) Hlen Hk.
  assert (∀ n, n = length labels →
            Forall (λ i, (i < n)%nat) (np_where_eq labels k)) as Hidx.
  { intros n ->. apply Forall_forall. intros i Hi%elem_of_np_where_eq.
    by apply lookup_lt_Some in Hi. }
  destruct (take_indices_Ok (observations b) _ (Hidx _ (eq_sym Hlen)))
    as (obs & Eobs & Sobs).
  destruct (take_indices_Ok (actions b) (np_where_eq labels k))
    as (acts & Eacts & Sacts); [apply Hidx; congruence|].
  destruct (take_indices_Ok (logprobs b) (np_where_eq labels k))
    as (lps & Elps & Slps); [apply Hidx; congruence|].
  destruct (take_indices_Ok (rewards b) (np_where_eq labels k))
    as (rews & Erews & Srews); [apply Hidx; congruence|].
  destruct (take_indices_Ok (returns b) (np_where_eq labels k))
    as (rets & Erets & Srets); [apply Hidx; congruence|].
  exists (mkBuffer obs acts lps rews rets []).
  unfold split_task. rewrite Eobs, Eacts, Elps, Erews, Erets. simpl.
  by rewrite dict_set_fresh.
Qed.

Lemma split_loop_Ok (b : RolloutBuffer) (labels ks : list Z)
    (acc : list (Z * RolloutBuffer)) :
  aligned b → length labels = length (observations b) →
  NoDup ks → (∀ k, k ∈ ks → k ∉ acc.*1) →
  ∃ tbs, split_loop b labels ks acc = Ok (acc ++ tbs) ∧ tbs.*1 = ks ∧
    Forall (λ kt, selects b (np_where_eq labels kt.1) kt.2 ∧
                  action_masks kt.2 = []) tbs.
Proof.
  intros Hal Hlen Hnd. revert acc.
  induction Hnd as [|k ks Hk Hnd IH]; intros acc Hfresh.
  - exists []. by rewrite app_nil_r.
  - destruct (split_task_Ok b labels k acc) as (tb & Etb & Htb); [done..| |].
    { apply Hfresh. by left. }
    destruct (IH (acc ++ [(k, tb)])) as (tbs & Etbs & Hkeys & Hall).
    { intros k' Hk'. rewrite fmap_app, not_elem_of_app. split.
      - apply Hfresh. by right.
      - simpl. rewrite list_elem_of_singleton. by intros ->. }
    exists ((k, tb) :: tbs). split_and!.
    + simpl. rewrite Etb. simpl. by rewrite Etbs, <- app_assoc.
    + by rewrite fmap_cons, Hkeys.
    + by constructor.
Qed.

Lemma sum_list_sizes (labels : list Z) (b : RolloutBuffer)
    (tbs : list (Z * RolloutBuffer)) :
  Forall (λ kt, selects b (np_where_eq labels kt.1) kt.2) tbs →
  sum_list (size <$> tbs.*2) =
  sum_list ((λ k, length (np_where_eq labels k)) <$> tbs.*1).
Proof.
  induction 1 as [|[k tb] tbs Hsel _ IH]; [done|].
  rewrite !fmap_cons. cbn [sum_list sum_list_with fst snd] in *.
  apply selects_size in Hsel. by rewrite Hsel, IH.
Qed.

Lemma Forall_dict_set {V} (P : Z * V → Prop) (k : Z) (v : V) (d : list (Z * V)) :
  P (k, v) → Forall P d → Forall P (dict_set k v d).
Proof.
  intros Hkv. induction 1 as [|[k' v'] d Hx Hd IH]; simpl.
  - by constructor.
  - case_decide; by constructor.
Qed.

Lemma dict_item_elem_of {V} (k : Z) (v : V) (d : list (Z * V)) :
  dict_item k d = Ok v → (k, v) ∈ d.
Proof.
  unfold dict_item. induction d as [|[k' v'] d IH]; simpl; [done|].
  case_decide as Hk.
  - intros [= ->]. subst. by left.
  - intros Hd. right. by apply IH.
Qed.

Lemma for_each_Forall {A B} (f : A → Res B) (P : B → Prop) (l : list A) (ys : list B) :
  (∀ x y, f x = Ok y → P y) → for_each f l = Ok ys → Forall P ys.
Proof.
  intros Hf. revert ys. induction l as [|x l IH]; intros ys; simpl.
  - intros [= <-]. constructor.
  - destruct (f x) as [y|] eqn:Ey; simpl; [|done].
    destruct (for_each f l) as [ys'|] eqn:Eys; simpl; [|done].
    intros [= <-]. constructor; eauto.
Qed.

Lemma split_loop_action_masks (b : RolloutBuffer) (labels ks : list Z)
    (acc tbs : list (Z * RolloutBuffer)) :
  Forall (λ kt, action_masks kt.2 = []) acc →
  split_loop b labels ks acc = Ok tbs →
  Forall (λ kt, action_masks kt.2 = []) tbs.
Proof.
  revert acc. induction ks as [|k ks IH]; intros acc Hacc; simpl.
  - by intros [= <-].
  - destruct (split_task b labels k acc) as [acc'|] eqn:E; simpl; [|done].
    apply IH. revert E. unfold split_task.
    repeat match goal with
           | |- context [take_indices ?l ?idx] =>
               destruct (take_indices l idx); simpl; [|done]
           end.
    intros [= <-]. by apply Forall_dict_set.
Qed.
End split_facts.

(** ** Claims about [_split_buffer] *)
Section split_claims.
Context `{LibTypes}.

(** C1. For a rollout buffer whose observations all carry a ['v_net_size']
    label and whose sequences are index-aligned, [_split_buffer] returns a
    mapping that iterates in strictly ascending task-id order over exactly
    the labels that occur; the sub-buffer of task [k] holds, in each of its
    five sequences, the entries at the positions labelled [k] in increasing
    position order; these position lists are pairwise disjoint and together
    a rearrangement of [0 .. N-1], so the sizes sum to [N]. For the labels
    3, 3, 5, 5, 5, 3 the mapping iterates as [3; 5], with positions 0, 1, 5
    for task 3 and 2, 3, 4 for task 5. *)
Theorem split_buffer_partition (b : RolloutBuffer) :
  labelled b → aligned b →
  ∃ labels tbs,
    v_net_size_list b = Ok labels ∧
    Forall2 (λ (obs : Observation) n, obs !! "v_net_size"%string = Some (VInt n))
            (observations b) labels ∧
    _split_buffer b = Ok tbs ∧
    tbs.*1 = sorted (py_set labels) ∧
    StronglySorted Z.lt tbs.*1 ∧
    (∀ k, k ∈ tbs.*1 ↔ k ∈ labels) ∧
    Forall (λ kt, selects b (np_where_eq labels kt.1) kt.2) tbs ∧
    (∀ k i, i ∈ np_where_eq labels k ↔ labels !! i = Some k) ∧
    (∀ k, StronglySorted Nat.lt (np_where_eq labels k)) ∧
    (∀ k1 k2 i, i ∈ np_where_eq labels k1 → i ∈ np_where_eq labels k2 → k1 = k2) ∧
    concat (np_where_eq labels <$> tbs.*1) ≡ₚ seq 0 (size b) ∧
    sum_list (size <$> tbs.*2) = size b ∧
    (labels = [3; 3; 5; 5; 5; 3] →
       tbs.*1 = [3; 5] ∧
       np_where_eq labels 3 = [0; 1; 5]%nat ∧
       np_where_eq labels 5 = [2; 3; 4]%nat).
Proof.
  intros Hlab Hal.
  destruct (v_net_size_list_Ok b Hlab) as (labels & Elab & Hobs).
  assert (length labels = length (observations b)) as Hlen
    by (symmetry; by eapply Forall2_length).
  destruct (sorted_py_set labels) as [Hsorted Hmem].
  assert (NoDup (sorted (py_set labels))) as Hnd
    by by apply StronglySorted_lt_NoDup.
  destruct (split_loop_Ok b labels (sorted (py_set labels)) []) as (tbs & Etbs & Hkeys & Hall);
    [done.. | intros; apply not_elem_of_nil |].
  rewrite app_nil_l in Etbs.
  assert (Forall (λ kt, selects b (np_where_eq labels kt.1) kt.2) tbs) as Hsel.
  { eapply Forall_impl; [done|]. by intros kt [? _]. }
  assert (concat (np_where_eq labels <$> tbs.*1) ≡ₚ seq 0 (size b)) as Hperm.
  { rewrite Hkeys. unfold size. rewrite <- Hlen.
    apply np_where_eq_partition; [done|]. intros k. apply Hmem. }
  exists labels, tbs. split_and!; try done.
  - unfold _split_buffer. rewrite Elab, res_bind_Ok. cbn zeta.
    rewrite Etbs, res_bind_Ok. unfold dict_keys.
    rewrite sorted_id by (by rewrite Hkeys).
    apply dict_items_keys. by rewrite Hkeys.
  - by rewrite Hkeys.
  - by rewrite Hkeys.
  - apply elem_of_np_where_eq.
  - apply np_where_eq_sorted.
  - intros k1 k2 i H1%elem_of_np_where_eq H2%elem_of_np_where_eq. congruence.
  - rewrite (sum_list_sizes labels b) by done.
    rewrite <- length_concat_fmap, Hperm. apply length_seq.
  - intros ->. rewrite Hkeys. by vm_compute.
Qed.

(** C10. Whatever the source buffer holds, every sub-buffer returned by
    [_split_buffer] has the empty [action_masks] sequence of a freshly
    created buffer: the action masks of the source are not carried over. *)
Theorem split_buffer_drops_action_masks (b : RolloutBuffer)
    (tbs : list (Z * RolloutBuffer)) :
  _split_buffer b = Ok tbs →
  Forall (λ kt, action_masks kt.2 = action_masks RolloutBuffer_new ∧
                action_masks kt.2 = []) tbs.
Proof.
  unfold _split_buffer.
  destruct (v_net_size_list b) as [labels|]; simpl; [|done].
  destruct (split_loop b labels _ []) as [d|] eqn:Ed; simpl; [|done].
  apply split_loop_action_masks in Ed; [|constructor].
  apply for_each_Forall. intros k [k' tb].
  destruct (dict_item k d) as [tb'|] eqn:Ek; simpl; [|done].
  intros [= <- <-]. apply dict_item_elem_of in Ek.
  rewrite Forall_forall in Ed. split; by apply (Ed _ Ek).
Qed.
End split_claims.

Section split_witnesses.
Local Existing Instance sample_types.

Lemma split_buffer_partition_witness :
  ∃ labels tbs,
    v_net_size_list sample_buffer = Ok labels ∧
    _split_buffer sample_buffer = Ok tbs ∧
    labels = [3; 3; 5; 5; 5; 3] ∧ tbs.*1 = [3; 5] ∧
    sum_list (size <$> tbs.*2) = 6%nat.
Proof.
  destruct (@split_buffer_partition sample_types sample_buffer)
    as (labels & tbs & Elab & _ & Etbs & _ & _ & _ & _ & _ & _ & _ & _ & Hsum & Hscen).
  - apply Forall_forall. intros obs Hobs.
    repeat (apply elem_of_cons in Hobs as [->|Hobs]; [by eexists|]).
    by apply elem_of_nil in Hobs.
  - by repeat split.
  - exists labels, tbs. vm_compute in Elab. injection Elab as <-.
    by destruct (Hscen eq_refl) as (-> & _).
Defined.

Lemma split_buffer_drops_action_masks_witness :
  action_masks sample_buffer ≠ [] ∧
  ∃ tbs, _split_buffer sample_buffer = Ok tbs ∧
         Forall (λ kt, action_masks kt.2 = action_masks RolloutBuffer_new ∧
                       action_masks kt.2 = []) tbs.
Proof.
  split; [done|].
  destruct (_split_buffer sample_buffer) as [tbs|e] eqn:E; [|by vm_compute in E].
  exists tbs. split; [done|].
  exact (@split_buffer_drops_action_masks sample_types sample_buffer tbs E).
Defined.
End split_witnesses.

(** ** Claims about [solve] and [__init__] *)
Section solve_claims.
Context `{LibOps}.

Lemma deref_policy_state (r : PolicyRef) (s : Solver) :
  (deref_policy r s).2 = s.
Proof. by destruct r. Qed.

Lemma deref_optimizer_state (r : OptimizerRef) (s : Solver) :
  (deref_optimizer r s).2 = s.
Proof. by destruct r. Qed.

Lemma super_solve_searcher_policy (instance : Instance) (s : Solver) :
  searcher_policy (super_solve instance s).2 = searcher_policy s.
Proof.
  unfold super_solve, mbind, M_bind, gets, record, modify, lift.
  pose proof (deref_policy_state (searcher_policy s) s) as E.
  destruct (deref_policy (searcher_policy s) s) as [[p|e] s']; by simplify_eq/=.
Qed.

(** C8. With the single-policy override configured (non-zero) and no task
    policy stored under that id, [solve] raises the [KeyError] of the
    failed lookup and leaves the solver untouched: the policy of the
    searcher is not reassigned, neither to the meta-policy nor to another
    task policy, and the inherited [solve] is never called. *)
Theorem solve_override_missing_policy (instance : Instance) (s : Solver) :
  infer_with_single_task_policy_id s ≠ 0 →
  infer_with_single_task_policy_id s ∉ (task_policies s).*1 →
  solve instance s =
    (Raise (mkExn KeyError (pretty (infer_with_single_task_policy_id s))), s) ∧
  is_LookupError (mkExn KeyError (pretty (infer_with_single_task_policy_id s))) = true ∧
  searcher_policy (solve instance s).2 = searcher_policy s ∧
  calls (solve instance s).2 = calls s.
Proof.
  intros Hne Hnin.
  assert (solve instance s =
    (Raise (mkExn KeyError (pretty (infer_with_single_task_policy_id s))), s)) as E.
  { unfold solve, mbind, M_bind, gets, lift. cbn beta iota zeta.
    rewrite decide_True by done.
    apply dict_get_None in Hnin. unfold dict_item. by rewrite Hnin. }
  by rewrite E.
Qed.

(** C9. The override is switched off exactly by the value 0. With 0, [solve]
    routes by the size of the instance (to the task policy of that size if
    there is one, to the meta-policy otherwise), so the task policy 0 can
    only be selected for an instance of size 0; with any other value for
    which a task policy exists, [solve] routes to that policy whatever the
    size. [__init__] stores 0 when the option is absent, so passing 0 and
    not passing the option build the same solver. *)
Theorem single_policy_override_disabled_by_zero :
  (∀ (instance : Instance) (s : Solver),
     infer_with_single_task_policy_id s = 0 →
     let size := num_nodes (v_net instance) in
     solve instance s =
       super_solve instance
         (set_searcher_policy
            (if dict_mem size (task_policies s) then TaskPolicy size
             else MetaPolicy) s) ∧
     (searcher_policy (solve instance s).2 = TaskPolicy 0 → size = 0)) ∧
  (∀ (instance : Instance) (s : Solver),
     infer_with_single_task_policy_id s ≠ 0 →
     infer_with_single_task_policy_id s ∈ (task_policies s).*1 →
     solve instance s =
       super_solve instance
         (set_searcher_policy
            (TaskPolicy (infer_with_single_task_policy_id s)) s)) ∧
  (∀ (base : Inherited) (kwargs : gmap string Z),
     kwargs !! "infer_with_single_task_policy_id"%string = None →
     infer_with_single_task_policy_id (__init__ base kwargs) = 0 ∧
     __init__ base (<["infer_with_single_task_policy_id"%string := 0]> kwargs)
       = __init__ base kwargs).
Proof.
  split_and!.
  - intros instance s Hz size.
    assert (solve instance s =
       super_solve instance
         (set_searcher_policy
            (if dict_mem size (task_policies s) then TaskPolicy size
             else MetaPolicy) s)) as E.
    { unfold solve, mbind, M_bind, gets, lift, modify. cbn beta iota zeta.
      rewrite decide_False by (by intros ?).
      fold size. destruct (dict_mem size (task_policies s)) eqn:Em;
        cbn [negb]; [|done].
      apply dict_mem_true, dict_item_Ok in Em as (p & Ep & _). by rewrite Ep. }
    split; [done|]. rewrite E, super_solve_searcher_policy. simpl.
    destruct (dict_mem size (task_policies s)); [|done]. by intros [= ->].
  - intros instance s Hne Hin.
    unfold solve, mbind, M_bind, gets, lift, modify. cbn beta iota zeta.
    rewrite decide_True by done.
    apply dict_item_Ok in Hin as (p & Ep & _). by rewrite Ep.
  - intros base kwargs Hnone. unfold __init__.
    by rewrite lookup_insert_eq, Hnone.
Qed.
End solve_claims.

Section solve_witnesses.
Local Existing Instance sample_types.
Local Existing Instance sample_ops.

Lemma solve_override_missing_policy_witness :
  infer_with_single_task_policy_id sample_solver_single = 5 ∧
  task_policies sample_solver_single = [] ∧
  solve sample_instance sample_solver_single =
    (Raise (mkExn KeyError "5"), sample_solver_single).
Proof.
  split; [done|]. split; [done|].
  destruct (@solve_override_missing_policy sample_types sample_ops
              sample_instance sample_solver_single) as (E & _).
  - done.
  - apply not_elem_of_nil.
  - exact E.
Defined.

Lemma single_policy_override_disabled_by_zero_witness :
  (infer_with_single_task_policy_id sample_solver_trained = 0 ∧
   searcher_policy
     (solve sample_instance_5 sample_solver_trained).2
     = TaskPolicy 5 ∧
   searcher_policy
     (solve sample_instance sample_solver_trained).2
     = MetaPolicy) ∧
  (infer_with_single_task_policy_id sample_solver_single_ready = 5 ∧
   searcher_policy
     (solve sample_instance sample_solver_single_ready).2
     = TaskPolicy 5) ∧
  __init__ sample_inherited
     (<["infer_with_single_task_policy_id"%string := 0]> ∅)
    = __init__ sample_inherited ∅.
Proof.
  destruct (@single_policy_override_disabled_by_zero sample_types sample_ops)
    as (Hzero & Hover & Hinit).
  split_and!.
  - done.
  - destruct (Hzero sample_instance_5 sample_solver_trained eq_refl) as [-> _].
    by rewrite super_solve_searcher_policy.
  - destruct (Hzero sample_instance sample_solver_trained eq_refl) as [-> _].
    by rewrite super_solve_searcher_policy.
  - done.
  - rewrite (Hover sample_instance sample_solver_single_ready).
    + by rewrite super_solve_searcher_policy.
    + done.
    + by vm_compute; left.
  - by destruct (Hinit sample_inherited ∅ (lookup_empty _)) as [_ ->].
Defined.
End solve_witnesses.

(** ** Claims about [obs_as_tensor] *)
Section batcher_claims.
Context `{LibOps}.

Lemma obs_item_Some (obs : Observation) (key : string) (v : Val) :
  obs !! key = Some v → obs_item obs key = Ok v.
Proof. intros Hv. unfold obs_item. by rewrite Hv. Qed.

(** C6. For a single observation that has every field the batcher reads,
    the single-observation branch and the batch branch on the one-element
    list both return, and the two dictionaries are equal: the same five
    keys with the same tensors (built in a different key order). *)
Theorem obs_as_tensor_single_equals_batch (obs : Observation) (device : Device) :
  well_formed obs →
  ∃ single batch,
    obs_as_tensor (ODict obs) device = Ok single ∧
    obs_as_tensor (OList [ODict obs]) device = Ok batch ∧
    (list_to_map single : gmap string TensorObs) = list_to_map batch ∧
    single ≡ₚ batch ∧
    single.*1 = ["p_net"; "v_net_x"; "curr_v_node_id"; "action_mask";
                 "v_net_size"]%string.
Proof.
  unfold well_formed. rewrite !Forall_cons.
  intros ([x Hx] & [ei Hei] & [vx Hvx] & [cur Hcur] & [am Ham] & [vs Hvs] & _).
  assert (∀ a b c : string * TensorObs, [a; b; c] ≡ₚ [c; a; b]) as Hrot.
  { intros a b c. apply (Permutation_app_comm [a; b] [c]). }
  eexists _, _. split_and!.
  - unfold obs_as_tensor.
    rewrite (obs_item_Some _ _ _ Hx), (obs_item_Some _ _ _ Hei),
      (obs_item_Some _ _ _ Hvx), (obs_item_Some _ _ _ Hcur),
      (obs_item_Some _ _ _ Ham), (obs_item_Some _ _ _ Hvs).
    rewrite !res_bind_Ok. reflexivity.
  - unfold obs_as_tensor, batch_loop, subscript.
    rewrite (obs_item_Some _ _ _ Hx), (obs_item_Some _ _ _ Hei),
      (obs_item_Some _ _ _ Hvx), (obs_item_Some _ _ _ Hcur),
      (obs_item_Some _ _ _ Ham), (obs_item_Some _ _ _ Hvs).
    rewrite !res_bind_Ok. reflexivity.
  - apply list_to_map_proper.
    + cbn. apply (bool_decide_unpack _). by vm_compute.
    + cbn. do 2 f_equiv. apply Hrot.
  - cbn. do 2 f_equiv. apply Hrot.
  - done.
Qed.

(** C7. On an input that is neither a [dict] nor a [list], [obs_as_tensor]
    does nothing but raise: an [Exception] whose message is
    "Unrecognized type of observation " followed by the type of the value
    as Python prints it, [<class '...'>]. Nothing is converted: a tuple of
    observations or a bare array is rejected like any other value. *)
Theorem obs_as_tensor_unrecognized_type (obs : PyObj) (device : Device) :
  (∀ d, obs ≠ ODict d) → (∀ l, obs ≠ OList l) →
  obs_as_tensor obs device =
    Raise (mkExn Exception
             ("Unrecognized type of observation <class '"
                +:+ type_name obs +:+ "'>")).
Proof.
  intros Hdict Hlist. destruct obs as [d|l|l| |str|v]; try done.
  - by destruct (Hdict d).
  - by destruct (Hlist l).
Qed.
End batcher_claims.

Section batcher_witnesses.
Local Existing Instance sample_types.
Local Existing Instance sample_ops.

Lemma obs_as_tensor_single_equals_batch_witness :
  ∃ single batch,
    obs_as_tensor (ODict (sample_obs 3)) true = Ok single ∧
    obs_as_tensor (OList [ODict (sample_obs 3)]) true = Ok batch ∧
    (list_to_map single : gmap string TensorObs) = list_to_map batch.
Proof.
  destruct (obs_as_tensor_single_equals_batch (sample_obs 3) true)
    as (single & batch & E1 & E2 & Emap & _).
  - unfold well_formed. repeat (apply Forall_cons; split; [by eexists|]).
    apply Forall_nil_2.
  - by exists single, batch.
Defined.

Lemma obs_as_tensor_unrecognized_type_witness :
  obs_as_tensor (OTuple [ODict (sample_obs 3)]) true =
    Raise (mkExn Exception "Unrecognized type of observation <class 'tuple'>") ∧
  obs_as_tensor (OVal (VArr [1; 2])) false =
    Raise (mkExn Exception
             "Unrecognized type of observation <class 'numpy.ndarray'>").
Proof.
  split.
  - by apply (@obs_as_tensor_unrecognized_type sample_types sample_ops).
  - by apply (@obs_as_tensor_unrecognized_type sample_types sample_ops).
Defined.
End batcher_witnesses.

(** ** Running methods: frames *)
Section frames.
Context `{LibOps}.

Lemma run_bind {A B} (m : M A) (k : A → M B) (s : Solver) :
  (m ≫= k) s =
  match m s with
  | (Ok a, s') => k a s'
  | (Raise e, s') => (Raise e, s')
  end.
Proof. done. Qed.

Lemma run_ret {A} (a : A) (s : Solver) : mret (M := M) a s = (Ok a, s).
Proof. done. Qed.

Lemma run_gets {A} (f : Solver → A) (s : Solver) : gets f s = (Ok (f s), s).
Proof. done. Qed.

Lemma run_modify (g : Solver → Solver) (s : Solver) :
  modify g s = (Ok tt, g s).
Proof. done. Qed.

Lemma run_lift {A} (r : Res A) (s : Solver) : lift r s = (r, s).
Proof. done. Qed.

Lemma run_raise {A} (e : Exn) (s : Solver) : raise (A := A) e s = (Raise e, s).
Proof. done. Qed.

Lemma set_heap_id (s : Solver) : set_heap (heap s) s = s.
Proof. by destruct s. Qed.

Lemma set_heap_set_heap (h1 h2 : list RolloutBuffer) (s : Solver) :
  set_heap h2 (set_heap h1 s) = set_heap h2 s.
Proof. done. Qed.

Lemma preserves_ret {A X} (f : Solver → X) (a : A) : preserves f (mret a).
Proof. done. Qed.

Lemma preserves_bind {A B X} (f : Solver → X) (m : M A) (k : A → M B) :
  preserves f m → (∀ a, preserves f (k a)) → preserves f (m ≫= k).
Proof.
  intros Hm Hk s. rewrite run_bind. specialize (Hm s).
  destruct (m s) as [[a|e] s1]; simpl in *; [|done].
  by rewrite Hk.
Qed.

Lemma preserves_gets {A X} (f : Solver → X) (g : Solver → A) :
  preserves f (gets g).
Proof. done. Qed.

Lemma preserves_lift {A X} (f : Solver → X) (r : Res A) : preserves f (lift r).
Proof. done. Qed.

Lemma preserves_raise {A X} (f : Solver → X) (e : Exn) :
  preserves f (raise (A := A) e).
Proof. done. Qed.

Lemma preserves_reraise {X} (f : Solver → X) (r : option Exn) :
  preserves f (reraise r).
Proof. by destruct r. Qed.

Lemma preserves_modify {X} (f : Solver → X) (g : Solver → Solver) :
  (∀ s, f (g s) = f s) → preserves f (modify g).
Proof. intros Hg s. apply Hg. Qed.

Lemma preserves_for {A X} (f : Solver → X) (l : list A) (body : A → M unit) :
  (∀ x, preserves f (body x)) → preserves f (for_ l body).
Proof.
  intros Hbody. induction l as [|x l IH]; [done|].
  apply preserves_bind; [apply Hbody | by intros _].
Qed.

Lemma preserves_try_except {A X} (f : Solver → X) (body : M A)
    (handler : Exn → M A) :
  preserves f body → (∀ e, preserves f (handler e)) →
  preserves f (try_except body handler).
Proof.
  intros Hb Hh s. unfold try_except. specialize (Hb s).
  destruct (body s) as [[a|e] s1]; simpl in *; [done|].
  by rewrite Hh.
Qed.

(** [for_] stops at the first iteration that raises. *)
Lemma run_for_cons {A} (x : A) (l : list A) (body : A → M unit) (s : Solver) :
  for_ (x :: l) body s =
  match body x s with
  | (Ok _, s') => for_ l body s'
  | (Raise e, s') => (Raise e, s')
  end.
Proof. done. Qed.
End frames.

Ltac preserves_step :=
  match goal with
  | |- preserves _ (mret _) => apply preserves_ret
  | |- preserves _ (gets _) => apply preserves_gets
  | |- preserves _ (lift _) => apply preserves_lift
  | |- preserves _ (raise _) => apply preserves_raise
  | |- preserves _ (reraise _) => apply preserves_reraise
  | |- preserves _ (modify _) => apply preserves_modify; by intros ?
  | |- preserves _ (for_ _ _) => apply preserves_for; intros ?
  | |- preserves _ (try_except _ _) => apply preserves_try_except; [|intros ?]
  | |- preserves _ (_ ≫= _) => apply preserves_bind; [|intros ?]
  | |- preserves _ (if ?c then _ else _) => destruct c
  | |- preserves _ (match ?x with _ => _ end) => destruct x
  end.

Ltac solve_preserves := repeat preserves_step.

(** Run the next steps of a method on a given world. *)
Ltac fields :=
  cbn [policy optimizer buffer searcher_policy base_policy base_optimizer
       lr model_dir verbose meta_policy meta_optimizer task_policies
       task_optimizers target_steps infer_with_single_task_policy_id
       heap disk calls
       set_policy set_optimizer set_buffer set_searcher_policy
       set_base_policy set_base_optimizer set_meta_policy set_meta_optimizer
       set_task_policies set_task_optimizers set_heap set_disk set_calls].

Ltac run :=
  repeat (rewrite ?run_bind, ?run_ret, ?run_gets, ?run_modify, ?run_lift,
            ?run_raise; cbn beta iota; fields).

(** ** More on lists and dictionaries *)
Section more_list_facts.
Lemma Forall2_impl_elem_of {A B} (P Q : A → B → Prop) (l : list A) (k : list B) :
  Forall2 P l k → (∀ x y, x ∈ l → P x y → Q x y) → Forall2 Q l k.
Proof.
  induction 1 as [|x y l k HP _ IH]; intros HPQ; constructor.
  - apply HPQ; [by left | done].
  - apply IH. intros x' y' Hin. apply HPQ. by right.
Qed.

Lemma dict_item_elem_of_NoDup {V} (k : Z) (v : V) (d : list (Z * V)) :
  NoDup d.*1 → (k, v) ∈ d → dict_item k d = Ok v.
Proof.
  induction d as [|[k' v'] d IH]; [by intros _ ?%elem_of_nil|].
  rewrite fmap_cons, NoDup_cons. cbn [fst]. intros [Hk Hnd] Hin.
  apply elem_of_cons in Hin as [[= -> ->]|Hin].
  - apply dict_item_cons_eq.
  - rewrite dict_item_cons_ne; [by apply IH|].
    intros ->. apply Hk. apply list_elem_of_fmap. by exists (k, v).
Qed.

Lemma for_each_keys {V} (f : Z → Res V) (l : list Z) (r : list (Z * V)) :
  for_each (λ k, v ← f k; Ok (k, v)) l = Ok r → r.*1 = l.
Proof.
  revert r. induction l as [|k l IH]; intros r; rewrite ?for_each_cons.
  - by intros [= <-].
  - destruct (f k) as [v|]; [|done]. rewrite !res_bind_Ok.
    destruct (for_each _ l) as [r'|]; [|done]. rewrite res_bind_Ok.
    intros [= <-]. rewrite fmap_cons. cbn [fst]. f_equal. by apply IH.
Qed.
End more_list_facts.

(** ** The fine-tuning update loop *)
Section update_facts.
Context `{LibOps}.

Lemma split_loop_NoDup (b : RolloutBuffer) (labels ks : list Z)
    (acc d : list (Z * RolloutBuffer)) :
  NoDup acc.*1 → split_loop b labels ks acc = Ok d → NoDup d.*1.
Proof.
  revert acc. induction ks as [|k ks IH]; intros acc Hacc; simpl.
  - by intros [= <-].
  - destruct (split_task b labels k acc) as [acc'|] eqn:E; simpl; [|done].
    apply IH. revert E. unfold split_task.
    repeat match goal with
           | |- context [take_indices ?l ?idx] =>
               destruct (take_indices l idx); simpl; [|done]
           end.
    intros [= <-]. rewrite dict_keys_set.
    destruct (dict_mem k acc) eqn:Em; [done|].
    apply dict_mem_false in Em. apply NoDup_app. split_and!; [done| |apply NoDup_singleton].
    intros k' Hk' ->%list_elem_of_singleton. done.
Qed.

Lemma split_buffer_keys_sorted (b : RolloutBuffer) (tbs : list (Z * RolloutBuffer)) :
  _split_buffer b = Ok tbs → StronglySorted Z.lt tbs.*1.
Proof.
  unfold _split_buffer.
  destruct (v_net_size_list b) as [labels|]; simpl; [|done].
  destruct (split_loop b labels _ []) as [d|] eqn:Ed; simpl; [|done].
  apply split_loop_NoDup in Ed; [|constructor].
  intros ->%for_each_keys. unfold sorted, dict_keys.
  apply Sorted_le_NoDup_lt; [apply Sorted_merge_sort, _|].
  by rewrite merge_sort_Permutation.
Qed.

Lemma new_buffers_contents (tbs : list (Z * RolloutBuffer)) (h : list RolloutBuffer) :
  Forall2 (λ (kl : Z * nat) (kt : Z * RolloutBuffer),
             kl.1 = kt.1 ∧ (h ++ tbs.*2) !! kl.2 = Some kt.2)
          (zip tbs.*1 (seq (length h) (length tbs))) tbs.
Proof.
  revert h. induction tbs as [|[k tb] tbs IH]; intros h; [constructor|].
  rewrite !fmap_cons. cbn [fst snd length seq zip zip_with]. constructor.
  - split; [done|]. cbn [fst snd]. by apply list_lookup_middle.
  - specialize (IH (h ++ [tb])). rewrite length_app, Nat.add_1_r in IH.
    by rewrite <- app_assoc in IH.
Qed.

Lemma ensure_task_policy_frame {X} (f : Solver → X) (k : Z) :
  (∀ v s, f (set_task_policies v s) = f s) →
  (∀ v s, f (set_task_optimizers v s) = f s) →
  preserves f (ensure_task_policy k).
Proof.
  intros Hp Ho.
  unfold ensure_task_policy, _init_task_policy_and_task_optimizer,
    store_policy, store_optimizer, deref_policy.
  repeat first [ apply preserves_modify; by intros ? | preserves_step ].
Qed.

Lemma new_buffers_run (tbs : list (Z * RolloutBuffer)) (s : Solver) :
  foldr (λ '(k, tb) rest,
           loc ← new_buffer tb; locs ← rest; mret ((k, loc) :: locs))
        (mret []) tbs s =
  (Ok (zip tbs.*1 (seq (length (heap s)) (length tbs))),
   set_heap (heap s ++ tbs.*2) s).
Proof.
  revert s. induction tbs as [|[k tb] tbs IH]; intros s.
  - simpl. by rewrite app_nil_r, set_heap_id.
  - cbn [foldr]. rewrite run_bind.
    change (new_buffer tb s) with (Ok (length (heap s)), set_heap (heap s ++ [tb]) s).
    cbn iota beta. rewrite run_bind, IH. cbn iota beta.
    cbn [heap set_heap]. rewrite length_app, set_heap_set_heap, <- app_assoc.
    cbn [length]. rewrite Nat.add_1_r. done.
Qed.

Lemma split_buffer_at_run (l : nat) (b : RolloutBuffer) (s : Solver) :
  heap s !! l = Some b →
  split_buffer_at l s =
  match _split_buffer b with
  | Ok tbs => (Ok (zip tbs.*1 (seq (length (heap s)) (length tbs))),
               set_heap (heap s ++ tbs.*2) s)
  | Raise e => (Raise e, s)
  end.
Proof.
  intros Hb. unfold split_buffer_at, read_buffer.
  run. rewrite Hb. run.
  destruct (_split_buffer b) as [tbs|e]; [|done].
  apply new_buffers_run.
Qed.

(** What one iteration of the inner loop does: it runs the generic update
    once on the sub-buffer of its task, or it fails on a lookup before. *)
Lemma fine_tune_task_run (task_buffers : list (Z * nat)) (k : Z) (loc : nat)
    (tb : RolloutBuffer) (s : Solver) :
  dict_item k task_buffers = Ok loc → heap s !! loc = Some tb →
  ∃ r s' tail,
    fine_tune_task task_buffers k s = (r, s') ∧
    (∀ l, l ≠ loc → heap s' !! l = heap s !! l) ∧
    calls s' = calls s ++ tail ∧
    ((r = Ok tt ∧ tail = [task_update None (k, tb)]) ∨
     (∃ e, r = Raise e ∧ tail = [task_update (Some e) (k, tb)]) ∨
     (∃ e, r = Raise e ∧ tail = [])) ∧
    (tail = [] → buffer s' = buffer s ∧ heap s' = heap s) ∧
    (tail ≠ [] →
     buffer s' = loc ∧
     ∃ p o, heap s' !! loc = Some (generic_update p o tb).1.2).
Proof.
  intros Hloc Htb. unfold fine_tune_task. run.
  destruct (dict_item k (task_policies s)) as [p|e] eqn:Ep; cbn beta iota.
  2:{ eexists _, _, []. split_and!; [done..| by rewrite app_nil_r | eauto |done|done]. }
  run.
  destruct (dict_item k (task_optimizers s)) as [o|e] eqn:Eo; cbn beta iota.
  2:{ eexists _, _, []. split_and!; [done..| by rewrite app_nil_r | eauto |done|done]. }
  run. rewrite Hloc. run.
  unfold super_update, deref_policy, deref_optimizer, read_buffer, record.
  run. rewrite Ep. run. rewrite Eo. run. rewrite Htb. run.
  pose proof (lookup_lt_Some _ _ _ Htb) as Hlt.
  destruct (generic_update p o tb) as [[[p' o'] b'] r] eqn:Eg. run.
  unfold store_policy, store_optimizer, write_buffer. run.
  assert (∀ h : list RolloutBuffer, length h = length (heap s) →
            ∃ p o, <[loc := b']> h !! loc = Some (generic_update p o tb).1.2)
    as Hactive.
  { intros h Hh. exists p, o. rewrite Eg. cbn [fst snd].
    apply list_lookup_insert_eq. by rewrite Hh. }
  destruct r as [e|]; cbn [reraise]; run.
  - eexists _, _, _. split_and!; [done| |done|right; left; eauto|done|].
    + intros l Hl. cbn. by rewrite list_lookup_insert_ne.
    + intros _. fields. split; [done|]. by apply Hactive.
  - eexists _, _, _. split_and!; [done| |done|by left|done|].
    + intros l Hl. cbn. by rewrite list_lookup_insert_ne.
    + intros _. fields. split; [done|]. by apply Hactive.
Qed.

Lemma fine_tune_loop_run (task_buffers : list (Z * nat)) (meta : nat)
    (locs : list (Z * nat)) (tbs : list (Z * RolloutBuffer)) (s : Solver) :
  Forall2 (λ kl kt, kl.1 = kt.1 ∧ dict_item kl.1 task_buffers = Ok kl.2 ∧
                    heap s !! kl.2 = Some kt.2) locs tbs →
  NoDup locs.*2 → meta ∉ locs.*2 →
  ∃ r s' pre post tail,
    for_ locs.*1 (fine_tune_task task_buffers) s = (r, s') ∧
    tbs = pre ++ post ∧
    calls s' = calls s ++ (task_update None <$> pre) ++ tail ∧
    heap s' !! meta = heap s !! meta ∧
    ((r = Ok tt ∧ post = [] ∧ tail = []) ∨
     (∃ e kt post', r = Raise e ∧ post = kt :: post' ∧
                    tail = [task_update (Some e) kt]) ∨
     (∃ e, r = Raise e ∧ post ≠ [] ∧ tail = [])) ∧
    ((pre = [] ∧ tail = [] ∧ buffer s' = buffer s ∧ heap s' = heap s) ∨
     (buffer s' ∈ locs.*2 ∧
      ∃ p o tb, heap s' !! buffer s' = Some (generic_update p o tb).1.2)).
Proof.
  intros Hall. revert s Hall.
  induction locs as [|[k loc] locs IH] in tbs |- *; intros s Hall Hnd Hmeta.
  - apply Forall2_nil_inv_l in Hall as ->.
    exists (Ok tt), s, [], [], []. split_and!; try done.
    + by rewrite !app_nil_r.
    + by left.
    + by left.
  - apply Forall2_cons_inv_l in Hall as ([k' tb] & tbs' & (Hk & Hloc & Htb) & Hall & ->).
    cbn [fst snd] in *. subst k'.
    rewrite fmap_cons in Hnd, Hmeta. cbn [snd] in *.
    apply NoDup_cons in Hnd as [Hfresh Hnd].
    apply not_elem_of_cons in Hmeta as [Hne Hmeta].
    destruct (fine_tune_task_run task_buffers k loc tb s Hloc Htb)
      as (r & s1 & tail & Erun & Hheap & Hcalls & Hcase & Hidle & Hactive).
    rewrite fmap_cons. cbn [fst]. rewrite run_for_cons, Erun.
    destruct Hcase as [[-> ->] | [(e & -> & ->) | (e & -> & ->)]].
    + destruct (Hactive ltac:(done)) as (Hbuf1 & p1 & o1 & Hupd1).
      destruct (IH tbs' s1)
        as (r & s2 & pre & post & tail & Eloop & -> & Hc & Hm & Hcase & Hwhere);
        [|done..|].
      { eapply Forall2_impl_elem_of; [done|].
        intros [k1 l1] [k2 tb2] Hin (? & ? & Hl). cbn in *.
        split_and!; [done..|]. 
        rewrite Hheap; [done|]. intros ->.
        apply Hfresh. apply list_elem_of_fmap. by exists (k1, loc). }
      exists r, s2, ((k, tb) :: pre), post, tail. split_and!; try done.
      * rewrite Hc, Hcalls, fmap_cons. by rewrite <- !app_assoc.
      * rewrite Hm. by apply Hheap.
      * right. rewrite fmap_cons. cbn [snd].
        destruct Hwhere as [(_ & _ & -> & ->) | (Hin & Hupd)].
        -- split; [rewrite Hbuf1; by left|]. rewrite Hbuf1. by exists p1, o1, tb.
        -- split; [by right | done].
    + destruct (Hactive ltac:(done)) as (Hbuf1 & p1 & o1 & Hupd1).
      exists (Raise e), s1, [], ((k, tb) :: tbs'), [task_update (Some e) (k, tb)].
      split_and!; try done.
      * by apply Hheap.
      * right; left. by exists e, (k, tb), tbs'.
      * right. rewrite fmap_cons. cbn [snd].
        split; [rewrite Hbuf1; by left|]. rewrite Hbuf1. by exists p1, o1, tb.
    + destruct (Hidle eq_refl) as [Hbuf1 Hheap1].
      exists (Raise e), s1, [], ((k, tb) :: tbs'), [].
      split_and!; try done.
      * by apply Hheap.
      * right; right. by exists e.
      * by left.
Qed.

Lemma update_dangling (s : Solver) :
  heap s !! buffer s = None →
  update s = (Raise (mkExn RuntimeError "dangling buffer"), s).
Proof.
  intros Hb. unfold update, _fine_tuning_update, read_buffer. run.
  by rewrite Hb.
Qed.

(** The three ways an update cycle can end. *)
Lemma update_run (s : Solver) (b : RolloutBuffer) :
  heap s !! buffer s = Some b →
  ∃ r s', update s = (r, s') ∧
    ((∃ e, r = Raise e ∧ calls s' = calls s ∧ heap s' !! buffer s = Some b) ∨
     (∃ tbs pre post tail,
        _split_buffer b = Ok tbs ∧ tbs = pre ++ post ∧
        calls s' = calls s ++ (task_update None <$> pre) ++ tail ∧
        ((r = Ok tt ∧ post = [] ∧ tail = [] ∧
          heap s' !! buffer s = Some RolloutBuffer_new ∧
          ((tbs = [] ∧ buffer s' = buffer s) ∨
           (buffer s' ≠ buffer s ∧
            ∃ p o tb,
              heap s' !! buffer s' = Some (generic_update p o tb).1.2))) ∨
         (∃ e kt post', r = Raise e ∧ post = kt :: post' ∧
                        tail = [task_update (Some e) kt] ∧
                        heap s' !! buffer s = Some b ∧
                        buffer s' ≠ buffer s) ∨
         (∃ e, r = Raise e ∧ post ≠ [] ∧ tail = [] ∧
               heap s' !! buffer s = Some b)))).
Proof.
  intros Hb. unfold update, _fine_tuning_update. run.
  unfold read_buffer at 1. run. rewrite Hb. run.
  destruct (_stats_task_dist b) as [task_dist|e]; cbn beta iota.
  2:{ eexists _, _. split; [done|]. left. by exists e. }
  rewrite run_bind.
  pose proof (preserves_for heap (dict_keys task_dist) ensure_task_policy
                (λ k, ensure_task_policy_frame heap k (λ _ _, eq_refl) (λ _ _, eq_refl)) s)
    as Hheap1.
  pose proof (preserves_for calls (dict_keys task_dist) ensure_task_policy
                (λ k, ensure_task_policy_frame calls k (λ _ _, eq_refl) (λ _ _, eq_refl)) s)
    as Hcalls1.
  pose proof (preserves_for buffer (dict_keys task_dist) ensure_task_policy
                (λ k, ensure_task_policy_frame buffer k (λ _ _, eq_refl) (λ _ _, eq_refl)) s)
    as Hbuffer1.
  destruct (for_ (dict_keys task_dist) ensure_task_policy s) as [[[]|e] s1];
    cbn [snd] in *; cbn beta iota.
  2:{ eexists _, _. split; [done|]. left. exists e. by rewrite Hheap1, Hcalls1. }
  run. rewrite (split_buffer_at_run _ b) by (by rewrite Hheap1).
  destruct (_split_buffer b) as [tbs|e] eqn:Esplit; cbn beta iota.
  2:{ eexists _, _. split; [done|]. left. exists e. by rewrite Hheap1, Hcalls1. }
  set (locs := zip tbs.*1 (seq (length (heap s1)) (length tbs))).
  set (s2 := set_heap (heap s1 ++ tbs.*2) s1).
  assert (buffer s < length (heap s1))%nat as Hlt.
  { rewrite Hheap1. by eapply lookup_lt_Some. }
  assert (locs.*1 = tbs.*1) as Hkeys
    by (apply fst_zip; rewrite length_seq, length_fmap; lia).
  assert (locs.*2 = seq (length (heap s1)) (length tbs)) as Hlocs
    by (apply snd_zip; rewrite length_seq, length_fmap; lia).
  destruct (fine_tune_loop_run locs (buffer s) locs tbs s2)
    as (r & s3 & pre & post & tail & Eloop & Etbs & Hcalls3 & Hmeta3 & Hcase & Hwhere).
  { eapply Forall2_impl_elem_of; [apply (new_buffers_contents tbs (heap s1))|].
    intros [k l] [k' tb] Hin [Hk Hl]. cbn [fst snd] in *. split_and!; [done| |done].
    apply dict_item_elem_of_NoDup; [|done].
    rewrite Hkeys. by eapply StronglySorted_lt_NoDup, split_buffer_keys_sorted. }
  { rewrite Hlocs. apply NoDup_seq. }
  { rewrite Hlocs, elem_of_seq. lia. }
  rewrite run_bind. unfold dict_keys. fold locs s2. rewrite Eloop.
  assert (heap s3 !! buffer s = Some b) as Hb3.
  { rewrite Hmeta3. unfold s2. cbn [heap set_heap].
    rewrite lookup_app_l by done. by rewrite Hheap1. }
  assert (calls s3 = calls s ++ (task_update None <$> pre) ++ tail) as Hc3.
  { rewrite Hcalls3. unfold s2. cbn [calls set_heap]. by rewrite Hcalls1. }
  assert (buffer s3 ∈ locs.*2 → buffer s3 ≠ buffer s) as Hfar.
  { rewrite Hlocs, elem_of_seq. lia. }
  destruct Hcase as [(-> & -> & ->) | [(e & kt & post' & -> & -> & ->) | (e & -> & Hpost & ->)]];
    cbn beta iota.
  - unfold read_buffer, write_buffer. run. rewrite Hb3. run.
    eexists _, _. split; [done|]. right. exists tbs, pre, [], [].
    split_and!; [done..|]. left. split_and!; [done..| |].
    + cbn [heap set_heap]. apply list_lookup_insert_eq. by eapply lookup_lt_Some.
    + cbn [buffer heap set_heap].
      destruct Hwhere as [(-> & _ & Hbuf3 & _) | (Hin & p & o & tb & Hupd)].
      * left. split; [by rewrite Etbs|]. rewrite Hbuf3. unfold s2.
        cbn [buffer set_heap]. exact Hbuffer1.
      * right. split; [by apply Hfar|]. exists p, o, tb.
        rewrite list_lookup_insert_ne; [done|]. intros Heq. by apply Hfar.
  - eexists _, _. split; [done|]. right.
    exists tbs, pre, (kt :: post'), [task_update (Some e) kt].
    split_and!; [done..|]. right; left. exists e, kt, post'.
    split_and!; [done..|].
    destruct Hwhere as [(_ & ? & _) | (Hin & _)]; [done | by apply Hfar].
  - eexists _, _. split; [done|]. right. exists tbs, pre, post, [].
    split_and!; [done..|]. right; right. by exists e.
Qed.
End update_facts.

(** ** Claims about [update] *)
Section update_claims.
Context `{LibOps}.

(** C2. When [update] returns without raising, the generic update was
    called once for each task id of the split, in ascending order, on that
    task's sub-buffer, and each call succeeded; afterwards the original
    buffer object, the one the solver held when [update] was called, is
    empty in every sequence. The solver itself is left holding the last
    sub-buffer (when there was any task), so what the next collection
    cycle finds there is what the generic update left: if the generic
    update empties the buffer it consumes, the solver's buffer is empty
    too. *)
Theorem update_consumes_buffer (s s' : Solver) :
  update s = (Ok tt, s') →
  ∃ b tbs,
    heap s !! buffer s = Some b ∧
    _split_buffer b = Ok tbs ∧
    calls s' = calls s ++ (task_update None <$> tbs) ∧
    heap s' !! buffer s = Some (RolloutBuffer_clear b) ∧
    RolloutBuffer_clear b = mkBuffer [] [] [] [] [] [] ∧
    (tbs ≠ [] → buffer s' ≠ buffer s) ∧
    ((∀ p o tb, (generic_update p o tb).1.2 = RolloutBuffer_clear tb) →
     heap s' !! buffer s' = Some (mkBuffer [] [] [] [] [] [])).
Proof.
  intros Hrun. destruct (heap s !! buffer s) as [b|] eqn:Hb.
  2:{ by rewrite update_dangling in Hrun. }
  destruct (update_run s b Hb) as (r & s1 & Erun & Hcase).
  rewrite Hrun in Erun. injection Erun as <- <-.
  destruct Hcase as [(e & ? & _) | (tbs & pre & post & tail & Esplit & Etbs & Hcalls & Hcase)];
    [done|].
  destruct Hcase as [(_ & -> & -> & Hheap & Hwhere) | [(e & kt & post' & ? & _) | (e & ? & _)]];
    [|done..].
  rewrite !app_nil_r in *. subst pre. exists b, tbs. split_and!; try done.
  - intros Hne. by destruct Hwhere as [[? _] | [? _]].
  - intros Hclear. destruct Hwhere as [[_ ->] | (_ & p & o & tb & ->)]; [done|].
    by rewrite Hclear.
Qed.

(** C3. If, during [update], the generic update raises [e] for the task
    [k], then [update] raises that same [e]; the generic update was called
    for the tasks before [k] in ascending order (all succeeding) and for
    [k], and for no task after [k]; and the original buffer object still
    holds what it held when [update] was called. The solver is left
    holding a sub-buffer, not the original buffer. *)
Theorem update_fails_fast (s s' : Solver) (r : Res unit) (evs : list Event)
    (pr : PolicyRef) (or : OptimizerRef) (tb : RolloutBuffer) (e : Exn) :
  update s = (r, s') →
  calls s' = calls s ++ evs →
  EvUpdate pr or tb (Some e) ∈ evs →
  r = Raise e ∧
  ∃ b tbs pre k post,
    heap s !! buffer s = Some b ∧
    _split_buffer b = Ok tbs ∧
    tbs = pre ++ (k, tb) :: post ∧
    pr = TaskPolicy k ∧ or = TaskOptimizer k ∧
    evs = (task_update None <$> pre) ++ [task_update (Some e) (k, tb)] ∧
    Forall (λ kt, k < kt.1 ∧ ∀ o, task_update o kt ∉ evs) post ∧
    heap s' !! buffer s = Some b ∧
    buffer s' ≠ buffer s.
Proof.
  intros Hrun Hcalls Hin.
  assert (∀ l : list (Z * RolloutBuffer),
            EvUpdate pr or tb (Some e) ∉ task_update None <$> l) as Hnone.
  { intros l (kt & [=] & _)%list_elem_of_fmap. }
  assert (∀ evs', calls s' = calls s ++ evs' → evs = evs') as Hevs.
  { intros evs' Hc. rewrite Hc in Hcalls. by apply app_inv_head in Hcalls. }
  destruct (heap s !! buffer s) as [b|] eqn:Hb.
  2:{ rewrite update_dangling in Hrun by done. injection Hrun as <- <-.
      rewrite (Hevs []) in Hin by (by rewrite app_nil_r).
      by apply elem_of_nil in Hin. }
  destruct (update_run s b Hb) as (r1 & s1 & Erun & Hcase).
  rewrite Hrun in Erun. injection Erun as <- <-.
  destruct Hcase as [(e' & _ & Hc & _) | (tbs & pre & post & tail & Esplit & -> & Hc & Hcase)].
  { rewrite (Hevs []) in Hin by (by rewrite app_nil_r).
    by apply elem_of_nil in Hin. }
  apply Hevs in Hc. subst evs.
  destruct Hcase as [(_ & -> & -> & _) | [(e' & [k tb'] & post' & -> & -> & -> & Hheap & Hfar) | (e' & _ & _ & -> & _)]].
  - rewrite app_nil_r in Hin. by apply Hnone in Hin.
  - apply elem_of_app in Hin as [Hin|Hin]; [by apply Hnone in Hin|].
    apply list_elem_of_singleton in Hin. injection Hin as -> -> -> ->.
    split; [done|]. exists b, (pre ++ (k, tb') :: post'), pre, k, post'.
    split_and!; try done.
    apply split_buffer_keys_sorted in Esplit.
    rewrite fmap_app, fmap_cons in Esplit. cbn [fst] in Esplit.
    apply StronglySorted_app in Esplit as (Hpre & _ & Hpost).
    apply StronglySorted_cons in Hpost as [Hk _].
    pose proof (proj1 (Forall_forall _ _) Hk) as Hlt. clear Hk.
    apply Forall_forall.
    intros [k' tb''] Hkt. cbn [fst].
    assert (k' ∈ post'.*1) as Hk' by (apply list_elem_of_fmap; by exists (k', tb'')).
    split; [by apply Hlt|].
    intros o [Ho|Ho]%elem_of_app.
    + apply list_elem_of_fmap in Ho as ([k2 tb2] & Heq & Hin2).
      unfold task_update in Heq. cbn [fst snd] in Heq.
      injection Heq as ? ? ?. subst k2 tb2 o.
      assert (k' ∈ pre.*1) as Hpre' by (apply list_elem_of_fmap; by exists (k', tb'')).
      specialize (Hpre k' k Hpre'). specialize (Hlt k' Hk').
      assert (k' < k) by (apply Hpre; by left). lia.
    + apply list_elem_of_singleton in Ho.
      unfold task_update in Ho. cbn [fst snd] in Ho. injection Ho as ? _ _.
      subst k'. specialize (Hlt k Hk'). lia.
  - rewrite app_nil_r in Hin. by apply Hnone in Hin.
Qed.
End update_claims.

Section update_witnesses.
Local Existing Instance sample_types.
Local Existing Instance sample_ops.

Lemma update_consumes_buffer_witness :
  update sample_solver = (Ok tt, sample_solver_trained) ∧
  ∃ b tbs,
    heap sample_solver !! buffer sample_solver = Some b ∧
    _split_buffer b = Ok tbs ∧
    calls sample_solver_trained =
      calls sample_solver ++ (task_update None <$> tbs) ∧
    heap sample_solver_trained !! buffer sample_solver =
      Some (RolloutBuffer_clear b) ∧
    RolloutBuffer_clear b = mkBuffer [] [] [] [] [] [].
Proof.
  assert (update sample_solver = (Ok tt, sample_solver_trained)) as Erun
    by (vm_compute; reflexivity).
  split; [exact Erun|].
  destruct (update_consumes_buffer sample_solver sample_solver_trained Erun)
    as (b & tbs & Hb & Esplit & Hcalls & Hheap & Hnew & _).
  exists b, tbs.
  exact (conj Hb (conj Esplit (conj Hcalls (conj Hheap Hnew)))).
Defined.

Lemma update_fails_fast_witness :
  ∃ s' tb,
    update sample_solver_nan = (Raise (mkExn RuntimeError "loss is nan"), s') ∧
    calls s' = [task_update (Some (mkExn RuntimeError "loss is nan")) (3, tb)] ∧
    heap s' !! buffer sample_solver_nan = Some sample_buffer_nan.
Proof.
  pose (s' := (update sample_solver_nan).2).
  pose (tb := mkBuffer (sample_obs <$> [3; 3; 3]) (VInt <$> [0; 11; 15])
                (VInt <$> [20; 21; 25]) (VInt <$> [30; 31; 35])
                (VInt <$> [40; 41; 45]) []).
  pose (e := mkExn RuntimeError "loss is nan").
  assert (update sample_solver_nan = (Raise e, s')) as Erun
    by (vm_compute; reflexivity).
  assert (calls s' = calls sample_solver_nan ++ [task_update (Some e) (3, tb)])
    as Hcalls by (vm_compute; reflexivity).
  destruct (update_fails_fast sample_solver_nan s' (Raise e)
              [task_update (Some e) (3, tb)]
              (TaskPolicy 3) (TaskOptimizer 3) tb e Erun Hcalls)
    as (_ & b & tbs & pre & k & post & Hb & _ & _ & _ & _ & _ & _ & Hheap & _).
  { apply list_elem_of_singleton. reflexivity. }
  exists s', tb. split; [exact Erun|]. split; [exact Hcalls|].
  rewrite Hheap, <- Hb. vm_compute. reflexivity.
Defined.
End update_witnesses.

(** ** Checkpoints: loading *)
Section load_facts.
Context `{LibOps}.

Lemma load_model_body_no_file (path : string) (s : Solver) :
  disk s !! path = None →
  load_model_body path s = (Raise (mkExn FileNotFoundError path), s).
Proof.
  intros Hd. unfold load_model_body, torch_load. run. by rewrite Hd.
Qed.

Lemma load_model_body_corrupt (path : string) (s : Solver) :
  disk s !! path = Some Corrupt →
  load_model_body path s =
    (Raise (mkExn UnpicklingError "invalid load key"), s).
Proof.
  intros Hd. unfold load_model_body, torch_load. run. by rewrite Hd.
Qed.

Lemma load_model_body_no_meta_policy (path : string) (c : Checkpoint) (s : Solver) :
  disk s !! path = Some (Archive c) →
  ck_meta_policy c = None ∨
    (∃ entry, ck_meta_policy c = Some entry ∧ ck_policy entry = None) →
  ∃ key, load_model_body path s = (Raise (mkExn KeyError key), s).
Proof.
  intros Hd Hc. unfold load_model_body, torch_load. run. rewrite Hd. run.
  unfold policy_load_state_dict, deref_policy. run.
  destruct Hc as [-> | (entry & -> & Hp)].
  - exists "meta_policy"%string. done.
  - exists "policy"%string.
    change (ck_item "meta_policy" (Some entry)) with (Ok entry).
    by rewrite res_bind_Ok, Hp.
Qed.

(** C4, as amended. [load_model] never raises. When reading the archive
    fails (no file at the path, or a corrupt archive) or the archive lacks
    the saved parameters of the meta-policy (no ['meta_policy'] entry, or
    no ['policy'] key in it), the whole solver, with every policy and
    optimizer, is exactly as before the call. *)
Theorem load_model_tolerates_unreadable_checkpoint (path : string) (s : Solver) :
  (load_model path s).1 = Ok tt ∧
  (disk s !! path = None ∨ disk s !! path = Some Corrupt ∨
   (∃ c, disk s !! path = Some (Archive c) ∧
         (ck_meta_policy c = None ∨
          ∃ entry, ck_meta_policy c = Some entry ∧ ck_policy entry = None)) →
   load_model path s = (Ok tt, s)).
Proof.
  split.
  - unfold load_model, try_except.
    by destruct (load_model_body path s) as [[[]|e] s1].
  - unfold load_model, try_except.
    intros [Hd | [Hd | (c & Hd & Hc)]].
    + by rewrite load_model_body_no_file.
    + by rewrite load_model_body_corrupt.
    + by destruct (load_model_body_no_meta_policy path c s Hd Hc) as [key ->].
Qed.
End load_facts.

Section load_witnesses.
Local Existing Instance sample_types.
Local Existing Instance sample_ops.

Lemma load_model_tolerates_unreadable_checkpoint_witness :
  disk sample_solver !! "missing.pt"%string = None ∧
  load_model "missing.pt" sample_solver = (Ok tt, sample_solver).
Proof.
  split; [apply lookup_empty|].
  apply (load_model_tolerates_unreadable_checkpoint "missing.pt" sample_solver).
  left. apply lookup_empty.
Defined.

(** The claim C4 as stated fails: a restoration that fails after its first
    step leaves that step in effect. Here the archive holds parameters for
    the meta-policy but no optimizer state: the body of [load_model] raises
    [KeyError], [load_model] swallows it, and the meta-policy has changed. *)
Lemma load_model_partial_restore_counterexample :
  ¬ (∀ (path : string) (s s1 : Solver) (e : Exn),
       load_model_body path s = (Raise e, s1) →
       meta_policy (load_model path s).2 = meta_policy s).
Proof.
  intros Hclaim.
  specialize (Hclaim "bad.pt"%string sample_solver_bad_archive
                (set_meta_policy [9; 9; 9] sample_solver_bad_archive)
                (mkExn KeyError "optimizer")).
  assert (meta_policy (load_model "bad.pt" sample_solver_bad_archive).2 = [9; 9; 9])
    as Hafter by (vm_compute; reflexivity).
  rewrite Hafter in Hclaim.
  discriminate Hclaim. vm_compute. reflexivity.
Qed.
End load_witnesses.

(** ** Checkpoints: the round trip *)
Section dict_more.
Context {V : Type}.

Lemma dict_get_elem_of (k : Z) (v : V) (d : list (Z * V)) :
  dict_get k d = Some v → (k, v) ∈ d.
Proof.
  intros Hg. apply dict_item_elem_of. unfold dict_item. by rewrite Hg.
Qed.

Lemma dict_get_is_Some (k : Z) (d : list (Z * V)) :
  k ∈ d.*1 → is_Some (dict_get k d).
Proof. intros (v & _ & Hv)%dict_item_Ok. by exists v. Qed.

Lemma dict_item_Some (k : Z) (v : V) (d : list (Z * V)) :
  dict_get k d = Some v → dict_item k d = Ok v.
Proof. intros Hg. unfold dict_item. by rewrite Hg. Qed.

Lemma NoDup_dict_set (k : Z) (v : V) (d : list (Z * V)) :
  NoDup d.*1 → NoDup (dict_set k v d).*1.
Proof.
  intros Hnd. rewrite dict_keys_set.
  destruct (dict_mem k d) eqn:Em; [done|].
  apply dict_mem_false in Em. apply NoDup_app. split_and!; [done| |apply NoDup_singleton].
  by intros k' Hk' ->%list_elem_of_singleton.
Qed.

Lemma elem_of_dict_set_keys (k k' : Z) (v : V) (d : list (Z * V)) :
  k' ∈ (dict_set k v d).*1 ↔ k' = k ∨ k' ∈ d.*1.
Proof.
  rewrite dict_keys_set. destruct (dict_mem k d) eqn:Em.
  - apply dict_mem_true in Em. split; [by right | by intros [->|?]].
  - rewrite elem_of_app, list_elem_of_singleton. tauto.
Qed.
End dict_more.

Section save_facts.
Context `{LibOps}.

(** What [save_model] writes: the state of the meta pair and, for each
    task policy, the state of the policy and of its optimizer. *)
Lemma save_model_run (fname : string) (s : Solver) :
  paired s →
  ∃ tasks,
    save_model fname s =
      (Ok tt,
       set_disk
         (<[os_path_join (model_dir s) fname :=
              Archive (mkCheckpoint
                         (Some (mkCkEntry (Some (state_dict (meta_policy s)))
                                  (Some (opt_state_dict (meta_optimizer s)))))
                         (Some tasks))]> (disk s)) s) ∧
    NoDup tasks.*1 ∧
    (∀ k, k ∈ tasks.*1 ↔ k ∈ (task_policies s).*1) ∧
    Forall (λ ke, ∃ p o,
              dict_get ke.1 (task_policies s) = Some p ∧
              dict_get ke.1 (task_optimizers s) = Some o ∧
              ke.2 = mkCkEntry (Some (state_dict p)) (Some (opt_state_dict o)))
           tasks.
Proof.
  intros Hpaired. unfold save_model, torch_save. run.
  set (tp := task_policies s). set (to := task_optimizers s).
  assert (∀ l : list Z, (∀ k, k ∈ l → k ∈ tp.*1) →
    ∃ ml, for_each (λ task_id, p ← dict_item task_id tp;
                     o ← dict_item task_id to; Ok (task_id, p, o)) l = Ok ml ∧
          (∀ k, k ∈ l ↔ k ∈ ml.*1.*1) ∧
          Forall (λ kpo, dict_get kpo.1.1 tp = Some kpo.1.2 ∧
                         dict_get kpo.1.1 to = Some kpo.2) ml) as Hlist.
  { induction l as [|k l IH]; intros Hl.
    - exists []. split_and!; [done|done|constructor].
    - destruct IH as (ml & Eml & Hkeys & Hall); [intros; apply Hl; by right|].
      destruct (dict_item_Ok k tp) as (p & Ep & Gp); [apply Hl; by left|].
      destruct (dict_item_Ok k to) as (o & Eo & Go); [apply Hpaired, Hl; by left|].
      exists ((k, p, o) :: ml). split_and!.
      + by rewrite for_each_cons, Ep, res_bind_Ok, Eo, !res_bind_Ok, Eml.
      + intros k'. rewrite !fmap_cons, !elem_of_cons. cbn [fst]. by rewrite Hkeys.
      + by constructor. }
  destruct (Hlist (dict_keys tp)) as (ml & -> & Hkeys & Hall); [done|].
  run.
  match goal with |- context [Some (foldl ?f [] ml)] => set (step := f) end.
  assert (∀ acc,
    NoDup acc.*1 →
    Forall (λ ke : Z * CkEntry, ∃ p o,
              dict_get ke.1 tp = Some p ∧ dict_get ke.1 to = Some o ∧
              ke.2 = mkCkEntry (Some (state_dict p)) (Some (opt_state_dict o))) acc →
    NoDup (foldl step acc ml).*1 ∧
    (∀ k, k ∈ (foldl step acc ml).*1 ↔ k ∈ acc.*1 ∨ k ∈ ml.*1.*1) ∧
    Forall (λ ke : Z * CkEntry, ∃ p o,
              dict_get ke.1 tp = Some p ∧ dict_get ke.1 to = Some o ∧
              ke.2 = mkCkEntry (Some (state_dict p)) (Some (opt_state_dict o)))
           (foldl step acc ml)) as Hfold.
  { clear Hkeys. induction Hall as [|[[k p] o] ml [Gp Go] _ IH]; intros acc Hnd Hacc.
    - split_and!; [done| |done]. intros k. rewrite elem_of_nil. tauto.
    - cbn [foldl fst snd] in *.
      destruct (IH (step acc (k, p, o))) as (Hnd' & Hk' & Hall').
      + by apply NoDup_dict_set.
      + apply Forall_dict_set; [|done]. by exists p, o.
      + split_and!; [done| |done].
        intros k'. rewrite Hk'. unfold step at 1.
        rewrite elem_of_dict_set_keys, !fmap_cons, elem_of_cons. cbn [fst]. tauto. }
  destruct (Hfold []) as (Hnd & Hk & Hall'); [constructor|constructor|].
  eexists. split_and!; [done|done| |done].
  intros k. rewrite Hk, <- Hkeys. unfold dict_keys. rewrite elem_of_nil. tauto.
Qed.
End save_facts.

Section restore_facts.
Context `{TorchLaws}.

Lemma uniform_policy (a : Arch) (s : Solver) (k : Z) (p : Policy) :
  uniform a s → dict_get k (task_policies s) = Some p → policy_arch p = a.
Proof.
  intros (_ & _ & Hp & _) Hg%dict_get_elem_of.
  rewrite Forall_forall in Hp. apply (Hp _ Hg).
Qed.

Lemma uniform_optimizer (a : Arch) (s : Solver) (k : Z) (o : Optimizer) :
  uniform a s → dict_get k (task_optimizers s) = Some o → optimizer_arch o = a.
Proof.
  intros (_ & _ & _ & Ho) Hg%dict_get_elem_of.
  rewrite Forall_forall in Ho. apply (Ho _ Hg).
Qed.

(** After [ensure_task_policy] the task has a policy, the one it had or a
    copy of the meta-policy, and an optimizer. *)
Lemma ensure_task_policy_run (a : Arch) (k : Z) (s : Solver) :
  uniform a s → paired s →
  ∃ s1 o,
    ensure_task_policy k s = (Ok tt, s1) ∧
    uniform a s1 ∧ paired s1 ∧
    meta_policy s1 = meta_policy s ∧ meta_optimizer s1 = meta_optimizer s ∧
    dict_get k (task_policies s1) =
      Some (default (meta_policy s) (dict_get k (task_policies s))) ∧
    dict_get k (task_optimizers s1) = Some o ∧
    (∀ k', k' ≠ k →
       dict_get k' (task_policies s1) = dict_get k' (task_policies s) ∧
       dict_get k' (task_optimizers s1) = dict_get k' (task_optimizers s)).
Proof.
  intros Hu Hp. unfold ensure_task_policy. run.
  destruct (dict_mem k (task_policies s)) eqn:Em.
  - apply dict_mem_true in Em.
    destruct (dict_get_is_Some k _ Em) as [p Gp].
    destruct (dict_get_is_Some k _ (Hp k Em)) as [o Go].
    exists s, o. run. rewrite Gp. by split_and!.
  - apply dict_mem_false in Em. pose proof Em as Gp. apply dict_get_None in Gp.
    unfold _init_task_policy_and_task_optimizer, store_policy, store_optimizer,
      deref_policy.
    run. unfold dict_item. rewrite dict_get_set_eq. run.
    destruct Hu as (Hmp & Hmo & Hps & Hos).
    eexists _, _. split; [done|]. fields. rewrite Gp. cbn [default].
    split_and!; try done.
    + unfold uniform. fields. split_and!; [done|done| |].
      * by apply Forall_dict_set.
      * apply Forall_dict_set; [|done]. cbn [snd]. by rewrite Adam_arch.
    + intros k'. unfold paired. fields. rewrite !elem_of_dict_set_keys.
      intros [->|Hk']; [by left | right; by apply Hp].
    + apply dict_get_set_eq.
    + apply dict_get_set_eq.
    + intros k' Hne. by rewrite !dict_get_set_ne.
Qed.

(** One iteration of the loop of [load_model] on a well-formed entry. *)
Lemma load_task_run (a : Arch) (tasks : list (Z * CkEntry)) (k : Z)
    (sd : StateDict) (osd : OptState) (s : Solver) :
  dict_get k tasks = Some (mkCkEntry (Some sd) (Some osd)) →
  state_dict_arch sd = a → opt_state_arch osd = a →
  uniform a s → paired s →
  ∃ s' p' o',
    load_task tasks k s = (Ok tt, s') ∧
    uniform a s' ∧ paired s' ∧
    meta_policy s' = meta_policy s ∧ meta_optimizer s' = meta_optimizer s ∧
    dict_get k (task_policies s') = Some p' ∧ state_dict p' = sd ∧
    p' = (load_state_dict
            (default (meta_policy s) (dict_get k (task_policies s))) sd).1 ∧
    dict_get k (task_optimizers s') = Some o' ∧ opt_state_dict o' = osd ∧
    (∀ k', k' ≠ k →
       dict_get k' (task_policies s') = dict_get k' (task_policies s) ∧
       dict_get k' (task_optimizers s') = dict_get k' (task_optimizers s)).
Proof.
  intros Gk Hsd Hosd Hu Hp.
  destruct (ensure_task_policy_run a k s Hu Hp)
    as (s1 & o & E1 & Hu1 & Hp1 & Hmp1 & Hmo1 & Gp1 & Go1 & Hothers1).
  set (p := default (meta_policy s) (dict_get k (task_policies s))) in *.
  destruct (load_state_dict_fits p sd) as (p' & Ep' & Hp').
  { rewrite Hsd. symmetry. by eapply uniform_policy. }
  destruct (opt_load_state_dict_fits o osd) as (o' & Eo' & Ho').
  { rewrite Hosd. symmetry. by eapply uniform_optimizer. }
  unfold load_task. rewrite run_bind, E1. cbn beta iota.
  unfold policy_load_state_dict, optimizer_load_state_dict, deref_policy,
    deref_optimizer, store_policy, store_optimizer.
  run. rewrite (dict_item_Some _ _ _ Gp1). run.
  rewrite (dict_item_Some _ _ _ Gk), res_bind_Ok. cbn [ck_item ck_policy ck_optimizer].
  run. rewrite Ep'. run. cbn [reraise]. run.
  rewrite (dict_item_Some _ _ _ Go1). run.
  rewrite res_bind_Ok. cbn [ck_item ck_policy ck_optimizer].
  rewrite Eo'. run. cbn [reraise]. run.
  destruct Hu1 as (Hmp & Hmo & Hps & Hos).
  eexists _, p', o'. split; [done|]. fields. cbn [fst].
  split_and!; try done.
  - unfold uniform. fields. split_and!; [done|done| |].
    + apply Forall_dict_set; [|done]. cbn [snd].
      by rewrite <- state_dict_arch_spec, Hp'.
    + apply Forall_dict_set; [|done]. cbn [snd].
      by rewrite <- opt_state_arch_spec, Ho'.
  - intros k'. unfold paired. fields. rewrite !elem_of_dict_set_keys.
    intros [->|Hk']; [by left | right; by apply Hp1].
  - apply dict_get_set_eq.
  - apply dict_get_set_eq.
  - intros k' Hne. rewrite !dict_get_set_ne by done. by apply Hothers1.
Qed.
End restore_facts.

Section round_trip.
Context `{TorchLaws}.

(** The loop of [load_model] over distinct task ids with well-formed
    entries restores each of them and touches nothing else. *)
Lemma load_loop_run (a : Arch) (tasks : list (Z * CkEntry)) (ks : list Z)
    (s : Solver) :
  NoDup ks →
  (∀ k, k ∈ ks → ∃ sd osd,
     dict_get k tasks = Some (mkCkEntry (Some sd) (Some osd)) ∧
     state_dict_arch sd = a ∧ opt_state_arch osd = a) →
  uniform a s → paired s →
  ∃ s',
    for_ ks (load_task tasks) s = (Ok tt, s') ∧
    uniform a s' ∧ paired s' ∧
    meta_policy s' = meta_policy s ∧ meta_optimizer s' = meta_optimizer s ∧
    (∀ k sd osd,
       k ∈ ks → dict_get k tasks = Some (mkCkEntry (Some sd) (Some osd)) →
       ∃ p' o',
         dict_get k (task_policies s') = Some p' ∧ state_dict p' = sd ∧
         p' = (load_state_dict
                 (default (meta_policy s) (dict_get k (task_policies s))) sd).1 ∧
         dict_get k (task_optimizers s') = Some o' ∧ opt_state_dict o' = osd) ∧
    (∀ k, k ∉ ks →
       dict_get k (task_policies s') = dict_get k (task_policies s) ∧
       dict_get k (task_optimizers s') = dict_get k (task_optimizers s)).
Proof.
  intros Hnd. revert s. induction Hnd as [|k ks Hk Hnd IH]; intros s Hent Hu Hp.
  - exists s. split_and!; try done. intros k sd osd Hin. by apply elem_of_nil in Hin.
  - destruct (Hent k) as (sd & osd & Gk & Hsd & Hosd); [by left|].
    destruct (load_task_run a tasks k sd osd s Gk Hsd Hosd Hu Hp)
      as (s1 & p1 & o1 & E1 & Hu1 & Hp1 & Hmp1 & Hmo1 & Gp1 & Sp1 & Ep1 & Go1 & So1 & Hoth1).
    destruct (IH s1) as (s' & E' & Hu' & Hp' & Hmp' & Hmo' & Hin' & Hout');
      [intros; apply Hent; by right | done | done |].
    exists s'. rewrite run_for_cons, E1. split_and!; try done.
    + congruence.
    + congruence.
    + intros k2 sd2 osd2 [->|Hin2]%elem_of_cons Gk2.
      * rewrite Gk in Gk2. injection Gk2 as <- <-.
        destruct (Hout' k Hk) as [-> ->]. by exists p1, o1.
      * destruct (Hin' k2 sd2 osd2 Hin2 Gk2) as (p' & o' & ? & ? & Ep' & ? & ?).
        exists p', o'. split_and!; try done.
        assert (k2 ≠ k) as Hne by (by intros ->).
        destruct (Hoth1 k2 Hne) as [Eq _]. by rewrite Hmp1, Eq in Ep'.
    + intros k2 [Hne Hnin]%not_elem_of_cons.
      destruct (Hout' k2 Hnin) as [-> ->]. by apply Hoth1.
Qed.

Lemma load_model_body_run (a : Arch) (path : string) (sdm : StateDict)
    (osdm : OptState) (tasks : list (Z * CkEntry)) (s : Solver) :
  disk s !! path =
    Some (Archive (mkCheckpoint (Some (mkCkEntry (Some sdm) (Some osdm)))
                                (Some tasks))) →
  state_dict_arch sdm = a → opt_state_arch osdm = a →
  NoDup tasks.*1 →
  (∀ k, k ∈ tasks.*1 → ∃ sd osd,
     dict_get k tasks = Some (mkCkEntry (Some sd) (Some osd)) ∧
     state_dict_arch sd = a ∧ opt_state_arch osd = a) →
  uniform a s → paired s →
  ∃ s',
    load_model_body path s = (Ok tt, s') ∧
    uniform a s' ∧ paired s' ∧
    state_dict (meta_policy s') = sdm ∧
    opt_state_dict (meta_optimizer s') = osdm ∧
    (∀ k sd osd,
       dict_get k tasks = Some (mkCkEntry (Some sd) (Some osd)) →
       ∃ p' o',
         dict_get k (task_policies s') = Some p' ∧ state_dict p' = sd ∧
         p' = (load_state_dict
                 (default (meta_policy s') (dict_get k (task_policies s))) sd).1 ∧
         dict_get k (task_optimizers s') = Some o' ∧ opt_state_dict o' = osd) ∧
    (∀ k, k ∉ tasks.*1 →
       dict_get k (task_policies s') = dict_get k (task_policies s) ∧
       dict_get k (task_optimizers s') = dict_get k (task_optimizers s)).
Proof.
  intros Hd Hsdm Hosdm Hnd Hent Hu Hp.
  pose proof Hu as (Hmp & Hmo & Hps & Hos).
  destruct (load_state_dict_fits (meta_policy s) sdm) as (mp' & Emp & Smp);
    [congruence|].
  destruct (opt_load_state_dict_fits (meta_optimizer s) osdm) as (mo' & Emo & Smo);
    [congruence|].
  set (s0 := set_meta_optimizer mo' (set_meta_policy mp' s)).
  assert (uniform a s0) as Hu0.
  { unfold uniform, s0. fields. split_and!; [| |done|done].
    - by rewrite <- state_dict_arch_spec, Smp.
    - by rewrite <- opt_state_arch_spec, Smo. }
  destruct (load_loop_run a tasks tasks.*1 s0 Hnd Hent Hu0 Hp)
    as (s' & E' & Hu' & Hp' & Hmp' & Hmo' & Hin' & Hout').
  exists s'. split_and!; try done.
  - unfold load_model_body, torch_load. run. rewrite Hd. run.
    unfold policy_load_state_dict, optimizer_load_state_dict, deref_policy,
      deref_optimizer, store_policy, store_optimizer.
    run. cbn [ck_item ck_meta_policy]. rewrite !res_bind_Ok.
    cbn [ck_item ck_policy ck_optimizer ck_task_policies]. run.
    rewrite Emp. run. cbn [reraise]. run. rewrite Emo. run. cbn [reraise]. run.
    exact E'.
  - by rewrite Hmp'.
  - by rewrite Hmo'.
  - intros k sd osd Gk.
    destruct (Hin' k sd osd) as (p' & o' & ? & ? & Ep' & ? & ?); [|done|].
    { apply list_elem_of_fmap. eexists. split; [|by apply dict_get_elem_of]. done. }
    exists p', o'. split_and!; try done. by rewrite Hmp'.
Qed.

(** C5. Saving a solver whose policies and optimizers share one
    architecture, each task policy with its optimizer, succeeds; and
    [load_model] on the file written, run by any solver of that
    architecture that sees the file (the saved solver itself, when nothing
    happened in between), restores without raising: the meta-policy and its
    optimizer and every saved task policy and optimizer report exactly the
    saved state; a task absent from memory is first created from the
    restored meta-policy and then overwritten; tasks that were not saved
    are left alone. *)
Theorem save_load_round_trip (a : Arch) (saver : Solver) (fname : string) :
  uniform a saver → paired saver →
  ∃ saved,
    save_model fname saver = (Ok tt, saved) ∧
    uniform a saved ∧ paired saved ∧
    ∀ loader,
      disk loader !! os_path_join (model_dir saver) fname =
        disk saved !! os_path_join (model_dir saver) fname →
      uniform a loader → paired loader →
      ∃ s',
        load_model (os_path_join (model_dir saver) fname) loader = (Ok tt, s') ∧
        load_model_body (os_path_join (model_dir saver) fname) loader
          = (Ok tt, s') ∧
        state_dict (meta_policy s') = state_dict (meta_policy saver) ∧
        opt_state_dict (meta_optimizer s')
          = opt_state_dict (meta_optimizer saver) ∧
        (∀ k p, dict_get k (task_policies saver) = Some p →
           ∃ o p' o',
             dict_get k (task_optimizers saver) = Some o ∧
             dict_get k (task_policies s') = Some p' ∧
             state_dict p' = state_dict p ∧
             dict_get k (task_optimizers s') = Some o' ∧
             opt_state_dict o' = opt_state_dict o ∧
             (dict_get k (task_policies loader) = None →
              p' = (load_state_dict (meta_policy s') (state_dict p)).1)) ∧
        (∀ k, dict_get k (task_policies saver) = None →
           dict_get k (task_policies s') = dict_get k (task_policies loader) ∧
           dict_get k (task_optimizers s')
             = dict_get k (task_optimizers loader)).
Proof.
  intros Hu Hp.
  destruct (save_model_run fname saver Hp) as (tasks & Esave & Hnd & Hkeys & Hall).
  set (path := os_path_join (model_dir saver) fname) in *.
  eexists. split; [exact Esave|]. split; [done|]. split; [done|].
  intros loader Hdisk Hul Hpl. cbn [disk set_disk] in Hdisk.
  rewrite lookup_insert_eq in Hdisk.
  assert (∀ k, k ∈ tasks.*1 → ∃ sd osd,
     dict_get k tasks = Some (mkCkEntry (Some sd) (Some osd)) ∧
     state_dict_arch sd = a ∧ opt_state_arch osd = a) as Hent.
  { intros k Hk. destruct (dict_get_is_Some k tasks Hk) as [e Ge].
    pose proof (dict_get_elem_of _ _ _ Ge) as Hin.
    rewrite Forall_forall in Hall.
    destruct (Hall _ Hin) as (p & o & Gp & Go & He). cbn [fst snd] in *. subst e.
    eexists _, _. split; [done|].
    rewrite state_dict_arch_spec, opt_state_arch_spec.
    split; [exact (uniform_policy a saver k p Hu Gp)
          | exact (uniform_optimizer a saver k o Hu Go)]. }
  destruct Hu as (Hmp & Hmo & _).
  destruct (load_model_body_run a path _ _ tasks loader Hdisk) as
    (s' & E' & _ & _ & Hmeta & Hmopt & Hin' & Hout'); [..|done|done|done|done|].
  { by rewrite state_dict_arch_spec. }
  { by rewrite opt_state_arch_spec. }
  exists s'. split_and!; try done.
  - unfold load_model, try_except. by rewrite E'.
  - intros k p Gp.
    assert (k ∈ tasks.*1) as Hk.
    { apply Hkeys. apply list_elem_of_fmap. eexists. split; [|by apply dict_get_elem_of]. done. }
    destruct (dict_get_is_Some k tasks Hk) as [e Ge].
    pose proof (dict_get_elem_of _ _ _ Ge) as Hin.
    rewrite Forall_forall in Hall.
    destruct (Hall _ Hin) as (p2 & o & Gp2 & Go & He). cbn [fst snd] in *.
    rewrite Gp in Gp2. injection Gp2 as <-. subst e.
    destruct (Hin' k _ _ Ge) as (p' & o' & Gp' & Sp' & Ep' & Go' & So').
    exists o, p', o'. split_and!; try done.
    intros Gl. by rewrite Gl in Ep'.
  - intros k Gk. apply Hout'. rewrite Hkeys. by apply dict_get_None.
Qed.
End round_trip.

Section round_trip_witnesses.
Local Existing Instance sample_types.
Local Existing Instance sample_ops.
Local Existing Instance sample_laws.

Lemma save_load_round_trip_witness :
  uniform (3%nat : @Arch _ _ sample_laws) sample_solver_trained ∧
  paired sample_solver_trained ∧
  (task_policies sample_solver_trained).*1 = [3; 5] ∧
  task_policies sample_solver_fresh = [] ∧
  ∃ s',
    load_model "save/ck.pt" sample_solver_fresh = (Ok tt, s') ∧
    state_dict (meta_policy s') = state_dict (meta_policy sample_solver_trained) ∧
    ∀ k p, dict_get k (task_policies sample_solver_trained) = Some p →
      ∃ p', dict_get k (task_policies s') = Some p' ∧
            state_dict p' = state_dict p.
Proof.
  assert (uniform (3%nat : @Arch _ _ sample_laws) sample_solver_trained) as Hu.
  { unfold uniform. split_and!; [reflexivity|reflexivity|..];
      vm_compute; repeat constructor. }
  assert (paired sample_solver_trained) as Hp.
  { intros k Hk. vm_compute in Hk |- *. exact Hk. }
  split; [exact Hu|]. split; [exact Hp|].
  split; [vm_compute; reflexivity|]. split; [reflexivity|].
  destruct (save_load_round_trip (3%nat : @Arch _ _ sample_laws)
              sample_solver_trained "ck.pt" Hu Hp)
    as (saved & Esave & _ & _ & Hload).
  assert (saved = sample_solver_saved) as ->.
  { apply (f_equal snd) in Esave. cbn [snd] in Esave. rewrite <- Esave.
    vm_compute. reflexivity. }
  destruct (Hload sample_solver_fresh) as (s' & Eload & _ & Hmeta & _ & Htasks & _).
  - reflexivity.
  - unfold uniform. split_and!; [reflexivity|reflexivity|..];
      vm_compute; repeat constructor.
  - intros k Hk. vm_compute in Hk. by apply elem_of_nil in Hk.
  - exists s'. split; [exact Eload|]. split; [exact Hmeta|].
    intros k p Gp. destruct (Htasks k p Gp) as (o & p' & o' & _ & Gp' & Sp' & _).
    by exists p'.
Defined.
End round_trip_witnesses.

(** ** More on the task distribution and the partitioner *)
Section counting.

Lemma Counter_step_get (k x : Z) (d : list (Z * nat)) :
  dict_get k (dict_set x (S (default 0%nat (dict_get x d))) d) =
  if decide (x = k) then Some (S (default 0%nat (dict_get k d)))
  else dict_get k d.
Proof.
  case_decide as Hx.
  - subst x. apply dict_get_set_eq.
  - by apply dict_get_set_ne.
Qed.

Lemma Counter_fold_get (k : Z) (l : list Z) (acc : list (Z * nat)) :
  dict_get k
    (foldl (λ d x, dict_set x (S (default 0%nat (dict_get x d))) d) acc l) =
  match dict_get k acc with
  | Some c => Some (c + length (filter (λ y, y = k) l))%nat
  | None => if decide (k ∈ l) then Some (length (filter (λ y, y = k) l))
            else None
  end.
Proof.
  revert acc. induction l as [|x l IH]; intros acc.
  - cbn [foldl]. destruct (dict_get k acc) as [c|]; [by rewrite Nat.add_0_r|].
    rewrite decide_False; [done | apply not_elem_of_nil].
  - cbn [foldl]. rewrite IH, Counter_step_get, filter_cons.
    destruct (decide (x = k)) as [->|Hne].
    + cbn [length]. destruct (dict_get k acc) as [c|]; cbn [default]; unfold id.
      * apply (f_equal Some). lia.
      * by rewrite decide_True by left.
    + destruct (dict_get k acc) as [c|]; [done|].
      destruct (decide (k ∈ l)) as [Hin|Hnin].
      * rewrite decide_True; [done | by right].
      * rewrite decide_False; [done|]. rewrite not_elem_of_cons. by split; [intros ->|].
Qed.

Lemma Counter_fold_NoDup (l : list Z) (acc : list (Z * nat)) :
  NoDup acc.*1 →
  NoDup (foldl (λ d x, dict_set x (S (default 0%nat (dict_get x d))) d) acc l).*1.
Proof.
  revert acc. induction l as [|x l IH]; intros acc Hacc; [done|].
  cbn [foldl]. by apply IH, NoDup_dict_set.
Qed.

Lemma Counter_get (k : Z) (l : list Z) :
  dict_get k (Counter l) =
  if decide (k ∈ l) then Some (length (filter (λ y, y = k) l)) else None.
Proof. unfold Counter. by rewrite Counter_fold_get. Qed.

Lemma Counter_NoDup (l : list Z) : NoDup (Counter l).*1.
Proof. apply Counter_fold_NoDup. constructor. Qed.

Lemma Counter_keys (k : Z) (l : list Z) : k ∈ (Counter l).*1 ↔ k ∈ l.
Proof.
  rewrite <- (dict_mem_true k (Counter l)). unfold dict_mem.
  rewrite bool_decide_eq_true, Counter_get.
  case_decide; split; try done; by intros [? ?].
Qed.

(** Positions holding [k] are as many as the occurrences of [k]. *)
Lemma length_np_where_eq (labels : list Z) (k : Z) :
  length (np_where_eq labels k) = length (filter (λ y, y = k) labels).
Proof.
  unfold np_where_eq.
  assert (∀ (pre : list Z),
    length (filter (λ i, (pre ++ labels) !! i = Some k)
                   (seq (length pre) (length labels))) =
    length (filter (λ y, y = k) labels)) as Hgen.
  { induction labels as [|x l IH]; intros pre; [done|].
    cbn [length seq]. rewrite !filter_cons.
    rewrite list_lookup_middle by done.
    specialize (IH (pre ++ [x])).
    rewrite length_app, Nat.add_1_r, <- app_assoc in IH. cbn [app] in IH.
    destruct (decide (Some x = Some k)) as [[= ->]|Hne].
    - rewrite decide_True by done. cbn [length]. by rewrite IH.
    - rewrite decide_False by congruence. done. }
  apply (Hgen []).
Qed.
End counting.

Section split_more.
Context `{LibTypes}.

Lemma index_None {A} (l : list A) (i : nat) :
  l !! i = None → index l i = Raise (mkExn IndexError "index out of range").
Proof. intros Hx. unfold index. by rewrite Hx. Qed.

Lemma take_indices_Ok_inv {A} (l : list A) (idx : list nat) (ys : list A) :
  take_indices l idx = Ok ys → Forall (λ i, (i < length l)%nat) idx.
Proof.
  unfold take_indices. revert ys. induction idx as [|i idx IH]; intros ys; [constructor|].
  rewrite for_each_cons.
  destruct (l !! i) as [x|] eqn:Hx;
    [rewrite (index_Some _ _ _ Hx) | by rewrite (index_None _ _ Hx)].
  rewrite res_bind_Ok.
  destruct (for_each (index l) idx) as [ys'|] eqn:E; [|done].
  intros _. constructor; [by eapply lookup_lt_Some | by eapply IH].
Qed.

Lemma take_indices_Raise {A} (l : list A) (idx : list nat) (e : Exn) :
  take_indices l idx = Raise e → e = mkExn IndexError "index out of range".
Proof.
  unfold take_indices. induction idx as [|i idx IH]; [by simpl|].
  rewrite for_each_cons.
  destruct (l !! i) as [x|] eqn:Hx;
    [rewrite (index_Some _ _ _ Hx)
    | rewrite (index_None _ _ Hx), res_bind_Raise; by intros [= <-]].
  rewrite res_bind_Ok.
  destruct (for_each (index l) idx) as [ys'|e'] eqn:E; [done|].
  rewrite res_bind_Raise. intros [= <-]. by apply IH.
Qed.

Lemma take_indices_all {A} (l : list A) :
  take_indices l (seq 0 (length l)) = Ok l.
Proof.
  assert (∀ pre : list A,
            take_indices (pre ++ l) (seq (length pre) (length l)) = Ok l) as Hgen.
  { unfold take_indices. induction l as [|x l IH]; intros pre; [done|].
    cbn [length seq]. rewrite for_each_cons.
    rewrite (index_Some _ _ x) by (by apply list_lookup_middle).
    rewrite res_bind_Ok. specialize (IH (pre ++ [x])).
    rewrite length_app, Nat.add_1_r, <- app_assoc in IH. cbn [app] in IH.
    by rewrite IH. }
  apply (Hgen []).
Qed.

Lemma selects_aligned (b tb : RolloutBuffer) (idx : list nat) :
  selects b idx tb → aligned tb.
Proof.
  intros (Ho & Ha & Hl & Hr & Ht).
  apply (f_equal length) in Ho. apply (f_equal length) in Ha.
  apply (f_equal length) in Hl. apply (f_equal length) in Hr.
  apply (f_equal length) in Ht.
  rewrite !length_fmap in Ho. rewrite !length_fmap in Ha.
  rewrite !length_fmap in Hl. rewrite !length_fmap in Hr.
  rewrite !length_fmap in Ht.
  unfold aligned. lia.
Qed.

Lemma selects_labels (b tb : RolloutBuffer) (labels : list Z) (k : Z) :
  Forall2 (λ (obs : Observation) n, obs !! "v_net_size"%string = Some (VInt n))
          (observations b) labels →
  selects b (np_where_eq labels k) tb →
  Forall (λ obs : Observation, obs !! "v_net_size"%string = Some (VInt k))
         (observations tb).
Proof.
  intros Hlab (Ho & _). apply Forall_forall. intros obs Hin.
  apply list_elem_of_lookup in Hin as [j Hj].
  assert ((Some <$> observations tb) !! j = Some (Some obs)) as Hj'
      by (by rewrite list_lookup_fmap, Hj).
  rewrite Ho, list_lookup_fmap in Hj'.
  destruct (np_where_eq labels k !! j) as [i|] eqn:Hi; [|done].
  cbn in Hj'. injection Hj' as Hobs.
  assert (labels !! i = Some k) as Hk.
  { apply elem_of_np_where_eq. by eapply list_elem_of_lookup_2. }
  destruct (Forall2_lookup_l _ _ _ _ _ Hlab Hobs) as (n & Hn & Hon).
  congruence.
Qed.

(** The partitioner on a labelled, index-aligned buffer. *)
Lemma split_buffer_run (b : RolloutBuffer) :
  labelled b → aligned b →
  ∃ labels tbs,
    v_net_size_list b = Ok labels ∧
    Forall2 (λ (obs : Observation) n, obs !! "v_net_size"%string = Some (VInt n))
            (observations b) labels ∧
    _split_buffer b = Ok tbs ∧
    tbs.*1 = sorted (py_set labels) ∧
    Forall (λ kt, selects b (np_where_eq labels kt.1) kt.2 ∧
                  action_masks kt.2 = []) tbs.
Proof.
  intros Hlab Hal.
  destruct (v_net_size_list_Ok b Hlab) as (labels & Elab & Hobs).
  assert (length labels = length (observations b)) as Hlen
    by (symmetry; by eapply Forall2_length).
  destruct (sorted_py_set labels) as [Hsorted Hmem].
  destruct (split_loop_Ok b labels (sorted (py_set labels)) [])
    as (tbs & Etbs & Hkeys & Hall);
    [done | done | by apply StronglySorted_lt_NoDup
     | intros; apply not_elem_of_nil |].
  rewrite app_nil_l in Etbs.
  exists labels, tbs. split_and!; try done.
  unfold _split_buffer. rewrite Elab, res_bind_Ok. cbn zeta.
  rewrite Etbs, res_bind_Ok. unfold dict_keys.
  rewrite sorted_id by (by rewrite Hkeys).
  apply dict_items_keys. rewrite Hkeys. by apply StronglySorted_lt_NoDup.
Qed.

(** X1. On a buffer whose observations are all labelled, the task
    distribution has one entry per distinct label, the entry of a label
    counts its occurrences, and the counts add up to the number of
    steps. *)
Theorem stats_task_dist_counts (b : RolloutBuffer) :
  labelled b →
  ∃ labels d,
    v_net_size_list b = Ok labels ∧
    _stats_task_dist b = Ok d ∧
    NoDup d.*1 ∧
    (∀ k, dict_get k d =
          if decide (k ∈ labels)
          then Some (length (filter (λ y, y = k) labels)) else None) ∧
    sum_list d.*2 = size b.
Proof.
  intros Hlab. destruct (v_net_size_list_Ok b Hlab) as (labels & Elab & Hobs).
  exists labels, (Counter labels). split_and!.
  - done.
  - unfold _stats_task_dist. by rewrite Elab.
  - apply Counter_NoDup.
  - intros k. apply Counter_get.
  - assert ((Counter labels).*2 =
            (λ k, length (filter (λ y, y = k) labels)) <$> (Counter labels).*1)
      as ->.
    { rewrite <- list_fmap_compose. apply list_fmap_ext.
      intros i [k c] Hi. cbn.
      assert (dict_get k (Counter labels) = Some c) as Hc.
      { pose proof (dict_item_elem_of_NoDup k c (Counter labels)
                      (Counter_NoDup labels)) as Hitem.
        unfold dict_item in Hitem.
        destruct (dict_get k (Counter labels)) as [c'|] eqn:E.
        - by injection (Hitem (list_elem_of_lookup_2 _ _ _ Hi)) as ->.
        - by specialize (Hitem (list_elem_of_lookup_2 _ _ _ Hi)). }
      rewrite Counter_get in Hc. case_decide; congruence. }
    rewrite <- length_concat_fmap.
    rewrite (concat_filter_classes (λ k y, y = k)).
    + unfold size. symmetry. by eapply Forall2_length.
    + apply Counter_NoDup.
    + intros x k1 k2 -> ->. done.
    + intros x Hx. exists x. split; [by apply Counter_keys | done].
Qed.

(** X2. The task distribution and the split of the same buffer agree: they
    have the same task ids, and the count of a task is the size of its
    sub-buffer. *)
Theorem split_buffer_agrees_with_task_dist (b : RolloutBuffer) :
  labelled b → aligned b →
  ∃ d tbs,
    _stats_task_dist b = Ok d ∧ _split_buffer b = Ok tbs ∧
    (∀ k, k ∈ d.*1 ↔ k ∈ tbs.*1) ∧
    (∀ k c tb, dict_get k d = Some c → dict_get k tbs = Some tb → size tb = c).
Proof.
  intros Hlab Hal.
  destruct (split_buffer_run b Hlab Hal) as (labels & tbs & Elab & Hobs & Etbs & Hkeys & Hall).
  exists (Counter labels), tbs. split_and!.
  - unfold _stats_task_dist. by rewrite Elab.
  - done.
  - intros k. rewrite Counter_keys, Hkeys. symmetry. apply sorted_py_set.
  - intros k c tb Hc Htb. rewrite Counter_get in Hc.
    apply dict_get_elem_of in Htb. rewrite Forall_forall in Hall.
    destruct (Hall _ Htb) as [Hsel _]. cbn [fst snd] in Hsel.
    rewrite (selects_size _ _ _ Hsel), length_np_where_eq.
    case_decide; congruence.
Qed.

(** X3. Every sub-buffer of the split is itself a well-formed buffer for
    one task: its sequences are index-aligned, it has at least one step,
    and all its observations carry the task id it is stored under. *)
Theorem split_buffer_sub_buffers_well_formed (b : RolloutBuffer) :
  labelled b → aligned b →
  ∃ tbs,
    _split_buffer b = Ok tbs ∧
    Forall (λ kt,
      aligned kt.2 ∧ (0 < size kt.2)%nat ∧
      Forall (λ obs : Observation,
                obs !! "v_net_size"%string = Some (VInt kt.1))
             (observations kt.2)) tbs.
Proof.
  intros Hlab Hal.
  destruct (split_buffer_run b Hlab Hal) as (labels & tbs & Elab & Hobs & Etbs & Hkeys & Hall).
  exists tbs. split; [done|]. apply Forall_forall. intros [k tb] Hin.
  rewrite Forall_forall in Hall. destruct (Hall _ Hin) as [Hsel _].
  cbn [fst snd] in *. split_and!.
  - by eapply selects_aligned.
  - rewrite (selects_size _ _ _ Hsel).
    assert (k ∈ labels) as Hk.
    { apply sorted_py_set. rewrite <- Hkeys. apply list_elem_of_fmap. by exists (k, tb). }
    apply list_elem_of_lookup in Hk as [i Hi].
    apply elem_of_np_where_eq in Hi.
    destruct (np_where_eq labels k); [by apply elem_of_nil in Hi | cbn; lia].
  - by eapply selects_labels.
Qed.

Lemma v_net_size_of_None (o : Observation) :
  o !! "v_net_size"%string = None →
  v_net_size_of o = Raise (mkExn KeyError "'v_net_size'").
Proof. unfold v_net_size_of. by intros ->. Qed.

Lemma v_net_size_list_missing (obs : list Observation) :
  Forall (λ o : Observation,
            o !! "v_net_size"%string = None ∨
            ∃ n, o !! "v_net_size"%string = Some (VInt n)) obs →
  Exists (λ o : Observation, o !! "v_net_size"%string = None) obs →
  for_each v_net_size_of obs = Raise (mkExn KeyError "'v_net_size'").
Proof.
  induction 1 as [|o obs Ho _ IH]; intros Hex; [by apply Exists_nil in Hex|].
  rewrite for_each_cons. destruct Ho as [Ho | [n Ho]].
  - by rewrite (v_net_size_of_None _ Ho), res_bind_Raise.
  - rewrite (v_net_size_of_Ok _ _ Ho), res_bind_Ok.
    apply Exists_cons in Hex as [Hex|Hex]; [congruence|].
    by rewrite IH.
Qed.

(** X4. If some observation lacks the ['v_net_size'] field (the others
    having an integer there), both the task distribution and the split
    raise the [KeyError] of that lookup. *)
Theorem split_buffer_missing_label (b : RolloutBuffer) :
  Forall (λ o : Observation,
            o !! "v_net_size"%string = None ∨
            ∃ n, o !! "v_net_size"%string = Some (VInt n)) (observations b) →
  Exists (λ o : Observation, o !! "v_net_size"%string = None)
         (observations b) →
  _stats_task_dist b = Raise (mkExn KeyError "'v_net_size'") ∧
  _split_buffer b = Raise (mkExn KeyError "'v_net_size'").
Proof.
  intros Hall Hex. unfold _stats_task_dist, _split_buffer, v_net_size_list.
  by rewrite (v_net_size_list_missing _ Hall Hex).
Qed.

Lemma split_task_run (b : RolloutBuffer) (labels : list Z) (k : Z)
    (acc : list (Z * RolloutBuffer)) :
  long_enough b → length labels = size b → k ∉ acc.*1 →
  ∃ tb, split_task b labels k acc = Ok (acc ++ [(k, tb)]) ∧
        selects b (np_where_eq labels k) tb ∧ action_masks tb = [].
Proof.
  intros (Ha & Hl & Hr & Ht) Hlen Hk. unfold size in *.
  assert (∀ n, (length labels ≤ n)%nat →
            Forall (λ i, (i < n)%nat) (np_where_eq labels k)) as Hidx.
  { intros n Hn. apply Forall_forall. intros i Hi%elem_of_np_where_eq.
    apply lookup_lt_Some in Hi. lia. }
  destruct (take_indices_Ok (observations b) (np_where_eq labels k))
    as (obs & Eobs & Sobs); [apply Hidx; lia|].
  destruct (take_indices_Ok (actions b) (np_where_eq labels k))
    as (acts & Eacts & Sacts); [apply Hidx; lia|].
  destruct (take_indices_Ok (logprobs b) (np_where_eq labels k))
    as (lps & Elps & Slps); [apply Hidx; lia|].
  destruct (take_indices_Ok (rewards b) (np_where_eq labels k))
    as (rews & Erews & Srews); [apply Hidx; lia|].
  destruct (take_indices_Ok (returns b) (np_where_eq labels k))
    as (rets & Erets & Srets); [apply Hidx; lia|].
  exists (mkBuffer obs acts lps rews rets []).
  unfold split_task. rewrite Eobs, Eacts, Elps, Erews, Erets. simpl.
  by rewrite dict_set_fresh.
Qed.

Lemma split_loop_run (b : RolloutBuffer) (labels ks : list Z)
    (acc : list (Z * RolloutBuffer)) :
  long_enough b → length labels = size b →
  NoDup ks → (∀ k, k ∈ ks → k ∉ acc.*1) →
  ∃ tbs, split_loop b labels ks acc = Ok (acc ++ tbs) ∧ tbs.*1 = ks ∧
    Forall (λ kt, selects b (np_where_eq labels kt.1) kt.2 ∧
                  action_masks kt.2 = []) tbs.
Proof.
  intros Hal Hlen Hnd. revert acc.
  induction Hnd as [|k ks Hk Hnd IH]; intros acc Hfresh.
  - exists []. by rewrite app_nil_r.
  - destruct (split_task_run b labels k acc) as (tb & Etb & Htb); [done..| |].
    { apply Hfresh. by left. }
    destruct (IH (acc ++ [(k, tb)])) as (tbs & Etbs & Hkeys & Hall).
    { intros k' Hk'. rewrite fmap_app, not_elem_of_app. split.
      - apply Hfresh. by right.
      - simpl. rewrite list_elem_of_singleton. by intros ->. }
    exists ((k, tb) :: tbs). split_and!.
    + simpl. rewrite Etb. simpl. by rewrite Etbs, <- app_assoc.
    + by rewrite fmap_cons, Hkeys.
    + by constructor.
Qed.

Lemma split_loop_Raise (b : RolloutBuffer) (labels ks : list Z)
    (acc : list (Z * RolloutBuffer)) (e : Exn) :
  split_loop b labels ks acc = Raise e →
  e = mkExn IndexError "index out of range".
Proof.
  revert acc. induction ks as [|k ks IH]; intros acc; [by simpl|].
  cbn [split_loop].
  destruct (split_task b labels k acc) as [acc'|e'] eqn:E.
  - rewrite res_bind_Ok. apply IH.
  - rewrite res_bind_Raise. intros [= <-]. revert E. unfold split_task.
    repeat match goal with
           | |- context [take_indices ?l ?idx] =>
               let E := fresh "E" in
               destruct (take_indices l idx) eqn:E;
                 [rewrite res_bind_Ok
                 | rewrite res_bind_Raise; intros [= <-];
                   by eapply take_indices_Raise]
           end.
    done.
Qed.

Lemma split_loop_Ok_inv (b : RolloutBuffer) (labels ks : list Z)
    (acc d : list (Z * RolloutBuffer)) (k : Z) (i : nat) :
  split_loop b labels ks acc = Ok d → k ∈ ks → i ∈ np_where_eq labels k →
  (i < length (actions b))%nat ∧ (i < length (logprobs b))%nat ∧
  (i < length (rewards b))%nat ∧ (i < length (returns b))%nat.
Proof.
  revert acc. induction ks as [|k' ks IH]; intros acc Hrun Hk Hi;
    [by apply elem_of_nil in Hk|].
  cbn [split_loop] in Hrun.
  destruct (split_task b labels k' acc) as [acc'|e'] eqn:E; [|done].
  rewrite res_bind_Ok in Hrun.
  apply elem_of_cons in Hk as [->|Hk]; [|by eapply IH].
  revert E. unfold split_task.
  destruct (take_indices (observations b) _) as [?|?] eqn:E0; [|done].
  destruct (take_indices (actions b) _) as [?|?] eqn:E1; [|done].
  destruct (take_indices (logprobs b) _) as [?|?] eqn:E2; [|done].
  destruct (take_indices (rewards b) _) as [?|?] eqn:E3; [|done].
  destruct (take_indices (returns b) _) as [?|?] eqn:E4; [|done].
  intros _.
  apply take_indices_Ok_inv in E1, E2, E3, E4.
  rewrite Forall_forall in E1, E2, E3, E4. split_and!; eauto.
Qed.

Lemma split_buffer_short (b : RolloutBuffer) :
  labelled b → ¬ long_enough b →
  _split_buffer b = Raise (mkExn IndexError "index out of range").
Proof.
  intros Hlab Hshort.
  destruct (v_net_size_list_Ok b Hlab) as (labels & Elab & Hobs).
  assert (length labels = size b) as Hlen
    by (symmetry; by eapply Forall2_length).
  destruct (sorted_py_set labels) as [Hsorted Hmem].
  unfold _split_buffer. rewrite Elab, res_bind_Ok. cbn zeta.
  destruct (split_loop b labels (sorted (py_set labels)) []) as [d|e] eqn:E.
  - exfalso. apply Hshort.
    assert (∀ i, (i < length labels)%nat →
      (i < length (actions b))%nat ∧ (i < length (logprobs b))%nat ∧
      (i < length (rewards b))%nat ∧ (i < length (returns b))%nat) as Hin.
    { intros i Hi. destruct (lookup_lt_is_Some_2 labels i Hi) as [k Hk].
      eapply (split_loop_Ok_inv _ _ _ _ _ k i E).
      - apply Hmem. by eapply list_elem_of_lookup_2.
      - by apply elem_of_np_where_eq. }
    unfold long_enough. rewrite <- Hlen.
    destruct (length labels) as [|n] eqn:En; [lia|].
    specialize (Hin n ltac:(lia)). lia.
  - rewrite res_bind_Raise. f_equal. by eapply split_loop_Raise.
Qed.

(** X5. For a buffer whose observations are all labelled, the split
    succeeds exactly when each of the four other sequences is at least as
    long as the observations: it then selects by position of observation
    (entries beyond the last observation go to no sub-buffer), and
    otherwise it raises [IndexError]. A buffer without observations always
    splits into the empty mapping. *)
Theorem split_buffer_needs_long_enough (b : RolloutBuffer) :
  labelled b →
  (long_enough b →
   ∃ labels tbs,
     v_net_size_list b = Ok labels ∧ _split_buffer b = Ok tbs ∧
     Forall (λ kt, selects b (np_where_eq labels kt.1) kt.2) tbs) ∧
  (¬ long_enough b →
   _split_buffer b = Raise (mkExn IndexError "index out of range")) ∧
  (observations b = [] → _split_buffer b = Ok []).
Proof.
  intros Hlab.
  destruct (v_net_size_list_Ok b Hlab) as (labels & Elab & Hobs).
  assert (length labels = size b) as Hlen
    by (symmetry; by eapply Forall2_length).
  destruct (sorted_py_set labels) as [Hsorted Hmem].
  split_and!.
  - intros Hlong.
    destruct (split_loop_run b labels (sorted (py_set labels)) [])
      as (tbs & Etbs & Hkeys & Hall);
      [done | done | by apply StronglySorted_lt_NoDup
       | intros; apply not_elem_of_nil |].
    rewrite app_nil_l in Etbs. exists labels, tbs. split_and!; [done| |].
    + unfold _split_buffer. rewrite Elab, res_bind_Ok. cbn zeta.
      rewrite Etbs, res_bind_Ok. unfold dict_keys.
      rewrite sorted_id by (by rewrite Hkeys).
      apply dict_items_keys. rewrite Hkeys. by apply StronglySorted_lt_NoDup.
    + eapply Forall_impl; [done|]. by intros kt [? _].
  - by apply split_buffer_short.
  - intros Hnil. unfold _split_buffer, v_net_size_list. by rewrite Hnil.
Qed.

Lemma filter_all {A} (P : A → Prop) `{∀ x, Decision (P x)} (l : list A) :
  Forall P l → filter P l = l.
Proof.
  induction 1 as [|x l Hx _ IH]; [done|]. by rewrite filter_cons_True, IH.
Qed.

Lemma lookup_seq_all {A} (l : list A) :
  (λ i, l !! i) <$> seq 0 (length l) = Some <$> l.
Proof.
  apply list_eq. intros i. rewrite !list_lookup_fmap.
  destruct (decide (i < length l)%nat) as [Hi|Hi].
  - rewrite lookup_seq_lt by done. simpl.
    destruct (lookup_lt_is_Some_2 l i Hi) as [x Hx]. by rewrite Hx.
  - rewrite lookup_seq_ge by lia. by rewrite lookup_ge_None_2 by lia.
Qed.

Lemma selects_all (b tb : RolloutBuffer) :
  aligned b → selects b (seq 0 (size b)) tb → action_masks tb = [] →
  tb = mkBuffer (observations b) (actions b) (logprobs b) (rewards b)
                (returns b) [].
Proof.
  intros (Ha & Hl & Hr & Ht) (So & Sa & Sl & Sr & St) Hm. unfold size in *.
  rewrite lookup_seq_all in So.
  rewrite <- Ha, lookup_seq_all in Sa. rewrite <- Hl, lookup_seq_all in Sl.
  rewrite <- Hr, lookup_seq_all in Sr. rewrite <- Ht, lookup_seq_all in St.
  apply (inj (fmap Some)) in So, Sa, Sl, Sr, St.
  destruct tb; simpl in *. by subst.
Qed.

Lemma v_net_size_list_one_task (b : RolloutBuffer) (k : Z) :
  Forall (λ obs : Observation, obs !! "v_net_size"%string = Some (VInt k))
         (observations b) →
  v_net_size_list b = Ok (replicate (size b) k).
Proof.
  unfold v_net_size_list, size. induction 1 as [|o obs Ho _ IH]; [done|].
  by rewrite for_each_cons, (v_net_size_of_Ok _ _ Ho), res_bind_Ok, IH.
Qed.

Lemma np_where_eq_replicate (n : nat) (k : Z) :
  np_where_eq (replicate n k) k = seq 0 n.
Proof.
  unfold np_where_eq. rewrite length_replicate. apply filter_all.
  apply Forall_forall. intros i Hi%elem_of_seq.
  apply lookup_replicate_2. lia.
Qed.

Lemma split_buffer_single (b : RolloutBuffer) (k : Z) :
  (0 < size b)%nat →
  Forall (λ obs : Observation, obs !! "v_net_size"%string = Some (VInt k))
         (observations b) →
  aligned b →
  _split_buffer b =
    Ok [(k, mkBuffer (observations b) (actions b) (logprobs b) (rewards b)
                     (returns b) [])].
Proof.
  intros Hne Hall Hal.
  assert (labelled b) as Hlab.
  { eapply Forall_impl; [exact Hall|]. intros o Ho. by exists k. }
  destruct (split_buffer_run b Hlab Hal)
    as (labels & tbs & Elab & _ & -> & Hkeys & Hsel).
  rewrite (v_net_size_list_one_task b k Hall) in Elab.
  injection Elab as <-.
  destruct (sorted_py_set (replicate (size b) k)) as [Hs Hm].
  assert (∀ x, x ∈ sorted (py_set (replicate (size b) k)) ↔ x = k) as Hm'.
  { intros x. rewrite Hm, elem_of_replicate. split; [by intros [? _]|].
    intros ->. split; [done|lia]. }
  assert (sorted (py_set (replicate (size b) k)) = [k]) as Ekeys.
  { apply StronglySorted_lt_NoDup in Hs.
    destruct (sorted (py_set (replicate (size b) k))) as [|x [|y l]].
    - exfalso. by eapply not_elem_of_nil, Hm'.
    - f_equal. apply Hm'. by left.
    - exfalso. apply NoDup_cons in Hs as [Hx _].
      assert (x = k) as -> by (apply Hm'; by left).
      assert (y = k) as -> by (apply Hm'; right; by left).
      apply Hx. by left. }
  rewrite Ekeys in Hkeys.
  destruct tbs as [|[k' tb] [|? ?]]; try done.
  injection Hkeys as ->.
  apply Forall_singleton in Hsel as [Hsel Hmask]. simpl in Hsel, Hmask.
  rewrite np_where_eq_replicate in Hsel.
  by rewrite (selects_all b tb Hal Hsel Hmask).
Qed.

(** X6. A non-empty aligned buffer all of whose steps carry the same task
    id splits into that single task, whose sub-buffer holds the buffer's
    own five sequences and no action masks. *)
Theorem split_buffer_one_task (b : RolloutBuffer) (k : Z) :
  observations b ≠ [] →
  Forall (λ obs : Observation, obs !! "v_net_size"%string = Some (VInt k))
         (observations b) →
  aligned b →
  _split_buffer b =
    Ok [(k, mkBuffer (observations b) (actions b) (logprobs b) (rewards b)
                     (returns b) [])].
Proof.
  intros Hne Hall Hal. apply split_buffer_single; [|done..].
  unfold size. destruct (observations b); [done|simpl; lia].
Qed.

(** X7. Splitting is idempotent on its results: each sub-buffer of a
    split, split again, gives back that sub-buffer alone under its own
    task id. *)
Theorem split_buffer_idempotent (b : RolloutBuffer) :
  labelled b → aligned b →
  ∃ tbs, _split_buffer b = Ok tbs ∧
    Forall (λ kt, _split_buffer kt.2 = Ok [kt]) tbs.
Proof.
  intros Hlab Hal.
  destruct (split_buffer_run b Hlab Hal)
    as (labels & tbs & Elab & Hobs & Etbs & Hkeys & Hsel).
  destruct (sorted_py_set labels) as [_ Hmem].
  exists tbs. split; [done|]. apply Forall_forall. intros [k tb] Hin.
  pose proof (proj1 (Forall_forall _ _) Hsel _ Hin) as [Hs Hm].
  simpl in Hs, Hm. simpl.
  assert (k ∈ labels) as Hk.
  { apply Hmem. rewrite <- Hkeys. apply list_elem_of_fmap. by exists (k, tb). }
  assert (length labels = size b) as Hlen
    by (symmetry; by eapply Forall2_length).
  rewrite (split_buffer_single tb k).
  - destruct tb; simpl in *. by subst.
  - rewrite (selects_size _ _ _ Hs), length_np_where_eq.
    apply list_elem_of_lookup in Hk as [i Hi]. 
    assert (k ∈ filter (λ y, y = k) labels) as Hf.
    { apply list_elem_of_filter. split; [done|by eapply list_elem_of_lookup_2]. }
    destruct (filter (λ y, y = k) labels); [by apply elem_of_nil in Hf|].
    simpl. lia.
  - by eapply selects_labels.
  - by eapply selects_aligned.
Qed.
End split_more.

Ltac sample_observations :=
  let Hobs := fresh "Hobs" in
  apply Forall_forall; intros ? Hobs;
  repeat (apply elem_of_cons in Hobs as [->|Hobs];
          [first [by eexists | by vm_compute]|]);
  by apply elem_of_nil in Hobs.

Section split_more_witnesses.
Local Existing Instance sample_types.

Lemma stats_task_dist_counts_witness :
  ∃ labels d,
    v_net_size_list sample_buffer = Ok labels ∧
    _stats_task_dist sample_buffer = Ok d ∧
    NoDup d.*1 ∧
    (∀ k, dict_get k d = if decide (k ∈ labels)
          then Some (length (filter (λ y, y = k) labels)) else None) ∧
    sum_list d.*2 = size sample_buffer.
Proof.
  apply (@stats_task_dist_counts sample_types sample_buffer).
  sample_observations.
Defined.

Lemma split_buffer_agrees_with_task_dist_witness :
  ∃ d tbs, _stats_task_dist sample_buffer = Ok d ∧
    _split_buffer sample_buffer = Ok tbs ∧
    (∀ k, k ∈ d.*1 ↔ k ∈ tbs.*1) ∧
    (∀ k c tb, dict_get k d = Some c → dict_get k tbs = Some tb → size tb = c).
Proof.
  apply (@split_buffer_agrees_with_task_dist sample_types sample_buffer).
  - sample_observations.
  - by repeat split.
Defined.

Lemma split_buffer_sub_buffers_well_formed_witness :
  ∃ tbs, _split_buffer sample_buffer = Ok tbs ∧
    Forall (λ kt, aligned kt.2 ∧ (0 < size kt.2)%nat ∧
      Forall (λ obs : Observation, obs !! "v_net_size"%string = Some (VInt kt.1))
             (observations kt.2)) tbs.
Proof.
  apply (@split_buffer_sub_buffers_well_formed sample_types sample_buffer).
  - sample_observations.
  - by repeat split.
Defined.

Lemma split_buffer_missing_label_witness :
  _stats_task_dist sample_buffer_unlabelled =
    Raise (mkExn KeyError "'v_net_size'") ∧
  _split_buffer sample_buffer_unlabelled =
    Raise (mkExn KeyError "'v_net_size'").
Proof.
  apply (@split_buffer_missing_label sample_types sample_buffer_unlabelled).
  - apply Forall_cons. split; [right; by eexists|].
    apply Forall_cons. split; [by left|]. apply Forall_nil_2.
  - apply Exists_cons. right. apply Exists_cons. by left.
Defined.

Lemma split_buffer_needs_long_enough_witness :
  long_enough sample_buffer ∧ ¬ long_enough sample_buffer_short ∧
  (∃ labels tbs,
     v_net_size_list sample_buffer = Ok labels ∧
     _split_buffer sample_buffer = Ok tbs ∧
     Forall (λ kt, selects sample_buffer (np_where_eq labels kt.1) kt.2) tbs) ∧
  _split_buffer sample_buffer_short =
    Raise (mkExn IndexError "index out of range").
Proof.
  assert (long_enough sample_buffer) as Hlong
    by (unfold long_enough; cbn; lia).
  assert (¬ long_enough sample_buffer_short) as Hshort
    by (unfold long_enough; cbn; lia).
  split_and!; [done..| |].
  - apply (@split_buffer_needs_long_enough sample_types sample_buffer);
      [sample_observations|done].
  - apply (@split_buffer_needs_long_enough sample_types sample_buffer_short);
      [sample_observations|done].
Defined.

Lemma split_buffer_one_task_witness :
  _split_buffer sample_buffer_task5 =
    Ok [(5, mkBuffer (observations sample_buffer_task5)
                     (actions sample_buffer_task5)
                     (logprobs sample_buffer_task5)
                     (rewards sample_buffer_task5)
                     (returns sample_buffer_task5) [])].
Proof.
  apply (@split_buffer_one_task sample_types sample_buffer_task5 5).
  - done.
  - sample_observations.
  - by repeat split.
Defined.

Lemma split_buffer_idempotent_witness :
  ∃ tbs, _split_buffer sample_buffer = Ok tbs ∧
    Forall (λ kt, _split_buffer kt.2 = Ok [kt]) tbs.
Proof.
  apply (@split_buffer_idempotent sample_types sample_buffer).
  - sample_observations.
  - by repeat split.
Defined.
End split_more_witnesses.

(** ** Creating and activating task policies *)
Section learning_facts.
Context `{LibOps}.

Lemma init_task_run (k : Z) (s : Solver) :
  _init_task_policy_and_task_optimizer k s =
    (Ok tt,
     set_task_optimizers
       (dict_set k (Adam (meta_policy s) (lr s)) (task_optimizers s))
       (set_task_policies (dict_set k (meta_policy s) (task_policies s)) s)).
Proof.
  unfold _init_task_policy_and_task_optimizer, store_policy, store_optimizer,
    deref_policy.
  run. unfold dict_item. rewrite dict_get_set_eq. by run.
Qed.


Lemma learn_with_instance_run {R} (super_learn : Instance → M R)
    (instance : Instance) (s : Solver) :
  let k := num_nodes (v_net instance) in
  let s1 := if dict_mem k (task_policies s) then s
            else (_init_task_policy_and_task_optimizer k s).2 in
  learn_with_instance super_learn instance s =
    match dict_item k (task_optimizers s1) with
    | Ok _ => super_learn instance
                (set_optimizer (TaskOptimizer k) (set_policy (TaskPolicy k) s1))
    | Raise e => (Raise e, set_policy (TaskPolicy k) s1)
    end.
Proof.
  intros k s1. unfold learn_with_instance. fold k. run.
  destruct (dict_mem k (task_policies s)) eqn:Em; cbn [negb]; subst s1.
  - run. apply dict_mem_true, dict_item_Ok in Em as (p & -> & _). run.
    destruct (dict_item k (task_optimizers s)); by run.
  - rewrite init_task_run. cbn [snd]. run.
    unfold dict_item at 1. rewrite dict_get_set_eq. run.
    unfold dict_item. rewrite dict_get_set_eq. by run.
Qed.

Lemma learn_reaches_inherited {R}
    (super_learn : Instance → M R) (instance : Instance) (s : Solver) :
  paired s →
  ∃ s1, learn_with_instance super_learn instance s = super_learn instance s1 ∧
        paired s1.
Proof.
  intros Hp. rewrite learn_with_instance_run.
  set (k := num_nodes (v_net instance)).
  destruct (dict_mem k (task_policies s)) eqn:Em.
  - apply dict_mem_true in Em.
    destruct (dict_item_Ok k _ (Hp k Em)) as (o & -> & Go). by eexists.
  - rewrite init_task_run. cbn [snd]. fields.
    unfold dict_item. rewrite dict_get_set_eq. eexists. split; [done|].
    intros j. fields. rewrite !elem_of_dict_set_keys.
    intros [->|Hj]; [by left | right; by apply Hp].
Qed.

(** X9. On a solver whose task policies all have their optimizer,
    [learn_with_instance] always reaches the inherited method, and does so
    with the pair of the instance's size active: the pair already stored
    under that size, untouched, or else a fresh copy of the meta-policy
    with a new optimizer. Nothing but the two dictionaries and the two
    active references differs from the world it was called in; the policy
    of the searcher in particular is not redirected. *)
Theorem learn_with_instance_activates_task_pair {R}
    (super_learn : Instance → M R) (instance : Instance) (s : Solver) :
  paired s →
  let k := num_nodes (v_net instance) in
  ∃ s1 p o,
    learn_with_instance super_learn instance s = super_learn instance s1 ∧
    policy s1 = TaskPolicy k ∧ optimizer s1 = TaskOptimizer k ∧
    dict_get k (task_policies s1) = Some p ∧
    dict_get k (task_optimizers s1) = Some o ∧
    p = default (meta_policy s) (dict_get k (task_policies s)) ∧
    (k ∈ (task_policies s).*1 →
       task_policies s1 = task_policies s ∧
       task_optimizers s1 = task_optimizers s) ∧
    (k ∉ (task_policies s).*1 → o = Adam (meta_policy s) (lr s)) ∧
    (∀ j, j ≠ k →
       dict_get j (task_policies s1) = dict_get j (task_policies s) ∧
       dict_get j (task_optimizers s1) = dict_get j (task_optimizers s)) ∧
    paired s1 ∧
    s1 = set_optimizer (TaskOptimizer k) (set_policy (TaskPolicy k)
           (set_task_optimizers (task_optimizers s1)
              (set_task_policies (task_policies s1) s))).
Proof.
  intros Hp k. rewrite learn_with_instance_run. fold k.
  destruct (dict_mem k (task_policies s)) eqn:Em.
  - apply dict_mem_true in Em.
    destruct (dict_item_Ok k _ Em) as (p & _ & Gp).
    destruct (dict_item_Ok k _ (Hp k Em)) as (o & -> & Go).
    eexists _, p, o. split; [done|]. fields. rewrite Gp. cbn [default].
    split_and!; try done.
  - apply dict_mem_false in Em. rewrite init_task_run. cbn [snd]. fields.
    unfold dict_item. rewrite dict_get_set_eq.
    eexists _, _, _. split; [done|]. fields.
    rewrite !dict_get_set_eq. rewrite (proj2 (dict_get_None _ _) Em).
    cbn [default]. split_and!; try done.
    + intros j Hj. by rewrite !dict_get_set_ne.
    + intros j. unfold paired. fields. rewrite !elem_of_dict_set_keys.
      intros [->|Hj]; [by left | right; by apply Hp].
Qed.

(** X10. If the size of the instance has a task policy but no optimizer,
    [learn_with_instance] raises the [KeyError] of the failed lookup
    without reaching the inherited method, and by then the active policy
    has been switched to that task policy while the active optimizer is
    still the previous one. *)
Theorem learn_with_instance_missing_optimizer {R}
    (super_learn : Instance → M R) (instance : Instance) (s : Solver) :
  let k := num_nodes (v_net instance) in
  k ∈ (task_policies s).*1 → k ∉ (task_optimizers s).*1 →
  learn_with_instance super_learn instance s =
    (Raise (mkExn KeyError (pretty k)), set_policy (TaskPolicy k) s) ∧
  optimizer (learn_with_instance super_learn instance s).2 = optimizer s.
Proof.
  intros k Hin Hnin.
  assert (learn_with_instance super_learn instance s =
    (Raise (mkExn KeyError (pretty k)), set_policy (TaskPolicy k) s)) as E.
  { rewrite learn_with_instance_run. fold k.
    apply dict_mem_true in Hin. rewrite Hin.
    apply dict_get_None in Hnin. unfold dict_item. by rewrite Hnin. }
  by rewrite E.
Qed.
End learning_facts.

(** ** Invariants of the methods *)
Section keeping.
Context `{LibOps}.

Lemma keeps_ret {A} (I : Solver → Prop) (a : A) : keeps I (mret a).
Proof. by intros s Hs. Qed.

Lemma keeps_bind {A B} (I : Solver → Prop) (m : M A) (k : A → M B) :
  keeps I m → (∀ a, keeps I (k a)) → keeps I (m ≫= k).
Proof.
  intros Hm Hk s Hs. rewrite run_bind. specialize (Hm s Hs).
  destruct (m s) as [[a|e] s']; [by apply Hk | done].
Qed.

Lemma keeps_for {A} (I : Solver → Prop) (l : list A) (body : A → M unit) :
  (∀ x, keeps I (body x)) → keeps I (for_ l body).
Proof.
  intros Hbody. induction l as [|x l IH]; [by intros s Hs|].
  cbn [for_]. apply keeps_bind; [done | by intros _].
Qed.

Lemma keeps_try_except {A} (I : Solver → Prop) (body : M A)
    (handler : Exn → M A) :
  keeps I body → (∀ e, keeps I (handler e)) → keeps I (try_except body handler).
Proof.
  intros Hb Hh s Hs. unfold try_except. specialize (Hb s Hs).
  destruct (body s) as [[a|e] s']; [done | by apply Hh].
Qed.

Lemma keeps_preserves {A X} (f : Solver → X) (P : X → Prop) (m : M A) :
  preserves f m → keeps (λ s, P (f s)) m.
Proof. intros Hm s Hs. by rewrite Hm. Qed.

Lemma keeps_gets {A} (I : Solver → Prop) (g : Solver → A) : keeps I (gets g).
Proof. by intros s Hs. Qed.

Lemma keeps_lift {A} (I : Solver → Prop) (r : Res A) : keeps I (lift r).
Proof. by intros s Hs. Qed.

Lemma keeps_raise {A} (I : Solver → Prop) (e : Exn) :
  keeps I (raise (A := A) e).
Proof. by intros s Hs. Qed.

Lemma keeps_reraise (I : Solver → Prop) (r : option Exn) : keeps I (reraise r).
Proof. by destruct r; intros s Hs. Qed.

Lemma keeps_modify (I : Solver → Prop) (g : Solver → Solver) :
  (∀ s, I s → I (g s)) → keeps I (modify g).
Proof. intros Hg s Hs. by apply Hg. Qed.

Lemma dict_set_keys_mem {V} (k : Z) (v : V) (d : list (Z * V)) :
  k ∈ d.*1 → (dict_set k v d).*1 = d.*1.
Proof. intros Hk. rewrite dict_keys_set. by apply dict_mem_true in Hk as ->. Qed.

Lemma dict_item_Ok_inv {V} (k : Z) (v : V) (d : list (Z * V)) :
  dict_item k d = Ok v → k ∈ d.*1.
Proof.
  unfold dict_item. destruct (dict_get k d) eqn:E; [|done].
  intros _. apply dict_mem_true. unfold dict_mem. by rewrite E.
Qed.
End keeping.

Ltac keeps_step :=
  match goal with
  | |- keeps _ (mret _) => apply keeps_ret
  | |- keeps _ (gets _) => apply keeps_gets
  | |- keeps _ (lift _) => apply keeps_lift
  | |- keeps _ (raise _) => apply keeps_raise
  | |- keeps _ (reraise _) => apply keeps_reraise
  | |- keeps _ (for_ _ _) => apply keeps_for; intros ?
  | |- keeps _ (try_except _ _) => apply keeps_try_except; [|intros ?]
  | |- keeps _ (_ ≫= _) => apply keeps_bind; [|intros ?]
  | |- keeps _ (if ?c then _ else _) => destruct c
  | |- keeps _ (match ?x with _ => _ end) => destruct x
  end.

(** What survives [update] and [load_model]: any property of the world
    that the steps below cannot break. *)
Section keeping_methods.
Context `{LibOps}.
Variable I : Solver → Prop.
Hypothesis I_train_policy : ∀ j p s,
  j ∈ (task_policies s).*1 → I s →
  I (set_task_policies (dict_set j p (task_policies s)) s).
Hypothesis I_train_optimizer : ∀ j o s,
  j ∈ (task_optimizers s).*1 → I s →
  I (set_task_optimizers (dict_set j o (task_optimizers s)) s).
Hypothesis I_ensure : ∀ k, keeps I (ensure_task_policy k).

Section keeping_update.
Hypothesis I_policy : ∀ v s, I s → I (set_policy v s).
Hypothesis I_optimizer : ∀ v s, I s → I (set_optimizer v s).
Hypothesis I_buffer : ∀ v s, I s → I (set_buffer v s).
Hypothesis I_calls : ∀ v s, I s → I (set_calls v s).
Hypothesis I_heap : ∀ v s, I s → I (set_heap v s).

Lemma super_update_task_keeps (k k' : Z) (s : Solver) :
  policy s = TaskPolicy k → optimizer s = TaskOptimizer k' →
  I s → I (super_update s).2.
Proof using All.
  intros Hpol Hopt Hs.
  unfold super_update. run. rewrite Hpol, Hopt.
  unfold deref_policy, deref_optimizer, read_buffer. run.
  destruct (dict_item k (task_policies s)) as [p|e] eqn:Ep; run; [|done].
  destruct (dict_item k' (task_optimizers s)) as [o|e] eqn:Eo; run; [|done].
  destruct (heap s !! buffer s) as [b|] eqn:Eb; run; [|done].
  destruct (generic_update p o b) as [[[p' o'] b'] r].
  unfold record, store_policy, store_optimizer, write_buffer. run.
  apply dict_item_Ok_inv in Ep, Eo.
  set (s1 := set_calls (calls s ++ [EvUpdate (TaskPolicy k) (TaskOptimizer k') b r]) s).
  set (s2 := set_task_policies (dict_set k p' (task_policies s)) s1).
  set (s3 := set_task_optimizers (dict_set k' o' (task_optimizers s)) s2).
  assert (I s3) as H3.
  { apply (I_train_optimizer k' o' s2 Eo), (I_train_policy k p' s1 Ep), I_calls, Hs. }
  destruct r as [e|]; cbn [reraise]; run; cbn [snd]; apply (I_heap _ s3 H3).
Qed.

Lemma fine_tune_task_keeps (task_buffers : list (Z * nat)) (k : Z) :
  keeps I (fine_tune_task task_buffers k).
Proof using All.
  intros s Hs. unfold fine_tune_task. run.
  destruct (dict_item k (task_policies s)); run; [|done].
  destruct (dict_item k (task_optimizers s)); run; [|by apply I_policy].
  destruct (dict_item k task_buffers) as [loc|]; run;
    [|by apply I_optimizer, I_policy].
  apply (super_update_task_keeps k k); [done..|].
  by apply I_buffer, I_optimizer, I_policy.
Qed.

Lemma new_buffers_keeps (tbs : list (Z * RolloutBuffer)) :
  keeps I (foldr (λ '(k, tb) rest,
                    loc ← new_buffer tb; locs ← rest; mret ((k, loc) :: locs))
                 (mret []) tbs).
Proof using I_heap.
  intros s Hs. rewrite new_buffers_run. by apply I_heap.
Qed.

Lemma update_tail_keeps (meta_buffer : nat) :
  keeps I (task_buffers ← split_buffer_at meta_buffer;
           _ ← for_ (dict_keys task_buffers) (fine_tune_task task_buffers);
           b ← read_buffer meta_buffer;
           write_buffer meta_buffer (RolloutBuffer_clear b)).
Proof using All.
  unfold read_buffer, split_buffer_at, read_buffer, write_buffer.
  repeat first
    [ apply new_buffers_keeps
    | apply fine_tune_task_keeps
    | apply keeps_modify; intros ? ?; by apply I_heap
    | keeps_step ].
Qed.

Lemma update_keeps : keeps I update.
Proof using All.
  unfold update, _fine_tuning_update, read_buffer, split_buffer_at,
    read_buffer, write_buffer.
  repeat first
    [ apply new_buffers_keeps
    | apply fine_tune_task_keeps
    | apply I_ensure
    | apply keeps_modify; intros ? ?; by apply I_heap
    | keeps_step ].
Qed.
End keeping_update.

Section keeping_load.
Hypothesis I_meta_policy : ∀ v s, I s → I (set_meta_policy v s).
Hypothesis I_meta_optimizer : ∀ v s, I s → I (set_meta_optimizer v s).

Lemma policy_load_state_dict_keeps (r : PolicyRef) (sd : Res StateDict) :
  r ≠ BasePolicy → keeps I (policy_load_state_dict r sd).
Proof using I_train_policy I_meta_policy.
  intros Hr s Hs. unfold policy_load_state_dict. destruct r as [| |k]; [done|..].
  - unfold deref_policy, store_policy. run. destruct sd as [sd|e]; run; [|done].
    destruct (load_state_dict (meta_policy s) sd) as [p' [e|]];
      cbn [reraise]; run; by apply I_meta_policy.
  - unfold deref_policy, store_policy. run.
    destruct (dict_item k (task_policies s)) as [p|e] eqn:Ep; run; [|done].
    destruct sd as [sd|e]; run; [|done]. apply dict_item_Ok_inv in Ep.
    destruct (load_state_dict p sd) as [p' [e|]];
      cbn [reraise]; run; by apply I_train_policy.
Qed.

Lemma optimizer_load_state_dict_keeps (r : OptimizerRef) (sd : Res OptState) :
  r ≠ BaseOptimizer → keeps I (optimizer_load_state_dict r sd).
Proof using I_train_optimizer I_meta_optimizer.
  intros Hr s Hs. unfold optimizer_load_state_dict.
  destruct r as [| |k]; [done|..].
  - unfold deref_optimizer, store_optimizer. run.
    destruct sd as [sd|e]; run; [|done].
    destruct (opt_load_state_dict (meta_optimizer s) sd) as [p' [e|]];
      cbn [reraise]; run; by apply I_meta_optimizer.
  - unfold deref_optimizer, store_optimizer. run.
    destruct (dict_item k (task_optimizers s)) as [p|e] eqn:Ep; run; [|done].
    destruct sd as [sd|e]; run; [|done]. apply dict_item_Ok_inv in Ep.
    destruct (opt_load_state_dict p sd) as [p' [e|]];
      cbn [reraise]; run; by apply I_train_optimizer.
Qed.

Lemma load_model_keeps (path : string) : keeps I (load_model path).
Proof using All.
  unfold load_model, load_model_body, load_task, torch_load.
  repeat first
    [ apply policy_load_state_dict_keeps; done
    | apply optimizer_load_state_dict_keeps; done
    | apply I_ensure
    | keeps_step ].
Qed.
End keeping_load.
End keeping_methods.

(** ** What [update], [load_model], [save_model] and [solve] leave alone *)
Section method_frames.
Context `{LibOps}.

Lemma update_frame {X} (f : Solver → X) :
  (∀ v s, f (set_policy v s) = f s) →
  (∀ v s, f (set_optimizer v s) = f s) →
  (∀ v s, f (set_buffer v s) = f s) →
  (∀ v s, f (set_calls v s) = f s) →
  (∀ v s, f (set_heap v s) = f s) →
  (∀ v s, f (set_task_policies v s) = f s) →
  (∀ v s, f (set_task_optimizers v s) = f s) →
  preserves f update.
Proof.
  intros Hpol Hopt Hbuf Hcalls Hheap Htp Hto s.
  apply (update_keeps (λ s', f s' = f s)); try done.
  - intros j p s' _ <-. apply Htp.
  - intros j o s' _ <-. apply Hto.
  - intros k s' <-. by apply ensure_task_policy_frame.
  - intros v s' <-. apply Hpol.
  - intros v s' <-. apply Hopt.
  - intros v s' <-. apply Hbuf.
  - intros v s' <-. apply Hcalls.
  - intros v s' <-. apply Hheap.
Qed.

(** X11. [update] trains task policies only. Whether it returns or
    raises, the meta-policy and its optimizer, the policy and optimizer
    built at construction, the policy of the searcher, the learning rate
    and the file system are as they were. *)
Theorem update_trains_task_policies_only (s : Solver) :
  meta_policy (update s).2 = meta_policy s ∧
  meta_optimizer (update s).2 = meta_optimizer s ∧
  base_policy (update s).2 = base_policy s ∧
  base_optimizer (update s).2 = base_optimizer s ∧
  searcher_policy (update s).2 = searcher_policy s ∧
  lr (update s).2 = lr s ∧
  disk (update s).2 = disk s.
Proof. split_and!; by apply update_frame. Qed.

Lemma paired_train_policy (j : Z) (p : Policy) (s : Solver) :
  j ∈ (task_policies s).*1 → paired s →
  paired (set_task_policies (dict_set j p (task_policies s)) s).
Proof.
  intros Hj Hp k. fields. rewrite dict_set_keys_mem by done. apply Hp.
Qed.

Lemma paired_train_optimizer (j : Z) (o : Optimizer) (s : Solver) :
  j ∈ (task_optimizers s).*1 → paired s →
  paired (set_task_optimizers (dict_set j o (task_optimizers s)) s).
Proof.
  intros Hj Hp k. fields. rewrite dict_set_keys_mem by done. apply Hp.
Qed.

Lemma ensure_task_policy_Ok (k : Z) (s : Solver) :
  ensure_task_policy k s =
    (Ok tt, if dict_mem k (task_policies s) then s
            else set_task_optimizers
                   (dict_set k (Adam (meta_policy s) (lr s)) (task_optimizers s))
                   (set_task_policies
                      (dict_set k (meta_policy s) (task_policies s)) s)).
Proof.
  unfold ensure_task_policy. run.
  destruct (dict_mem k (task_policies s)); [done|apply init_task_run].
Qed.

Lemma paired_ensure (k : Z) : keeps paired (ensure_task_policy k).
Proof.
  intros s Hp. rewrite ensure_task_policy_Ok. cbn [snd].
  destruct (dict_mem k (task_policies s)); [done|].
  intros j. fields. rewrite !elem_of_dict_set_keys.
  intros [->|Hj]; [by left | right; by apply Hp].
Qed.

Lemma save_model_frame {X} (f : Solver → X) (fname : string) :
  (∀ v s, f (set_disk v s) = f s) → preserves f (save_model fname).
Proof.
  intros Hdisk. unfold save_model, torch_save.
  repeat first [ apply preserves_modify; by intros ? | preserves_step ].
Qed.

Lemma solve_frame {X} (f : Solver → X) (instance : Instance) :
  (∀ v s, f (set_searcher_policy v s) = f s) →
  (∀ v s, f (set_calls v s) = f s) →
  preserves f (solve instance).
Proof.
  intros Hsp Hcalls. unfold solve, super_solve, record, deref_policy.
  repeat first [ apply preserves_modify; by intros ? | preserves_step ].
Qed.

(** X12. Every task policy having its optimizer is an invariant of the
    class: it holds of a new solver, and [update], [load_model],
    [save_model], [solve] and [learn_with_instance] (if the inherited
    method keeps it) hand it on, whether they return or raise. *)
Theorem paired_invariant (base : Inherited) (kwargs : gmap string Z)
    (s : Solver) (instance : Instance) (fname path : string) :
  paired (__init__ base kwargs) ∧
  (paired s →
   paired (update s).2 ∧ paired (load_model path s).2 ∧
   paired (save_model fname s).2 ∧ paired (solve instance s).2 ∧
   ∀ R (super_learn : Instance → M R),
     keeps paired (super_learn instance) →
     paired (learn_with_instance super_learn instance s).2).
Proof.
  split; [by intros k Hk%elem_of_nil|]. intros Hp. split_and!.
  - apply (update_keeps paired); try done;
      auto using paired_train_policy, paired_train_optimizer, paired_ensure.
  - apply (load_model_keeps paired); try done;
      auto using paired_train_policy, paired_train_optimizer, paired_ensure.
  - intros k.
    rewrite (save_model_frame task_policies), 
      (save_model_frame task_optimizers) by done. apply Hp.
  - intros k.
    rewrite (solve_frame task_policies), 
      (solve_frame task_optimizers) by done. apply Hp.
  - intros R super_learn Hsuper.
    destruct (learn_reaches_inherited super_learn instance s Hp)
      as (s1 & -> & Hp1).
    by apply Hsuper.
Qed.
End method_frames.

(** ** More on [update] *)
Section update_more.
Context `{LibOps}.

Lemma ensure_loop_run (l : list Z) (s : Solver) :
  ∃ s1, for_ l ensure_task_policy s = (Ok tt, s1) ∧
    (∀ k, k ∈ l → k ∈ (task_policies s1).*1) ∧
    (∀ k, k ∈ (task_policies s).*1 → k ∈ (task_policies s1).*1) ∧
    (paired s → paired s1) ∧
    (l = [] → s1 = s) ∧
    heap s1 = heap s ∧ calls s1 = calls s ∧ buffer s1 = buffer s ∧
    policy s1 = policy s ∧ optimizer s1 = optimizer s.
Proof.
  revert s. induction l as [|k l IH]; intros s.
  - exists s. split_and!; try done. by intros k Hk%elem_of_nil.
  - rewrite run_for_cons, ensure_task_policy_Ok.
    set (s0 := if dict_mem k (task_policies s) then s else _).
    assert (k ∈ (task_policies s0).*1 ∧
            (∀ j, j ∈ (task_policies s).*1 → j ∈ (task_policies s0).*1) ∧
            (paired s → paired s0) ∧
            heap s0 = heap s ∧ calls s0 = calls s ∧ buffer s0 = buffer s ∧
            policy s0 = policy s ∧ optimizer s0 = optimizer s)
      as (Hk & Hmono & Hp & Hh & Hc & Hb & Hpol & Hopt).
    { subst s0. destruct (dict_mem k (task_policies s)) eqn:Em.
      - apply dict_mem_true in Em. by split_and!.
      - fields. split_and!; try done.
        + rewrite elem_of_dict_set_keys. by left.
        + intros j Hj. rewrite elem_of_dict_set_keys. by right.
        + intros Hp j. fields. rewrite !elem_of_dict_set_keys.
          intros [->|Hj]; [by left | right; by apply Hp]. }
    destruct (IH s0) as (s1 & -> & Hl & Hmono1 & Hp1 & _ & Hh1 & Hc1 & Hb1 & Hpol1 & Hopt1).
    exists s1. split_and!; try done; try congruence.
    + intros j [->|Hj]%elem_of_cons; [by apply Hmono1 | by apply Hl].
    + intros j Hj. by apply Hmono1, Hmono.
    + intros Hs. by apply Hp1, Hp.
Qed.

(** X13. No method deletes a task policy or a task optimizer: an id
    stored in either dictionary is still stored in it after [update],
    [load_model], [save_model] or [solve], whether they return or
    raise. *)
Theorem task_ids_never_removed (s : Solver) (k : Z) (instance : Instance)
    (fname path : string) :
  (k ∈ (task_policies s).*1 →
   k ∈ (task_policies (update s).2).*1 ∧
   k ∈ (task_policies (load_model path s).2).*1 ∧
   k ∈ (task_policies (save_model fname s).2).*1 ∧
   k ∈ (task_policies (solve instance s).2).*1) ∧
  (k ∈ (task_optimizers s).*1 →
   k ∈ (task_optimizers (update s).2).*1 ∧
   k ∈ (task_optimizers (load_model path s).2).*1 ∧
   k ∈ (task_optimizers (save_model fname s).2).*1 ∧
   k ∈ (task_optimizers (solve instance s).2).*1).
Proof.
  assert (∀ j, keeps (λ s', k ∈ (task_policies s').*1) (ensure_task_policy j))
    as Hen1.
  { intros j s' Hs'. rewrite ensure_task_policy_Ok. cbn [snd].
    destruct (dict_mem j (task_policies s')); [done|]. fields.
    rewrite elem_of_dict_set_keys. by right. }
  assert (∀ j, keeps (λ s', k ∈ (task_optimizers s').*1) (ensure_task_policy j))
    as Hen2.
  { intros j s' Hs'. rewrite ensure_task_policy_Ok. cbn [snd].
    destruct (dict_mem j (task_policies s')); [done|]. fields.
    rewrite elem_of_dict_set_keys. by right. }
  split; intros Hk; split_and!.
  - apply (update_keeps (λ s', k ∈ (task_policies s').*1)); try done.
    intros j p s' Hj Hs'. fields. by rewrite dict_set_keys_mem.
  - apply (load_model_keeps (λ s', k ∈ (task_policies s').*1)); try done.
    intros j p s' Hj Hs'. fields. by rewrite dict_set_keys_mem.
  - by rewrite (save_model_frame task_policies).
  - by rewrite (solve_frame task_policies).
  - apply (update_keeps (λ s', k ∈ (task_optimizers s').*1)); try done.
    intros j p s' Hj Hs'. fields. by rewrite dict_set_keys_mem.
  - apply (load_model_keeps (λ s', k ∈ (task_optimizers s').*1)); try done.
    intros j p s' Hj Hs'. fields. by rewrite dict_set_keys_mem.
  - by rewrite (save_model_frame task_optimizers).
  - by rewrite (solve_frame task_optimizers).
Qed.

(** [update] up to the split of the buffer. *)
Lemma update_head_run (s : Solver) (b : RolloutBuffer) (labels : list Z) :
  heap s !! buffer s = Some b → v_net_size_list b = Ok labels →
  ∃ s1,
    for_ (dict_keys (Counter labels)) ensure_task_policy s = (Ok tt, s1) ∧
    update s =
      (task_buffers ← split_buffer_at (buffer s);
       _ ← for_ (dict_keys task_buffers) (fine_tune_task task_buffers);
       b ← read_buffer (buffer s);
       write_buffer (buffer s) (RolloutBuffer_clear b)) s1.
Proof.
  intros Hb Hlab.
  destruct (ensure_loop_run (dict_keys (Counter labels)) s) as (s1 & E1 & _).
  exists s1. split; [done|].
  unfold update, _fine_tuning_update. run.
  unfold read_buffer at 1. run. rewrite Hb. run.
  unfold _stats_task_dist. rewrite Hlab, res_bind_Ok. run.
  by rewrite E1.
Qed.

(** X14. Once the labels of the buffer have been read, [update] leaves
    behind a task policy for every label, also when it raises later; on a
    solver whose task policies all have their optimizer, every label has
    an optimizer too. *)
Theorem update_ensures_task_policies (s : Solver) (b : RolloutBuffer)
    (labels : list Z) (k : Z) :
  heap s !! buffer s = Some b → v_net_size_list b = Ok labels → k ∈ labels →
  k ∈ (task_policies (update s).2).*1 ∧
  (paired s → k ∈ (task_optimizers (update s).2).*1).
Proof.
  intros Hb Hlab Hk.
  destruct (update_head_run s b labels Hb Hlab) as (s1 & E1 & ->).
  destruct (ensure_loop_run (dict_keys (Counter labels)) s)
    as (s1' & E1' & Hl & _ & Hp & _).
  rewrite E1 in E1'. injection E1' as <-.
  assert (k ∈ (task_policies s1).*1) as Hk1.
  { apply Hl. unfold dict_keys. by apply Counter_keys. }
  assert (∀ j, keeps (λ s', k ∈ (task_policies s').*1) (ensure_task_policy j))
    as Hen1.
  { intros j s' Hs'. rewrite ensure_task_policy_Ok. cbn [snd].
    destruct (dict_mem j (task_policies s')); [done|]. fields.
    rewrite elem_of_dict_set_keys. by right. }
  assert (∀ j, keeps (λ s', k ∈ (task_optimizers s').*1) (ensure_task_policy j))
    as Hen2.
  { intros j s' Hs'. rewrite ensure_task_policy_Ok. cbn [snd].
    destruct (dict_mem j (task_policies s')); [done|]. fields.
    rewrite elem_of_dict_set_keys. by right. }
  split.
  - apply (update_tail_keeps (λ s', k ∈ (task_policies s').*1)); try done.
    intros j p s' Hj Hs'. fields. by rewrite dict_set_keys_mem.
  - intros Hpaired.
    apply (update_tail_keeps (λ s', k ∈ (task_optimizers s').*1)); try done.
    + intros j p s' Hj Hs'. fields. by rewrite dict_set_keys_mem.
    + by apply Hp.
Qed.

(** X15. On a buffer with an observation that lacks its task label,
    [update] raises the [KeyError] of the lookup before anything has
    happened: no task policy is created, no generic update runs, and the
    buffer is not cleared. *)
Theorem update_missing_label (s : Solver) (b : RolloutBuffer) :
  heap s !! buffer s = Some b →
  Forall (λ o : Observation,
            o !! "v_net_size"%string = None ∨
            ∃ n, o !! "v_net_size"%string = Some (VInt n)) (observations b) →
  Exists (λ o : Observation, o !! "v_net_size"%string = None)
         (observations b) →
  update s = (Raise (mkExn KeyError "'v_net_size'"), s).
Proof.
  intros Hb Hall Hex.
  unfold update, _fine_tuning_update. run.
  unfold read_buffer at 1. run. rewrite Hb. run.
  unfold _stats_task_dist, v_net_size_list.
  by rewrite (v_net_size_list_missing _ Hall Hex).
Qed.

(** X16. On a labelled buffer in which one of the four other sequences
    is shorter than the observations, [update] raises the [IndexError]
    of the split. By then the task policies of all labels exist, but no
    generic update has run and no buffer has been created, replaced or
    cleared. *)
Theorem update_short_buffer (s : Solver) (b : RolloutBuffer) (labels : list Z) :
  heap s !! buffer s = Some b → v_net_size_list b = Ok labels →
  labelled b → ¬ long_enough b →
  ∃ s', update s = (Raise (mkExn IndexError "index out of range"), s') ∧
    (∀ k, k ∈ labels → k ∈ (task_policies s').*1) ∧
    calls s' = calls s ∧ heap s' = heap s ∧ buffer s' = buffer s.
Proof.
  intros Hb Hlab Hlabelled Hshort.
  destruct (update_head_run s b labels Hb Hlab) as (s1 & E1 & ->).
  destruct (ensure_loop_run (dict_keys (Counter labels)) s)
    as (s1' & E1' & Hl & _ & _ & _ & Hh & Hc & Hbuf & _).
  rewrite E1 in E1'. injection E1' as <-.
  exists s1. split_and!; try done.
  - rewrite run_bind, (split_buffer_at_run _ b) by (by rewrite Hh).
    by rewrite (split_buffer_short b Hlabelled Hshort).
  - intros k Hk. apply Hl. unfold dict_keys. by apply Counter_keys.
Qed.

(** X17. On a buffer without observations, [update] creates no task
    policy and runs no generic update: it only clears the buffer, which
    stays the active one. *)
Theorem update_without_observations (s : Solver) (b : RolloutBuffer) :
  heap s !! buffer s = Some b → observations b = [] →
  update s =
    (Ok tt, set_heap (<[buffer s := RolloutBuffer_clear b]> (heap s)) s).
Proof.
  intros Hb Hnil.
  assert (v_net_size_list b = Ok []) as Hlab
    by (unfold v_net_size_list; by rewrite Hnil).
  destruct (update_head_run s b [] Hb Hlab) as (s1 & E1 & ->).
  cbn in E1. injection E1 as <-.
  rewrite run_bind, (split_buffer_at_run _ b) by done.
  assert (_split_buffer b = Ok []) as ->
    by (unfold _split_buffer; by rewrite Hlab).
  cbn [fmap list_fmap length seq zip zip_with app]. rewrite app_nil_r.
  run. cbn [dict_keys fmap list_fmap for_]. run.
  unfold read_buffer, write_buffer. run. rewrite Hb. run.
  by rewrite set_heap_set_heap.
Qed.
End update_more.

(** ** More on [solve] *)
Section solve_more.
Context `{LibOps}.

Lemma super_solve_run (instance : Instance) (pr : PolicyRef) (p : Policy)
    (s : Solver) :
  searcher_policy s = pr → (deref_policy pr s).1 = Ok p →
  super_solve instance s =
    (generic_solve p instance, set_calls (calls s ++ [EvSolve pr instance]) s).
Proof.
  intros Hpr Hp. unfold super_solve, record. run. rewrite Hpr.
  pose proof (deref_policy_state pr s) as Hs.
  destruct (deref_policy pr s) as [r s']. cbn [fst snd] in *. subst. by run.
Qed.

(** X18. [solve] only redirects the searcher. It leaves every policy,
    optimizer and buffer, the active references and the file system as
    they were. Either it raises at its own lookup, with nothing changed
    and the inherited [solve] not called; or it points the searcher at the
    meta-policy or at a stored task policy, never at the policy built at
    construction, calls the inherited [solve] once, and hands on what
    that call returns or raises. *)
Theorem solve_only_redirects_searcher (instance : Instance) (s : Solver) :
  let r := solve instance s in
  task_policies r.2 = task_policies s ∧
  task_optimizers r.2 = task_optimizers s ∧
  meta_policy r.2 = meta_policy s ∧ meta_optimizer r.2 = meta_optimizer s ∧
  base_policy r.2 = base_policy s ∧ base_optimizer r.2 = base_optimizer s ∧
  policy r.2 = policy s ∧ optimizer r.2 = optimizer s ∧
  buffer r.2 = buffer s ∧ heap r.2 = heap s ∧ disk r.2 = disk s ∧
  ((∃ e, r = (Raise e, s) ∧ exn_class e = KeyError) ∨
   (∃ pr p,
      pr ≠ BasePolicy ∧ (deref_policy pr s).1 = Ok p ∧
      r = (generic_solve p instance,
           set_calls (calls s ++ [EvSolve pr instance])
             (set_searcher_policy pr s)))).
Proof.
  intros r. subst r.
  split_and!; try (by apply solve_frame).
  unfold solve. run.
  destruct (decide (infer_with_single_task_policy_id s ≠ 0)) as [Hne|Hz].
  - run. destruct (dict_item _ (task_policies s)) as [p|e] eqn:Ep; run.
    + right. exists (TaskPolicy (infer_with_single_task_policy_id s)), p.
      split_and!; [done| |].
      * unfold deref_policy. run. by rewrite Ep.
      * erewrite super_solve_run; [done|done|].
        unfold deref_policy. run. by rewrite Ep.
    + left. exists e. split; [done|]. unfold dict_item in Ep.
      destruct (dict_get _ _); by simplify_eq.
  - run. right.
    destruct (dict_mem (num_nodes (v_net instance)) (task_policies s)) eqn:Em;
      cbn [negb]; run.
    + apply dict_mem_true, dict_item_Ok in Em as (p & Ep & _). rewrite Ep. run.
      exists (TaskPolicy (num_nodes (v_net instance))), p. split_and!; [done| |].
      * unfold deref_policy. run. by rewrite Ep.
      * erewrite super_solve_run; [done|done|].
        unfold deref_policy. run. by rewrite Ep.
    + exists MetaPolicy, (meta_policy s). split_and!; [done|done|].
      by rewrite (super_solve_run instance MetaPolicy (meta_policy s)).
Qed.

(** X19. A solver that has neither trained nor loaded a checkpoint has
    no task policy: without the single-policy override it answers every
    instance with the policy built at construction, through its copy the
    meta-policy; with the override set it cannot answer any instance. *)
Theorem fresh_solver_solve (base : Inherited) (kwargs : gmap string Z)
    (instance : Instance) :
  let n := default 0 (kwargs !! "infer_with_single_task_policy_id"%string) in
  (solve instance (__init__ base kwargs)).1 =
    if decide (n = 0) then generic_solve (i_policy base) instance
    else Raise (mkExn KeyError (pretty n)).
Proof.
  intros n. unfold solve, __init__. run. fold n.
  destruct (decide (n = 0)) as [Hz|Hne].
  - rewrite decide_False by (by intros ?). run.
    change (dict_mem (num_nodes (v_net instance)) []) with false.
    cbn [negb]. run.
    by rewrite (super_solve_run instance MetaPolicy (i_policy base)).
  - rewrite decide_True by done. by run.
Qed.
End solve_more.

(** ** More on [save_model] and [load_model] *)
Section checkpoint_more.
Context `{LibOps}.








Lemma load_model_frame {X} (f : Solver → X) (path : string) :
  (∀ v s, f (set_meta_policy v s) = f s) →
  (∀ v s, f (set_meta_optimizer v s) = f s) →
  (∀ v s, f (set_task_policies v s) = f s) →
  (∀ v s, f (set_task_optimizers v s) = f s) →
  preserves f (load_model path).
Proof.
  intros Hmp Hmo Htp Hto s.
  apply (load_model_keeps (λ s', f s' = f s)); try done.
  - intros j p s' _ <-. apply Htp.
  - intros j o s' _ <-. apply Hto.
  - intros k s' <-. by apply ensure_task_policy_frame.
  - intros v s' <-. apply Hmp.
  - intros v s' <-. apply Hmo.
Qed.

(** X23. [load_model] touches the meta pair and the task pairs only:
    whether the load succeeds or fails part of the way, the active policy,
    optimizer and buffer, the policy of the searcher, the policy and
    optimizer built at construction, the rollout buffers, the file system
    and the record of inherited calls are as they were. *)
Theorem load_model_touches_policies_only (path : string) (s : Solver) :
  let s' := (load_model path s).2 in
  policy s' = policy s ∧ optimizer s' = optimizer s ∧ buffer s' = buffer s ∧
  searcher_policy s' = searcher_policy s ∧
  base_policy s' = base_policy s ∧ base_optimizer s' = base_optimizer s ∧
  heap s' = heap s ∧ disk s' = disk s ∧ calls s' = calls s.
Proof. intros s'. subst s'. split_and!; by apply load_model_frame. Qed.
End checkpoint_more.

(** ** More on [obs_as_tensor] *)
Section batcher_more.
Context `{LibOps}.


Lemma batch_loop_cons_dict (obs : Observation) (rest : list PyObj)
    (acc : BatchLists) (x ei vx vs cur am : Val) :
  obs !! "p_net_x"%string = Some x →
  obs !! "p_net_edge_index"%string = Some ei →
  obs !! "v_net_x"%string = Some vx →
  obs !! "v_net_size"%string = Some vs →
  obs !! "curr_v_node_id"%string = Some cur →
  obs !! "action_mask"%string = Some am →
  batch_loop (ODict obs :: rest) acc =
    batch_loop rest
      (mkBatchLists (p_net_data_list acc ++ [get_pyg_data x ei])
                    (v_net_x_list acc ++ [vx])
                    (v_net_size_list_ acc ++ [vs])
                    (curr_v_node_id_list acc ++ [cur])
                    (action_mask_list acc ++ [am])).
Proof.
  intros Hx Hei Hvx Hvs Hcur Ham. cbn [batch_loop subscript].
  rewrite (obs_item_Some _ _ _ Hx), (obs_item_Some _ _ _ Hei),
    (obs_item_Some _ _ _ Hvx), (obs_item_Some _ _ _ Hvs),
    (obs_item_Some _ _ _ Hcur), (obs_item_Some _ _ _ Ham).
  by rewrite !res_bind_Ok.
Qed.



Lemma batch_loop_bad (pre : list Observation) (x : PyObj) (post : list PyObj)
    (acc : BatchLists) (e : Exn) :
  Forall well_formed pre → subscript x "p_net_x" = Raise e →
  batch_loop ((ODict <$> pre) ++ x :: post) acc = Raise e.
Proof.
  intros Hall Hx. revert acc. induction Hall as [|o l Ho _ IH]; intros acc.
  - cbn [fmap list_fmap app batch_loop]. by rewrite Hx, res_bind_Raise.
  - unfold well_formed in Ho. rewrite !Forall_cons in Ho.
    destruct Ho as ([x0 Hx0] & [ei Hei] & [vx Hvx] & [cur Hcur] & [am Ham]
                    & [vs Hvs] & _).
    rewrite fmap_cons, <- app_comm_cons.
    rewrite (batch_loop_cons_dict o _ acc x0 ei vx vs cur am) by done.
    apply IH.
Qed.

(** X25. An element of the list that is not a dictionary is not reported
    as an unrecognized type: after the well-formed observations before it
    have been read, the batch branch raises what subscripting that
    element by a field name raises, a [TypeError] or for an array an
    [IndexError], and nothing is returned. *)
Theorem obs_as_tensor_batch_bad_element (pre : list Observation) (x : PyObj)
    (post : list PyObj) (device : Device) :
  Forall well_formed pre → (∀ d, x ≠ ODict d) →
  ∃ e, obs_as_tensor (OList ((ODict <$> pre) ++ x :: post)) device = Raise e ∧
       subscript x "p_net_x" = Raise e ∧
       (exn_class e = TypeError ∨ exn_class e = IndexError).
Proof.
  intros Hall Hx.
  assert (∃ e, subscript x "p_net_x" = Raise e ∧
               (exn_class e = TypeError ∨ exn_class e = IndexError))
    as (e & Ee & Hclass).
  { destruct x as [d|?|?| |?|[?|?]]; [by destruct (Hx d)|..];
      eexists; (split; [reflexivity|]); cbn; auto. }
  exists e. split_and!; [|done..].
  unfold obs_as_tensor. by rewrite (batch_loop_bad pre x post _ e).
Qed.


End batcher_more.

Section more_witnesses.
Local Existing Instance sample_types.
Local Existing Instance sample_ops.

Lemma paired_sample_solver_trained : paired sample_solver_trained.
Proof. intros k Hk. vm_compute in Hk |- *. exact Hk. Qed.

Lemma learn_with_instance_activates_task_pair_witness :
  ∃ s1 p o,
    learn_with_instance (λ _, mret tt) sample_instance_5 sample_solver_new
      = (Ok tt, s1) ∧
    policy s1 = TaskPolicy 5 ∧ optimizer s1 = TaskOptimizer 5 ∧
    dict_get 5 (task_policies s1) = Some p ∧
    dict_get 5 (task_optimizers s1) = Some o ∧
    p = meta_policy sample_solver_new.
Proof.
  destruct (learn_with_instance_activates_task_pair (R := unit)
              (λ _, mret tt) sample_instance_5 sample_solver_new)
    as (s1 & p & o & E & Hpol & Hopt & Gp & Go & Ep & _).
  - intros k Hk. vm_compute in Hk. by apply elem_of_nil in Hk.
  - exists s1, p, o.
    exact (conj E (conj Hpol (conj Hopt (conj Gp (conj Go Ep))))).
Defined.

Lemma learn_with_instance_missing_optimizer_witness :
  learn_with_instance (λ _, mret tt) sample_instance_5 sample_solver_unpaired
    = (Raise (mkExn KeyError "5"), set_policy (TaskPolicy 5) sample_solver_unpaired).
Proof.
  destruct (learn_with_instance_missing_optimizer (R := unit)
              (λ _, mret tt) sample_instance_5 sample_solver_unpaired)
    as [E _].
  - vm_compute. apply list_elem_of_here.
  - vm_compute. apply not_elem_of_nil.
  - exact E.
Defined.

Lemma paired_invariant_witness :
  paired sample_solver_trained ∧
  paired (update sample_solver_trained).2 ∧
  paired (load_model "save/ck.pt" sample_solver_trained).2 ∧
  paired (save_model "ck.pt" sample_solver_trained).2 ∧
  paired (solve sample_instance_5 sample_solver_trained).2.
Proof.
  split; [exact paired_sample_solver_trained|].
  destruct (paired_invariant sample_inherited ∅ sample_solver_trained
              sample_instance_5 "ck.pt" "save/ck.pt")
    as (_ & Hkeep).
  destruct (Hkeep paired_sample_solver_trained) as (H1 & H2 & H3 & H4 & _).
  exact (conj H1 (conj H2 (conj H3 H4))).
Defined.

Lemma task_ids_never_removed_witness :
  3 ∈ (task_policies sample_solver_trained).*1 ∧
  3 ∈ (task_policies (update sample_solver_trained).2).*1 ∧
  3 ∈ (task_policies (load_model "save/ck.pt" sample_solver_trained).2).*1.
Proof.
  assert (3 ∈ (task_policies sample_solver_trained).*1) as Hin
    by (vm_compute; apply list_elem_of_here).
  split; [exact Hin|].
  destruct (task_ids_never_removed sample_solver_trained 3 sample_instance_5
              "ck.pt" "save/ck.pt") as (Hpol & _).
  destruct (Hpol Hin) as (H1 & H2 & _).
  exact (conj H1 H2).
Defined.

Lemma update_ensures_task_policies_witness :
  task_policies sample_solver = [] ∧
  5 ∈ (task_policies (update sample_solver).2).*1.
Proof.
  split; [reflexivity|].
  destruct (update_ensures_task_policies sample_solver sample_buffer
              [3; 3; 5; 5; 5; 3] 5) as (Hin & _).
  - reflexivity.
  - vm_compute. reflexivity.
  - apply list_elem_of_further, list_elem_of_further, list_elem_of_here.
  - exact Hin.
Defined.

Lemma update_missing_label_witness :
  update sample_solver_unlabelled =
    (Raise (mkExn KeyError "'v_net_size'"), sample_solver_unlabelled).
Proof.
  apply (update_missing_label sample_solver_unlabelled sample_buffer_unlabelled).
  - reflexivity.
  - apply Forall_cons. split; [right; by eexists|].
    apply Forall_cons. split; [by left|]. apply Forall_nil_2.
  - apply Exists_cons. right. apply Exists_cons. by left.
Defined.

Lemma update_short_buffer_witness :
  ∃ s', update sample_solver_short =
          (Raise (mkExn IndexError "index out of range"), s') ∧
    (∀ k, k ∈ [3; 3; 5; 5; 5; 3] → k ∈ (task_policies s').*1) ∧
    calls s' = calls sample_solver_short ∧
    heap s' = heap sample_solver_short ∧
    buffer s' = buffer sample_solver_short.
Proof.
  apply (update_short_buffer sample_solver_short sample_buffer_short).
  - reflexivity.
  - vm_compute. reflexivity.
  - sample_observations.
  - unfold long_enough. cbn. lia.
Defined.

Lemma update_without_observations_witness :
  update sample_solver_new =
    (Ok tt,
     set_heap (<[buffer sample_solver_new := RolloutBuffer_clear RolloutBuffer_new]>
                 (heap sample_solver_new)) sample_solver_new).
Proof.
  apply (update_without_observations sample_solver_new RolloutBuffer_new).
  - reflexivity.
  - reflexivity.
Defined.





Lemma obs_as_tensor_batch_bad_element_witness :
  ∃ e, obs_as_tensor (OList ((ODict <$> [sample_obs 3]) ++ ONone :: [])) true
         = Raise e ∧
       exn_class e = TypeError.
Proof.
  destruct (obs_as_tensor_batch_bad_element [sample_obs 3] ONone [] true)
    as (e & E & Esub & _).
  - apply Forall_cons. split; [|apply Forall_nil_2].
    unfold well_formed. repeat (apply Forall_cons; split; [by eexists|]).
    apply Forall_nil_2.
  - discriminate.
  - exists e. split; [exact E|]. by injection Esub as <-.
Defined.

End more_witnesses.
